(** * Verification of scripts/generate_data.py

    A shallow embedding of the bank-like synthetic data generator
    (record factories, partition writer, command-line driver) and the
    properties of its specification.

    Conventions of the embedding:
    - Python [int] is [Z]; [//] is [Z.div] (both floor).
    - [n_events / events_per_file] is Python's true division of two ints: the
      correctly rounded binary64 quotient.  A finite binary64 value is kept as
      the exact dyadic number [mant * 2^expo] it denotes, so [math.ceil] of it
      is exact integer arithmetic.
    - The floats stored in records (amounts, rates) are kept as the rationals
      they denote ([Q]); [round(x, 2)] rounds to the nearest hundredth.  The
      arithmetic on them is exact: it has neither the rounding nor the
      overflow of binary64, so what is proved of an amount is a range, at the
      constants of the calls of the generator.
    - [strftime] writes the year on four digits, as documented.  The C
      library of Linux leaves a year below 1000 unpadded, and [strptime] then
      rejects the text: what rests on the text of a day string is proved for
      the years from 1000 on, where every platform agrees.
    - The [random] module and [uuid.uuid4] are library code: they are taken
      as interfaces (type classes) with their documented contracts, and the
      state they consume is threaded explicitly.
    - Exceptions are the [Err] results of a state-and-error monad; a raised
      exception ends the run.
    - A file is the list of the records of its lines: [json.dumps] and the
      newline are not spelled out.  Errors of the file system are not
      modelled.
    - [now_utc] is never called by the script and is left out; the parsing of
      the command line is replaced by the record of its results ([Args]). *)

From Stdlib Require Import ZArith QArith String Ascii Bool List Lia.
Import ListNotations.

Open Scope string_scope.
Open Scope list_scope.
Open Scope Z_scope.

Notation "a +++ b" := (String.append a b) (at level 60, right associativity).

(** ** Exceptions and results *)

Inductive exn : Type :=
| ZeroDivisionError
| OverflowError
| ValueError
| KeyError
| IndexError.

Inductive result (A : Type) : Type :=
| Ok (a : A)
| Err (e : exn).
Arguments Ok {A} a.
Arguments Err {A} e.

(** ** Python numbers *)

Module PyNum.

(** A finite binary64 value, as the dyadic rational [mant * 2^expo]. *)
Record float64 : Type := F64 { mant : Z; expo : Z }.

(** Round the positive rational [num/den] to the nearest integer, ties to
    even. *)
Definition round_half_even (num den : Z) : Z :=
  let q := num / den in
  let r := num mod den in
  if 2 * r <? den then q
  else if den <? 2 * r then q + 1
  else if Z.even q then q else q + 1.

(** [floor (log2 (a / b))] for positive [a], [b]. *)
Definition quot_exponent (a b : Z) : Z :=
  let d := Z.log2 a - Z.log2 b in
  let below :=
    if 0 <=? d then a <? b * 2 ^ d else a * 2 ^ (- d) <? b in
  if below then d - 1 else d.

(** Correctly rounded quotient of two positive ints: 53 bits of precision,
    gradual underflow at [2^-1074], OverflowError from [2^1024] on. *)
Definition true_div_pos (a b : Z) : result float64 :=
  let e := quot_exponent a b in
  let k := Z.max (e - 52) (-1074) in
  let m :=
    if 0 <=? k then round_half_even a (b * 2 ^ k)
    else round_half_even (a * 2 ^ (- k)) b in
  if (0 <=? k) && (2 ^ 1024 <=? m * 2 ^ k) then Err OverflowError
  else Ok (F64 m k).

(** [a / b] on two Python ints. *)
Definition true_div (a b : Z) : result float64 :=
  if b =? 0 then Err ZeroDivisionError
  else if a =? 0 then Ok (F64 0 0)
  else
    match true_div_pos (Z.abs a) (Z.abs b) with
    | Ok x => Ok (F64 (Z.sgn a * Z.sgn b * mant x) (expo x))
    | Err e => Err e
    end.

(** [math.ceil] of a float: an exact int. *)
Definition math_ceil (x : float64) : Z :=
  if 0 <=? expo x then mant x * 2 ^ expo x
  else - ((- mant x) / 2 ^ (- expo x)).

(** The integer ceiling of [a / b] for [b > 0]: what [math.ceil(a / b)]
    stands for in the specification. *)
Definition ceil_div (a b : Z) : Z := (a + b - 1) / b.

End PyNum.

Import PyNum.

(** ** Strings: decimal formatting and parsing *)

Module PyStr.

Definition digit_char (d : Z) : ascii :=
  ascii_of_nat (48 + Z.to_nat d).

Definition digit_val (c : ascii) : option Z :=
  let n := Z.of_nat (nat_of_ascii c) in
  if (48 <=? n) && (n <=? 57) then Some (n - 48) else None.

(** The decimal digits of [z >= 0], most significant first, [width] of them
    at least. *)
Fixpoint digits_fuel (fuel : nat) (width : nat) (z : Z) (acc : string) : string :=
  match fuel with
  | O => acc
  | S fuel' =>
      let acc' := String (digit_char (z mod 10)) acc in
      let z' := z / 10 in
      let width' := Nat.pred width in
      if (z' =? 0) && (Nat.eqb width' 0) then acc'
      else digits_fuel fuel' width' z' acc'
  end.

(** [format(z, "0<width>d")] for [z >= 0]; [str(z)] is width 1. *)
Definition zfill_int (width : nat) (z : Z) : string :=
  digits_fuel (width + S (Z.to_nat (Z.log2 z))) width z EmptyString.

Definition str_int (z : Z) : string :=
  if z <? 0 then "-" +++ zfill_int 1 (- z) else zfill_int 1 z.

(** Horner evaluation of a string of decimal digits. *)
Fixpoint int_of_digits_acc (s : string) (acc : Z) : option Z :=
  match s with
  | EmptyString => Some acc
  | String c s' =>
      match digit_val c with
      | Some d => int_of_digits_acc s' (10 * acc + d)
      | None => None
      end
  end.

Definition int_of_digits (s : string) : option Z := int_of_digits_acc s 0.

(** [sep.join(parts)] *)
Fixpoint join (sep : string) (parts : list string) : string :=
  match parts with
  | [] => EmptyString
  | [p] => p
  | p :: ps => p +++ sep +++ join sep ps
  end.

(** [s.split(c)] on a single separator character. *)
Fixpoint split_on (c : ascii) (s : string) : list string :=
  match s with
  | EmptyString => [EmptyString]
  | String a s' =>
      if Ascii.eqb a c then EmptyString :: split_on c s'
      else match split_on c s' with
           | [] => [String a EmptyString]
           | p :: ps => String a p :: ps
           end
  end.

Fixpoint contains_char (c : ascii) (s : string) : bool :=
  match s with
  | EmptyString => false
  | String a s' => Ascii.eqb a c || contains_char c s'
  end.

(** [s[:n]] *)
Definition prefix_slice (n : nat) (s : string) : string := substring 0 n s.

End PyStr.

Import PyStr.

(** ** Calendar: the parts of [datetime] the generator uses *)

Module PyDate.

(** A [datetime] with zero microseconds. *)
Record datetime : Type :=
  DT { year : Z; month : Z; day : Z; hour : Z; minute : Z; second : Z }.

Definition MAXORDINAL : Z := 3652059.
Definition DI400Y : Z := 146097.
Definition DI100Y : Z := 36524.
Definition DI4Y : Z := 1461.

Definition is_leap (y : Z) : bool :=
  (y mod 4 =? 0) && (negb (y mod 100 =? 0) || (y mod 400 =? 0)).

Definition DAYS_IN_MONTH (m : Z) : Z :=
  match m with
  | 1 => 31 | 2 => 28 | 3 => 31 | 4 => 30 | 5 => 31 | 6 => 30
  | 7 => 31 | 8 => 31 | 9 => 30 | 10 => 31 | 11 => 30 | 12 => 31
  | _ => -1
  end.

Definition DAYS_BEFORE_MONTH (m : Z) : Z :=
  match m with
  | 1 => 0 | 2 => 31 | 3 => 59 | 4 => 90 | 5 => 120 | 6 => 151
  | 7 => 181 | 8 => 212 | 9 => 243 | 10 => 273 | 11 => 304 | 12 => 334
  | _ => -1
  end.

Definition days_before_year (y : Z) : Z :=
  let y := y - 1 in y * 365 + y / 4 - y / 100 + y / 400.

Definition days_in_month (y m : Z) : Z :=
  if (m =? 2) && is_leap y then 29 else DAYS_IN_MONTH m.

Definition days_before_month (y m : Z) : Z :=
  DAYS_BEFORE_MONTH m + (if (2 <? m) && is_leap y then 1 else 0).

Definition ymd2ord (y m d : Z) : Z :=
  days_before_year y + days_before_month y m + d.

(** Month and day of the [n]-th day (from 0) of a year. *)
Definition month_day (leapyear : bool) (n : Z) : Z * Z :=
  let month := Z.shiftr (n + 50) 5 in
  let preceding :=
    DAYS_BEFORE_MONTH month + (if (2 <? month) && leapyear then 1 else 0) in
  if n <? preceding then
    let month' := month - 1 in
    let preceding' :=
      preceding
      - (DAYS_IN_MONTH month' + (if (month' =? 2) && leapyear then 1 else 0)) in
    (month', n - preceding' + 1)
  else (month, n - preceding + 1).

Definition ord2ymd (n : Z) : Z * Z * Z :=
  let n := n - 1 in
  let n400 := n / DI400Y in
  let n := n mod DI400Y in
  let y := n400 * 400 + 1 in
  let n100 := n / DI100Y in
  let n := n mod DI100Y in
  let n4 := n / DI4Y in
  let n := n mod DI4Y in
  let n1 := n / 365 in
  let n := n mod 365 in
  let y := y + n100 * 100 + n4 * 4 + n1 in
  if (n1 =? 4) || (n100 =? 4) then (y - 1, 12, 31)
  else
    let leapyear := (n1 =? 3) && (negb (n4 =? 24) || (n100 =? 3)) in
    let '(m, d) := month_day leapyear n in
    (y, m, d).

Definition toordinal (t : datetime) : Z := ymd2ord (year t) (month t) (day t).

(** The date fields are those of a [datetime] Python accepts. *)
Definition valid_date (y m d : Z) : bool :=
  (1 <=? y) && (y <=? 9999) && (1 <=? m) && (m <=? 12)
  && (1 <=? d) && (d <=? days_in_month y m).

(** [t + timedelta(days=days, seconds=seconds)]: through the ordinal of the
    date, as [datetime.__add__] does; OverflowError outside years 1..9999. *)
Definition dt_add (t : datetime) (days seconds : Z) : result datetime :=
  let secs := hour t * 3600 + minute t * 60 + second t + seconds in
  let d := toordinal t + days + secs / 86400 in
  let s := secs mod 86400 in
  if (0 <? d) && (d <=? MAXORDINAL) then
    let '(y, m, dd) := ord2ymd d in
    Ok (DT y m dd (s / 3600) (s mod 3600 / 60) (s mod 60))
  else Err OverflowError.

Definition is_digit (c : ascii) : bool :=
  match digit_val c with Some _ => true | None => false end.

Definition dval (c : ascii) : Z :=
  match digit_val c with Some d => d | None => 0 end.

Definition in_range (lo hi : Z) (c : ascii) : bool :=
  match digit_val c with
  | Some d => (lo <=? d) && (d <=? hi)
  | None => false
  end.

(** [%m]: the alternatives [1[0-2]], [0[1-9]], [[1-9]], tried in order. *)
Definition parse_month (s : string) : option (Z * string) :=
  match s with
  | String a (String b rest) =>
      if Ascii.eqb a "1" && in_range 0 2 b then Some (10 + dval b, rest)
      else if Ascii.eqb a "0" && in_range 1 9 b then Some (dval b, rest)
      else if in_range 1 9 a then Some (dval a, String b rest)
      else None
  | String a EmptyString =>
      if in_range 1 9 a then Some (dval a, EmptyString) else None
  | EmptyString => None
  end.

(** [%d]: the alternatives [3[01]], [[12]\d], [0[1-9]], [[1-9]], [ [1-9]]. *)
Definition parse_day (s : string) : option (Z * string) :=
  match s with
  | String a (String b rest) =>
      if Ascii.eqb a "3" && in_range 0 1 b then Some (30 + dval b, rest)
      else if in_range 1 2 a && is_digit b then Some (10 * dval a + dval b, rest)
      else if Ascii.eqb a "0" && in_range 1 9 b then Some (dval b, rest)
      else if in_range 1 9 a then Some (dval a, String b rest)
      else if Ascii.eqb a " " && in_range 1 9 b then Some (dval b, rest)
      else None
  | String a EmptyString =>
      if in_range 1 9 a then Some (dval a, EmptyString) else None
  | EmptyString => None
  end.

(** [datetime.strptime(s, "%Y-%m-%d")] *)
Definition strptime (s : string) : result datetime :=
  match s with
  | String y1 (String y2 (String y3 (String y4 (String dash1 s1)))) =>
      if is_digit y1 && is_digit y2 && is_digit y3 && is_digit y4
         && Ascii.eqb dash1 "-"
      then
        let y := 1000 * dval y1 + 100 * dval y2 + 10 * dval y3 + dval y4 in
        match parse_month s1 with
        | Some (m, String dash2 s2) =>
            if Ascii.eqb dash2 "-" then
              match parse_day s2 with
              | Some (d, EmptyString) =>
                  if valid_date y m d then Ok (DT y m d 0 0 0)
                  else Err ValueError
              | _ => Err ValueError
              end
            else Err ValueError
        | _ => Err ValueError
        end
      else Err ValueError
  | _ => Err ValueError
  end.

(** [t.strftime("%Y-%m-%d")], with [%Y] the year zero-padded to four digits
    as documented: the text every platform gives from the year 1000 on (the
    C library of Linux writes a smaller year without the zeros). *)
Definition strftime (t : datetime) : string :=
  zfill_int 4 (year t) +++ "-" +++ zfill_int 2 (month t) +++ "-"
  +++ zfill_int 2 (day t).

(** [t.isoformat()] for zero microseconds. *)
Definition isoformat (t : datetime) : string :=
  strftime t +++ "T" +++ zfill_int 2 (hour t) +++ ":"
  +++ zfill_int 2 (minute t) +++ ":" +++ zfill_int 2 (second t).

End PyDate.

Import PyDate.

(** ** Paths: the parts of [pathlib.PurePosixPath] the generator uses *)

Module PyPath.

(** A path is its tuple of parts (the root, if any, is the first part). *)
Definition Path : Type := list string.

Definition keep_part (s : string) : bool :=
  negb (String.eqb s EmptyString) && negb (String.eqb s ".").

Definition rel_parts (s : string) : list string :=
  filter keep_part (split_on "/" s).

(** [Path(s)] *)
Definition path_of_string (s : string) : Path :=
  match s with
  | String a (String b rest) =>
      if Ascii.eqb a "/" then
        if Ascii.eqb b "/" then
          match rest with
          | String c _ =>
              if Ascii.eqb c "/" then "/" :: rel_parts s
              else "//" :: rel_parts s
          | EmptyString => "//" :: rel_parts s
          end
        else "/" :: rel_parts s
      else rel_parts s
  | String a EmptyString =>
      if Ascii.eqb a "/" then ["/"] else rel_parts s
  | EmptyString => []
  end.

(** [p / seg] *)
Definition path_join (p : Path) (seg : string) : Path :=
  match seg with
  | String a _ => if Ascii.eqb a "/" then path_of_string seg else p ++ rel_parts seg
  | EmptyString => p
  end.

(** [str(p)] *)
Definition path_str (p : Path) : string :=
  match p with
  | [] => "."
  | root :: ps =>
      if String.eqb root "/" || String.eqb root "//" then root +++ join "/" ps
      else join "/" p
  end.

(** [p.parent] and [p.name] for a path with at least one non-root part. *)
Definition parent (p : Path) : Path := removelast p.
Definition name (p : Path) : string := last p EmptyString.

End PyPath.

Import PyPath.
Notation "p // seg" := (path_join p seg) (at level 40, left associativity).

(** ** JSON values and records *)

Module PyDict.

Inductive value : Type :=
| VNull
| VBool (b : bool)
| VInt (z : Z)
| VFloat (q : Q)
| VStr (s : string).

(** A Python dict with string keys: insertion-ordered, one entry per key. *)
Definition record : Type := list (string * value).

Fixpoint dict_get (k : string) (d : record) : option value :=
  match d with
  | [] => None
  | (k', v) :: d' => if String.eqb k k' then Some v else dict_get k d'
  end.

(** [d[k] = v]: replaces in place, or appends a new key. *)
Fixpoint dict_set (k : string) (v : value) (d : record) : record :=
  match d with
  | [] => [(k, v)]
  | (k', v') :: d' =>
      if String.eqb k k' then (k, v) :: d' else (k', v') :: dict_set k v d'
  end.

(** [k in d] *)
Definition dict_mem (k : string) (d : record) : bool :=
  match dict_get k d with Some _ => true | None => false end.

(** The dict display [{**base, k1: v1, ..., kn: vn}]. *)
Definition dict_display (base : record) (items : list (string * value)) : record :=
  fold_left (fun d kv => dict_set (fst kv) (snd kv) d) items base.

End PyDict.

Import PyDict.

(** ** Library interfaces: the [random] module and [uuid.uuid4] *)

(** The state of the process-wide generator of the [random] module, with the
    two draws every other function of the module is made of, and their
    contracts.  [triangular low high mode] is kept whole: the generator calls
    it with a mode outside [[low, high]], so no range is assumed for it. *)
Class Random (G : Type) : Type := {
  random : G -> Q * G;
  randbelow : Z -> G -> Z * G;
  triangular : Q -> Q -> Q -> G -> Q * G;
  random_unit : forall g, (0 <= fst (random g) /\ fst (random g) < 1)%Q;
  randbelow_range : forall n g, 0 < n -> 0 <= fst (randbelow n g) < n
}.

(** [uuid.uuid4()] draws from the operating system's entropy, not from the
    [random] module: [U] is the state of that source, and [uuid4] returns
    [str(uuid.uuid4())]. *)
Class UuidSource (U : Type) : Type := {
  uuid4 : U -> string * U
}.

(** [round(x, 2)] *)
Definition round2 (x : Q) : Q :=
  Qmake (round_half_even (Qnum x * 100) (Zpos (Qden x))) 100.

(** [itertools.accumulate(weights)] *)
Fixpoint accumulate (acc : Z) (ws : list Z) : list Z :=
  match ws with
  | [] => []
  | w :: ws' => (acc + w) :: accumulate (acc + w) ws'
  end.

(** [bisect.bisect(cum, x, 0, hi)] on a non-decreasing list. *)
Fixpoint bisect (cum : list Z) (x : Q) (hi : nat) : nat :=
  match hi, cum with
  | S hi', c :: cum' =>
      if Qle_bool (inject_Z c) x then S (bisect cum' x hi') else O
  | _, _ => O
  end.

(** [range(n)] *)
Definition range (n : Z) : list Z := map Z.of_nat (seq 0 (Z.to_nat n)).

(** [enumerate(xs)] *)
Definition enumerate {A : Type} (xs : list A) : list (Z * A) :=
  combine (range (Z.of_nat (length xs))) xs.

(** The characters of a string, as one-character strings. *)
Definition chars (s : string) : list string :=
  map (fun c => String c EmptyString) (list_ascii_of_string s).

(** ** Constants of the script *)

Definition SOURCES : list string :=
  ["payments"; "billing"; "crm"; "erp"; "support"].

Definition CURRENCIES : list string := ["USD"].
Definition COUNTRIES : list string :=
  ["US"; "CA"; "GB"; "DE"; "FR"; "IN"; "AU"; "SG"].
Definition CARD_NETWORKS : list string := ["VISA"; "MASTERCARD"; "AMEX"].
Definition POS_ENTRY_MODES : list string :=
  ["chip"; "contactless"; "magstripe"; "ecommerce"].
Definition PAYMENT_CHANNELS : list string :=
  ["ach_credit"; "ach_debit"; "wire_transfer"; "card_auth";
   "card_settlement"; "zelle"].
Definition MCCS : list record :=
  [ [("mcc", VStr "5411"); ("category", VStr "Grocery")];
    [("mcc", VStr "5812"); ("category", VStr "Restaurant")];
    [("mcc", VStr "5732"); ("category", VStr "Electronics")];
    [("mcc", VStr "4814"); ("category", VStr "Telecom")];
    [("mcc", VStr "5999"); ("category", VStr "Specialty Retail")];
    [("mcc", VStr "6011"); ("category", VStr "ATM")] ].
Definition SUPPORT_CATEGORIES : list string :=
  ["chargeback"; "card_stolen"; "login_issue"; "payment_failed";
   "address_change"; "refund_request"].
Definition SUPPORT_PRIORITIES : list string :=
  ["low"; "medium"; "high"; "urgent"].
Definition CRM_EVENTS : list string :=
  ["kyc_verified"; "kyc_pending"; "kyc_refresh_due"; "address_update";
   "phone_update"; "account_locked"; "login"].
Definition ERP_JOURNALS : list string :=
  ["payments_settlement"; "card_interchange"; "fees_accrual"; "refunds";
   "chargebacks"; "revenue_recognition"].
Definition GL_ACCOUNTS : list string :=
  ["1000-Cash"; "1100-Receivables"; "2000-DepositsLiability";
   "4000-InterchangeRevenue"; "5000-FeesExpense"; "5100-Refunds"].

Definition UPPER : string := "ABCDEFGHIJKLMNOPQRSTUVWXYZ".
Definition UPPER_DIGITS : string := "ABCDEFGHIJKLMNOPQRSTUVWXYZ0123456789".

(** The three characters that open the per-day summary line, as they stand
    in the source (seven bytes of UTF-8). *)
Definition SUMMARY_MARK : string :=
  string_of_list_ascii
    (map ascii_of_nat [195; 162; 197; 147; 226; 128; 166]%nat).

(** The command-line arguments after parsing. *)
Record Args : Type := {
  arg_out : string;
  arg_day : string;
  arg_days : Z;
  arg_total_events : Z;
  arg_events_per_file : Z
}.

(** ** State and exceptions

    A computation over a state [S] either returns a value and the next
    state, or raises. *)

Definition M (S A : Type) : Type := S -> result (A * S).

Definition ret {S A : Type} (a : A) : M S A := fun s => Ok (a, s).

Definition bind {S A B : Type} (m : M S A) (f : A -> M S B) : M S B :=
  fun s =>
    match m s with
    | Ok (a, s') => f a s'
    | Err e => Err e
    end.

Definition raise {S A : Type} (e : exn) : M S A := fun _ => Err e.

Definition lift {S A : Type} (r : result A) : M S A :=
  fun s => match r with Ok a => Ok (a, s) | Err e => Err e end.

Declare Scope monad_scope.
Delimit Scope monad_scope with monad.
Notation "x <- m ;; k" := (bind m (fun x => k))
  (at level 100, m at next level, right associativity) : monad_scope.
Notation "' p <- m ;; k" := (bind m (fun p => k))
  (at level 100, p pattern, m at next level, right associativity)
  : monad_scope.
Open Scope monad_scope.

(** [[m for _ in range(n)]] *)
Fixpoint replicateM {St A : Type} (n : nat) (m : M St A) : M St (list A) :=
  match n with
  | O => ret []
  | S n' => a <- m ;; rest <- replicateM n' m ;; ret (a :: rest)
  end.

(** [for x in xs: body(x)] *)
Fixpoint for_each {St A : Type} (xs : list A) (body : A -> M St unit)
  : M St unit :=
  match xs with
  | [] => ret tt
  | x :: xs' => _ <- body x ;; for_each xs' body
  end.

(** A [for] loop that carries one variable across its iterations. *)
Fixpoint for_fold {St A V : Type} (xs : list A) (body : A -> V -> M St V)
    (v : V) : M St V :=
  match xs with
  | [] => ret v
  | x :: xs' => v' <- body x v ;; for_fold xs' body v'
  end.

(** ** The generator *)

Section Generator.

Context {G U : Type} `{RandomG : Random G} `{UuidU : UuidSource U}.

(** The two sources of randomness: the generator of the [random] module and
    the entropy [uuid4] reads. *)
Record Rand : Type := {
  rng : G;
  entropy : U
}.

(** The file system the script writes: the files, each the list of the
    records of its lines ([json.dumps(rec)] and a newline per record). *)
Definition FS : Type := list (Path * list record).

(** Everything the script reads and changes. *)
Record World : Type := {
  rand : Rand;
  dirs : list Path;
  files : FS;
  stdout : list string
}.

(** The record factories only draw random values; the writer and the driver
    also touch the file system and the console. *)
Definition Gen (A : Type) : Type := M Rand A.
Definition IO (A : Type) : Type := M World A.

Definition with_rng {A : Type} (f : G -> A * G) : Gen A :=
  fun r =>
    let (a, g) := f (rng r) in
    Ok (a, {| rng := g; entropy := entropy r |}).

Definition with_entropy {A : Type} (f : U -> A * U) : Gen A :=
  fun r =>
    let (a, u) := f (entropy r) in
    Ok (a, {| rng := rng r; entropy := u |}).

(** Run a factory inside the script: only the random sources move. *)
Definition run_gen {A : Type} (m : Gen A) : IO A :=
  fun w =>
    match m (rand w) with
    | Ok (a, r) =>
        Ok (a, {| rand := r; dirs := dirs w; files := files w;
                  stdout := stdout w |})
    | Err e => Err e
    end.

(** *** The [random] module *)

Definition py_random : Gen Q := with_rng random.

(** [random.randint(a, b)] *)
Definition randint (a b : Z) : Gen Z :=
  if b - a + 1 <=? 0 then raise ValueError
  else x <- with_rng (randbelow (b - a + 1)) ;; ret (a + x).

(** [random.choice(xs)] *)
Definition choice {A : Type} (xs : list A) : Gen A :=
  match xs with
  | [] => raise IndexError
  | _ =>
      i <- with_rng (randbelow (Z.of_nat (length xs))) ;;
      match nth_error xs (Z.to_nat i) with
      | Some x => ret x
      | None => raise IndexError
      end
  end.

(** [random.choices(population, weights=weights)[0]] *)
Definition choices1 {A : Type} (population : list A) (weights : list Z)
  : Gen A :=
  let cum := accumulate 0 weights in
  if negb (Nat.eqb (length cum) (length population)) then raise ValueError
  else
    match cum with
    | [] => raise IndexError
    | _ =>
        let total := last cum 0 in
        if total <=? 0 then raise ValueError
        else
          u <- py_random ;;
          let i := bisect cum (u * inject_Z total)%Q (length population - 1) in
          match nth_error population i with
          | Some x => ret x
          | None => raise IndexError
          end
    end.

(** [random.uniform(a, b)], in exact arithmetic. *)
Definition uniform (a b : Q) : Gen Q :=
  u <- py_random ;; ret (a + (b - a) * u)%Q.

Definition uuid4_str : Gen string := with_entropy uuid4.

(** *** Effects on the file system and the console *)

Fixpoint fs_write (p : Path) (content : list record) (fs : FS) : FS :=
  match fs with
  | [] => [(p, content)]
  | (p', c') :: fs' =>
      if list_eq_dec string_dec p p' then (p, content) :: fs'
      else (p', c') :: fs_write p content fs'
  end.

Fixpoint fs_read (p : Path) (fs : FS) : option (list record) :=
  match fs with
  | [] => None
  | (p', c') :: fs' =>
      if list_eq_dec string_dec p p' then Some c' else fs_read p fs'
  end.

(** [p.mkdir(parents=True, exist_ok=True)] *)
Definition mkdir_p (p : Path) : IO unit :=
  fun w =>
    Ok (tt, {| rand := rand w;
               dirs := if in_dec (list_eq_dec string_dec) p (dirs w)
                       then dirs w else dirs w ++ [p];
               files := files w; stdout := stdout w |}).

(** Open [p] for writing, write the lines, close. *)
Definition write_file (p : Path) (content : list record) : IO unit :=
  fun w =>
    Ok (tt, {| rand := rand w; dirs := dirs w;
               files := fs_write p content (files w); stdout := stdout w |}).

Definition print (msg : string) : IO unit :=
  fun w =>
    Ok (tt, {| rand := rand w; dirs := dirs w; files := files w;
               stdout := stdout w ++ [msg] |}).

(** *** Helpers of the record factories *)

Definition rand_ts_for_day (day_str : string) : Gen datetime :=
  day_start <- lift (strptime day_str) ;;
  s <- randint 0 86399 ;;
  lift (dt_add day_start 0 s).

Definition base_record (day_str source : string) : Gen record :=
  ts <- rand_ts_for_day day_str ;;
  event_id <- uuid4_str ;;
  user_id <- randint 1000 500000 ;;
  currency <- choice CURRENCIES ;;
  ret [ ("event_id", VStr event_id);
        ("user_id", VInt user_id);
        ("currency", VStr currency);
        ("source_system", VStr source);
        ("timestamp", VStr (isoformat ts +++ "Z")) ].

Definition rand_amount (lo hi : Q) (purchase : bool) : Gen Q :=
  if purchase then
    x <- with_rng (triangular 5 60 300) ;; ret (round2 x)
  else
    x <- uniform lo hi ;; ret (round2 x).

Definition random_digit : Gen string :=
  d <- randint 0 9 ;; ret (str_int d).

Definition nine_digits : Gen string :=
  ds <- replicateM 9 random_digit ;; ret (join EmptyString ds).

Definition pan_last4 : Gen string :=
  ds <- replicateM 4 random_digit ;; ret (join EmptyString ds).

Definition swift_bic : Gen string :=
  bank <- replicateM 4 (choice (chars UPPER)) ;;
  country <- choice ["US"; "GB"; "DE"; "FR"; "CA"; "IN"; "AU"; "SG"] ;;
  branch <- replicateM 2 (choice (chars UPPER_DIGITS)) ;;
  ret (join EmptyString bank +++ country +++ join EmptyString branch).

Definition mask_iban : Gen string :=
  cs <- replicateM 10 (choice (chars UPPER_DIGITS)) ;;
  ret ("****" +++ join EmptyString cs).

(** [d[k]] *)
Definition dict_item (k : string) (d : record) : Gen value :=
  match dict_get k d with
  | Some v => ret v
  | None => raise KeyError
  end.

Definition merchant : Gen record :=
  m <- choice MCCS ;;
  merchant_id <- uuid4_str ;;
  merchant_name <- choice ["Acme Stores"; "MetroMart"; "Cafe Aurora";
                           "TechHub"; "TelcoMax"; "Global ATM"] ;;
  merchant_country <- choice COUNTRIES ;;
  mcc <- dict_item "mcc" m ;;
  category <- dict_item "category" m ;;
  ret [ ("merchant_id", VStr (prefix_slice 8 merchant_id));
        ("merchant_name", VStr merchant_name);
        ("merchant_country", VStr merchant_country);
        ("mcc", mcc);
        ("category", category) ].

(** *** Record factories *)

Definition gen_payments (day_str : string) : Gen record :=
  base <- base_record day_str "payments" ;;
  channel <- choices1 PAYMENT_CHANNELS [20; 20; 10; 25; 20; 5] ;;
  status <- choices1 ["posted"; "pending"; "failed"] [80; 17; 3] ;;
  if String.eqb channel "card_auth" || String.eqb channel "card_settlement"
  then
    m <- merchant ;;
    let event_type := channel in
    amt <- rand_amount 1 500 true ;;
    card_network <- choice CARD_NETWORKS ;;
    pan <- pan_last4 ;;
    card_present <- choice [true; false] ;;
    pos_entry_mode <- choice POS_ENTRY_MODES ;;
    approval_code <-
      (if negb (String.eqb status "failed")
       then u <- uuid4_str ;; ret (VStr (prefix_slice 6 u))
       else ret VNull) ;;
    decline_reason <-
      (if negb (String.eqb status "failed") then ret VNull
       else r <- choice ["insufficient_funds"; "suspected_fraud";
                         "do_not_honor"] ;;
            ret (VStr r)) ;;
    ret (dict_display base
           ([ ("event_type", VStr event_type);
              ("amount", VFloat amt);
              ("card_network", VStr card_network);
              ("pan_last4", VStr pan);
              ("card_present", VBool card_present);
              ("pos_entry_mode", VStr pos_entry_mode) ]
            ++ m
            ++ [ ("approval_code", approval_code);
                 ("decline_reason", decline_reason);
                 ("status", VStr status) ]))
  else if String.eqb channel "ach_credit" || String.eqb channel "ach_debit"
  then
    let event_type := channel in
    amt <- rand_amount 5 2000 false ;;
    routing_number <- nine_digits ;;
    account_last4 <- pan_last4 ;;
    counterparty_name <- choice ["Payroll Inc"; "Utility Co"; "John Smith";
                                 "Jane Doe"] ;;
    trace <- uuid4_str ;;
    ret (dict_display base
           [ ("event_type", VStr event_type);
             ("amount",
              VFloat (if String.eqb channel "ach_credit" then amt
                      else (- amt)%Q));
             ("routing_number", VStr routing_number);
             ("account_last4", VStr account_last4);
             ("counterparty_name", VStr counterparty_name);
             ("trace_number", VStr (prefix_slice 12 trace));
             ("status", VStr status) ])
  else if String.eqb channel "wire_transfer"
  then
    amt <- rand_amount 100 10000 false ;;
    amount <- choice [amt; (- amt)%Q] ;;
    bic <- swift_bic ;;
    iban <- mask_iban ;;
    is_international <- choice [true; false] ;;
    ret (dict_display base
           [ ("event_type", VStr "wire_transfer");
             ("amount", VFloat amount);
             ("swift_bic", VStr bic);
             ("iban_masked", VStr iban);
             ("is_international", VBool is_international);
             ("fees", VFloat (round2 (amt * (3 # 1000))%Q));
             ("status", VStr status) ])
  else
    (* zelle or fallback *)
    amt <- rand_amount 5 500 false ;;
    amount <- choice [amt; (- amt)%Q] ;;
    alias <- choice ["+1-202-555-0101"; "friend@example.com"; "$roommate"] ;;
    ret (dict_display base
           [ ("event_type", VStr "zelle_payment");
             ("amount", VFloat amount);
             ("counterparty_alias", VStr alias);
             ("status", VStr status) ]).

(** [max(0.0, x)] *)
Definition max_zero (x : Q) : Q := if Qle_bool x 0 then 0%Q else x.

Definition gen_billing (day_str : string) : Gen record :=
  base <- base_record day_str "billing" ;;
  status <- choices1 ["open"; "paid"; "overdue"; "refunded"] [40; 45; 10; 5] ;;
  u <- uuid4_str ;;
  let invoice_id := "INV-" +++ prefix_slice 8 u in
  issued <- rand_ts_for_day day_str ;;
  term <- choice [7; 14; 30] ;;
  due <- lift (dt_add issued term 0) ;;
  amt <- rand_amount 20 2000 false ;;
  paid <-
    (if String.eqb status "paid" || String.eqb status "refunded" then ret amt
     else f <- choice [0; 1 # 4; 1 # 2; 3 # 4]%Q ;;
          ret (round2 (amt * f)%Q)) ;;
  event_type <- choice ["invoice_issued"; "invoice_paid"; "refund_issued"] ;;
  tax_rate <- choice [0; 5 # 100; 7 # 100; 1 # 10]%Q ;;
  line_count <- randint 1 5 ;;
  ret (dict_display base
         [ ("event_type", VStr event_type);
           ("invoice_id", VStr invoice_id);
           ("invoice_date", VStr (isoformat issued +++ "Z"));
           ("due_date", VStr (isoformat due +++ "Z"));
           ("status", VStr status);
           ("amount",
            VFloat (if negb (String.eqb event_type "refund_issued") then amt
                    else (- paid)%Q));
           ("amount_due", VFloat (max_zero (amt - paid)%Q));
           ("amount_paid", VFloat paid);
           ("tax_rate", VFloat tax_rate);
           ("line_count", VInt line_count) ]).

Definition gen_crm (day_str : string) : Gen record :=
  base <- base_record day_str "crm" ;;
  event_type <- choices1 CRM_EVENTS [25; 10; 5; 20; 15; 5; 20] ;;
  risk <- randint 1 99 ;;
  kyc_status <- choice ["pending"; "verified"; "refresh_due"; "blocked"] ;;
  pep_flag <- choice [false; false; false; true] ;;
  ip3 <- randint 0 255 ;;
  ip4 <- randint 0 255 ;;
  country <- choice COUNTRIES ;;
  ret (dict_display base
         [ ("event_type", VStr event_type);
           ("amount", VFloat 0);
           ("kyc_status", VStr kyc_status);
           ("risk_score", VInt risk);
           ("pep_flag", VBool pep_flag);
           ("ip", VStr ("192.168." +++ str_int ip3 +++ "." +++ str_int ip4));
           ("country", VStr country) ]).

Definition gen_erp (day_str : string) : Gen record :=
  base <- base_record day_str "erp" ;;
  journal <- choice ERP_JOURNALS ;;
  acct <- choice GL_ACCOUNTS ;;
  amt <- rand_amount 5 5000 false ;;
  side <- choice ["debit"; "credit"] ;;
  entity <- choice ["HQ"; "NYC"; "SFO"; "LON"] ;;
  posted_by <- choice ["batch_job"; "integration"; "analyst"] ;;
  ret (dict_display base
         [ ("event_type", VStr "gl_posting");
           ("journal_type", VStr journal);
           ("gl_account", VStr acct);
           ("debit", VFloat (if String.eqb side "debit" then amt else 0%Q));
           ("credit", VFloat (if String.eqb side "credit" then amt else 0%Q));
           ("amount", VFloat amt);
           ("entity", VStr entity);
           ("posted_by", VStr posted_by) ]).

Definition gen_support (day_str : string) : Gen record :=
  base <- base_record day_str "support" ;;
  cat <- choice SUPPORT_CATEGORIES ;;
  pri <- choices1 SUPPORT_PRIORITIES [50; 30; 15; 5] ;;
  status <- choices1 ["open"; "in_progress"; "resolved"; "closed"]
                     [20; 30; 35; 15] ;;
  u <- uuid4_str ;;
  channel <- choice ["phone"; "email"; "in_app"; "chat"] ;;
  ret (dict_display base
         [ ("event_type",
            VStr ("ticket_" +++
                  (if String.eqb status "resolved" || String.eqb status "closed"
                   then "closed" else "opened")));
           ("amount", VFloat 0);
           ("ticket_id", VStr ("TCK-" +++ prefix_slice 8 u));
           ("category", VStr cat);
           ("priority", VStr pri);
           ("status", VStr status);
           ("channel", VStr channel) ]).

(** A table of factories, by source name. *)
Definition factories : Type := string -> option (string -> Gen record).

Definition GEN_BY_SOURCE : factories :=
  fun source =>
    if String.eqb source "payments" then Some gen_payments
    else if String.eqb source "billing" then Some gen_billing
    else if String.eqb source "crm" then Some gen_crm
    else if String.eqb source "erp" then Some gen_erp
    else if String.eqb source "support" then Some gen_support
    else None.

(** *** Partition writer *)

(** The two backfills of the writer: ensure the common fields exist. *)
Definition ensure_common_fields (rec : record) : record :=
  let rec1 :=
    if negb (dict_mem "amount" rec) then dict_set "amount" (VFloat 0) rec
    else rec in
  if negb (dict_mem "event_type" rec1)
  then dict_set "event_type" (VStr "event") rec1
  else rec1.

(** One turn of the inner loop: the record of the next line. *)
Definition gen_line (gens : factories) (source day_str : string) : IO record :=
  match gens source with
  | None => raise KeyError
  | Some gen => rec <- run_gen (gen day_str) ;; ret (ensure_common_fields rec)
  end.

(** [f"part-{i:05d}.json"] *)
Definition part_name (i : Z) : string := "part-" +++ zfill_int 5 i +++ ".json".

(** The body of the loop over [range(n_files)]; it carries [remaining]. *)
Definition write_part (gens : factories) (day_str source : string)
    (base : Path) (events_per_file : Z) (i : Z) (remaining : Z) : IO Z :=
  let count := Z.min events_per_file remaining in
  let fp := base // part_name i in
  lines <- replicateM (Z.to_nat count) (gen_line gens source day_str) ;;
  _ <- write_file fp lines ;;
  let remaining := remaining - count in
  _ <- print ("Wrote " +++ str_int count +++ " events -> " +++ path_str fp) ;;
  ret remaining.

(** [write_partition], over any table of factories. *)
Definition write_partition_with (gens : factories) (day_str source : string)
    (out_dir : Path) (n_events events_per_file : Z) : IO Path :=
  let base := out_dir // ("day=" +++ day_str) // ("source=" +++ source) in
  _ <- mkdir_p base ;;
  q <- lift (true_div n_events events_per_file) ;;
  let n_files := Z.max 1 (math_ceil q) in
  let remaining := n_events in
  _ <- for_fold (range n_files)
         (write_part gens day_str source base events_per_file) remaining ;;
  ret base.

Definition write_partition : string -> string -> Path -> Z -> Z -> IO Path :=
  write_partition_with GEN_BY_SOURCE.

(** *** Driver *)

(** The share of the source at position [idx] of [SOURCES]. *)
Definition per_source (total_events : Z) : Z :=
  total_events / Z.of_nat (length SOURCES).

Definition remainder (total_events : Z) : Z :=
  total_events - per_source total_events * Z.of_nat (length SOURCES).

Definition allocation (total_events idx : Z) : Z :=
  per_source total_events + (if idx <? remainder total_events then 1 else 0).

(** The day string of the [d]-th turn of the loop over [range(args.days)]. *)
Definition day_back (day : string) (d : Z) : result string :=
  match strptime day with
  | Ok t =>
      match dt_add t (- d) 0 with
      | Ok t' => Ok (strftime t')
      | Err e => Err e
      end
  | Err e => Err e
  end.

Definition main (args : Args) : IO unit :=
  let out_dir := path_of_string (arg_out args) in
  _ <- mkdir_p out_dir ;;
  for_each (range (arg_days args)) (fun d =>
    day_str <- lift (day_back (arg_day args) d) ;;
    _ <- for_each (enumerate SOURCES) (fun '(idx, source) =>
           let n := allocation (arg_total_events args) idx in
           _ <- write_partition day_str source out_dir n
                  (arg_events_per_file args) ;;
           ret tt) ;;
    print (SUMMARY_MARK +++ " Generated ~" +++ str_int (arg_total_events args)
           +++ " events for " +++ day_str +++ " under " +++ path_str out_dir)).

End Generator.

Arguments Rand G U : clear implicits.
Arguments World G U : clear implicits.
Arguments Gen G U A : clear implicits.
Arguments IO G U A : clear implicits.
Arguments factories G U : clear implicits.

(** ** A concrete random source, for running the generator

    The random source replays a script of raw draws (and answers 0 once the
    script is used up); the uuid source replays a script of strings. *)

Module Scripted.

Definition next (g : list Z) : Z * list Z :=
  match g with
  | [] => (0, [])
  | x :: g' => (x, g')
  end.

Definition unit_of (x : Z) : Q := (x mod 1000) # 1000.

Definition s_random (g : list Z) : Q * list Z :=
  let (x, g') := next g in (unit_of x, g').

Definition s_randbelow (n : Z) (g : list Z) : Z * list Z :=
  let (x, g') := next g in (if 0 <? n then x mod n else 0, g').

Definition s_triangular (low high mode : Q) (g : list Z) : Q * list Z :=
  let (x, g') := next g in ((low + (high - low) * unit_of x)%Q, g').

Definition s_uuid4 (u : list string) : string * list string :=
  match u with
  | [] => ("00000000-0000-4000-8000-000000000000", [])
  | s :: u' => (s, u')
  end.

#[export] Instance random_script : Random (list Z).
Proof.
  refine {| random := s_random;
            randbelow := s_randbelow;
            triangular := s_triangular |}.
  - abstract
      (intros g; unfold s_random; destruct (next g) as [x g']; cbn [fst];
       unfold unit_of, Qle, Qlt; cbn [Qnum Qden];
       pose proof (Z.mod_pos_bound x 1000 ltac:(lia)); lia).
  - abstract
      (intros n g Hn; unfold s_randbelow; destruct (next g) as [x g'];
       cbn [fst]; apply Z.ltb_lt in Hn as Hn'; rewrite Hn';
       apply Z.mod_pos_bound; lia).
Defined.

#[export] Instance uuid_script : UuidSource (list string) := {
  uuid4 := s_uuid4
}.

(** A world with the given scripts and an empty file system. *)
Definition world (g : list Z) (u : list string)
  : World (list Z) (list string) :=
  {| rand := {| rng := g; entropy := u |};
     dirs := []; files := []; stdout := [] |}.

End Scripted.

(** * Vocabulary of the specification *)

(** [triple E m Q]: from any state, [m] either returns a value satisfying
    [Q] or raises, and it may raise only if [E] holds.  With [E := False]
    this is total correctness, with [E := True] partial correctness. *)
Definition triple {S A : Type} (E : Prop) (m : M S A) (Q : A -> Prop)
  : Prop :=
  forall s, match m s with
            | Ok (a, _) => Q a
            | Err _ => E
            end.

(** The check of [month_day] on one day of a year. *)
Definition month_day_check (leap : bool) (n : Z) : bool :=
  let '(m, d) := month_day leap n in
  (1 <=? m) && (m <=? 12) && (1 <=? d)
  && (d <=? DAYS_IN_MONTH m + (if (m =? 2) && leap then 1 else 0))
  && (DAYS_BEFORE_MONTH m + (if (2 <? m) && leap then 1 else 0) + d =? n + 1).

(** The fields of a [datetime] are in their ranges. *)
Definition wf_datetime (t : datetime) : Prop :=
  valid_date (year t) (month t) (day t) = true
  /\ 0 <= hour t < 24 /\ 0 <= minute t < 60 /\ 0 <= second t < 60.

(** A day the factories accept: it parses, and an invoice issued that day
    can fall due thirty days later without leaving the calendar. *)
Definition day_ok (day_str : string) : Prop :=
  exists t, strptime day_str = Ok t /\ toordinal t + 30 <= MAXORDINAL.

(** The day string of the date with ordinal [n]. *)
Definition day_string (n : Z) : string :=
  let '(y, m, d) := ord2ymd n in strftime (DT y m d 0 0 0).

(** The shape of the common fields. *)
Definition is_base (source : string) (b : record) : Prop :=
  exists event_id user_id currency timestamp,
    b = [ ("event_id", VStr event_id);
          ("user_id", VInt user_id);
          ("currency", VStr currency);
          ("source_system", VStr source);
          ("timestamp", VStr timestamp) ].

(** The shape of the merchant fields. *)
Definition is_merchant (m : record) : Prop :=
  exists merchant_id merchant_name merchant_country mcc category,
    m = [ ("merchant_id", VStr merchant_id);
          ("merchant_name", VStr merchant_name);
          ("merchant_country", VStr merchant_country);
          ("mcc", mcc);
          ("category", category) ].

(** ACH debits are negative, ACH credits positive. *)
Definition ach_sign_ok (rec : record) : Prop :=
  (dict_get "event_type" rec = Some (VStr "ach_debit") ->
   exists a, dict_get "amount" rec = Some (VFloat a) /\ (a < 0)%Q)
  /\ (dict_get "event_type" rec = Some (VStr "ach_credit") ->
      exists a, dict_get "amount" rec = Some (VFloat a) /\ (0 < a)%Q).

(** On a card record, exactly one of the approval code and the decline
    reason is null, and the status tells which. *)
Definition card_codes_ok (rec : record) : Prop :=
  dict_get "event_type" rec = Some (VStr "card_auth")
  \/ dict_get "event_type" rec = Some (VStr "card_settlement") ->
  exists status approval_code decline_reason,
    dict_get "status" rec = Some (VStr status)
    /\ dict_get "approval_code" rec = Some approval_code
    /\ dict_get "decline_reason" rec = Some decline_reason
    /\ (decline_reason <> VNull <-> status = "failed")
    /\ (approval_code = VNull <-> status = "failed").

(** A refund carries the amount paid, negated: never positive, and negative
    as soon as something was paid. *)
Definition refund_ok (rec : record) : Prop :=
  dict_get "event_type" rec = Some (VStr "refund_issued") ->
  exists a paid status,
    dict_get "amount" rec = Some (VFloat a)
    /\ dict_get "amount_paid" rec = Some (VFloat paid)
    /\ dict_get "status" rec = Some (VStr status)
    /\ a = (- paid)%Q /\ (a <= 0)%Q
    /\ (status = "paid" \/ status = "refunded" -> (a < 0)%Q).

(** A posting has one side: the side carries the amount, the other 0.0. *)
Definition posting_ok (rec : record) : Prop :=
  dict_get "event_type" rec = Some (VStr "gl_posting")
  /\ exists amt debit credit,
       dict_get "amount" rec = Some (VFloat amt)
       /\ dict_get "debit" rec = Some (VFloat debit)
       /\ dict_get "credit" rec = Some (VFloat credit)
       /\ (0 < amt)%Q
       /\ ((debit = amt /\ credit = 0%Q) \/ (debit = 0%Q /\ credit = amt)).

(** The line counts the loop of the writer gives to [k] files in turn, from
    [remaining] events left. *)
Fixpoint part_counts (k : nat) (events_per_file remaining : Z) : list Z :=
  match k with
  | O => []
  | S k' =>
      let count := Z.min events_per_file remaining in
      count :: part_counts k' events_per_file (remaining - count)
  end.

(** [sum(xs)] *)
Definition sum_Z (xs : list Z) : Z := fold_right Z.add 0 xs.

Definition path_eq_dec : forall p q : Path, {p = q} + {p <> q} :=
  list_eq_dec string_dec.

(** The files directly inside a directory. *)
Definition files_in (dir : Path) (fs : FS) : FS :=
  filter (fun x => if path_eq_dec (parent (fst x)) dir then true else false) fs.

(** The number of lines of all the files directly inside a directory. *)
Definition lines_in (dir : Path) (fs : FS) : Z :=
  sum_Z (map (fun x => Z.of_nat (length (snd x))) (files_in dir fs)).

(** The state of the file system after a sequence of writes. *)
Definition fs_write_all (ws : list (Path * list record)) (fs : FS) : FS :=
  fold_left (fun fs x => fs_write (fst x) (snd x) fs) ws fs.

(** The directories of the partitions of one day. *)
Definition day_partitions (out_dir : Path) (day_str : string) : list Path :=
  flat_map (fun x : Z * string =>
              [out_dir ++ ["day=" +++ day_str; "source=" +++ snd x]])
           (enumerate SOURCES).

(** The fields whose value is cut from a [uuid.uuid4()]. *)
Definition UUID_FIELDS : list string :=
  ["event_id"; "merchant_id"; "approval_code"; "trace_number"; "invoice_id";
   "ticket_id"].

(** A record with the text of its uuid-derived fields blanked (a null stays
    a null). *)
Definition scrub_value (k : string) (v : value) : value :=
  if existsb (String.eqb k) UUID_FIELDS then
    match v with
    | VStr _ => VStr EmptyString
    | _ => v
    end
  else v.

Definition scrub (rec : record) : record :=
  map (fun kv => (fst kv, scrub_value (fst kv) (snd kv))) rec.

Definition scrub_fs (fs : list (Path * list record))
  : list (Path * list record) :=
  map (fun f => (fst f, map scrub (snd f))) fs.

(** Two records that differ at most in the text of uuid-derived fields. *)
Definition same_rec (rec1 rec2 : record) : Prop := scrub rec1 = scrub rec2.

(** Two outcomes agree: the same exception, or two results related by [RA]
    in states related by [RS]. *)
Definition agree {S A : Type} (RS : S -> S -> Prop) (RA : A -> A -> Prop)
    (o1 o2 : result (A * S)) : Prop :=
  match o1, o2 with
  | Ok (a1, s1), Ok (a2, s2) => RA a1 a2 /\ RS s1 s2
  | Err e1, Err e2 => e1 = e2
  | _, _ => False
  end.

Definition sim {S A : Type} (RS : S -> S -> Prop) (RA : A -> A -> Prop)
    (m1 m2 : M S A) : Prop :=
  forall s1 s2, RS s1 s2 -> agree RS RA (m1 s1) (m2 s2).

Section Vocabulary.

Context {G U : Type}.

(** A step of the script that leaves the file system and the console as
    they are. *)
Definition same_fs (w w' : World G U) : Prop :=
  dirs w' = dirs w /\ files w' = files w /\ stdout w' = stdout w.

(** What the writer puts on a line: a record of the factory of the source,
    after the backfills. *)
Definition line_of (gens : factories G U) (source day_str : string)
    (line : record) : Prop :=
  exists gen rec r r',
    gens source = Some gen /\ gen day_str r = Ok (rec, r')
    /\ line = ensure_common_fields rec.

(** How the files of the script grow: nothing disappears, what appears lies
    directly inside one of the directories [ds], and each of them holds a
    file. *)
Definition grows (ds : list Path) (w w' : World G U) : Prop :=
  (forall p, fs_read p (files w) <> None -> fs_read p (files w') <> None)
  /\ (forall p, fs_read p (files w') <> None ->
                fs_read p (files w) <> None \/ In (parent p) ds)
  /\ (forall dir, In dir ds ->
                  exists p, fs_read p (files w') <> None /\ parent p = dir).

(** Two states of the random sources with the same generator state. *)
Definition same_rng (r1 r2 : Rand G U) : Prop := rng r1 = rng r2.

(** A computation whose outcome is a function of the generator state. *)
Definition det {A : Type} (m : Gen G U A) : Prop := sim same_rng eq m m.

(** Two worlds with the same generator state, the same directories and
    console, and files that differ at most in the text of uuid-derived
    fields. *)
Definition same_seed (w1 w2 : World G U) : Prop :=
  rng (rand w1) = rng (rand w2)
  /\ dirs w1 = dirs w2
  /\ scrub_fs (files w1) = scrub_fs (files w2)
  /\ stdout w1 = stdout w2.

End Vocabulary.

(** ** Concrete inputs *)

Module Inputs.

Import Scripted.

(** A table with one factory that gives neither [amount] nor [event_type]. *)
Definition bare_factories : factories (list Z) (list string) :=
  fun _ => Some (fun _ => ret [("note", VStr "bare")]).

(** The draws that lead [gen_payments] to an ACH debit, and [gen_billing] to
    a refund on an invoice with status [paid]. *)
Definition ach_debit_draws : Rand (list Z) (list string) :=
  {| rng := [100; 3; 0; 300; 0; 500]; entropy := [] |}.

Definition paid_refund_draws : Rand (list Z) (list string) :=
  {| rng := [100; 3; 0; 500; 5; 0; 250; 2]; entropy := [] |}.

(** The draws that lead [gen_billing] to a refund on an [open] invoice on
    which nothing was paid. *)
Definition unpaid_refund_draws : Rand (list Z) (list string) :=
  {| rng := [100; 3; 0; 0; 5; 0; 250; 0; 2]; entropy := [] |}.

Definition erp_draws : Rand (list Z) (list string) :=
  {| rng := [100; 3; 0; 2; 1; 500; 1; 2; 1]; entropy := ["abcdefgh-1234"] |}.

(** The draws that lead [gen_payments] to a failed card authorization. *)
Definition failed_card_draws : Rand (list Z) (list string) :=
  {| rng := [100; 3; 0; 700; 990; 1; 2; 3; 4; 5; 6; 7; 8; 9; 10; 11; 12];
     entropy := ["abcdefgh-1234"; "m1234567890"; "a1234567890"] |}.

(** The scenario of the specification: three days back from 2024-01-03. *)
Definition scenario_args : Args :=
  {| arg_out := "data/raw"; arg_day := "2024-01-03"; arg_days := 3;
     arg_total_events := 10; arg_events_per_file := 60000 |}.

(** One event on one day, from the same seed, with two different states of
    the entropy of the operating system. *)
Definition one_event_args : Args :=
  {| arg_out := "out"; arg_day := "2024-01-01"; arg_days := 1;
     arg_total_events := 1; arg_events_per_file := 60000 |}.

Definition first_run : World (list Z) (list string) :=
  world [7; 42; 0; 300] ["11111111-1111-4111-8111-111111111111"].

Definition second_run : World (list Z) (list string) :=
  world [7; 42; 0; 300] ["22222222-2222-4222-8222-222222222222"].

End Inputs.

(** * Vocabulary of the further properties *)

(** A datetime on the date of [t], at some time of the day. *)
Definition on_day (t ts : datetime) : Prop :=
  year ts = year t /\ month ts = month t /\ day ts = day t
  /\ 0 <= hour ts < 24 /\ 0 <= minute ts < 60 /\ 0 <= second ts < 60.

(** Every character of a string passes a test. *)
Definition all_chars (p : ascii -> bool) (s : string) : bool :=
  forallb p (list_ascii_of_string s).

Definition is_upper (c : ascii) : bool :=
  let n := Z.of_nat (nat_of_ascii c) in (65 <=? n) && (n <=? 90).

Definition is_upper_or_digit (c : ascii) : bool := is_upper c || is_digit c.

(** A string of one character that passes a test. *)
Definition one_char (p : ascii -> bool) (s : string) : Prop :=
  exists c, s = String c EmptyString /\ p c = true.

(** A day string [datetime.strptime] accepts. *)
Definition parses (day_str : string) : Prop :=
  exists t, strptime day_str = Ok t.

(** The common fields of a record of [source] made for [day_str]. *)
Definition base_fields (day_str source : string) (b : record) : Prop :=
  exists t ts event_id user_id,
    strptime day_str = Ok t /\ on_day t ts
    /\ 1000 <= user_id <= 500000
    /\ b = [ ("event_id", VStr event_id);
             ("user_id", VInt user_id);
             ("currency", VStr "USD");
             ("source_system", VStr source);
             ("timestamp", VStr (isoformat ts +++ "Z")) ].

(** The merchant fields of a card record: the code and the category are
    those of one entry of [MCCS]. *)
Definition merchant_fields (m : record) : Prop :=
  exists u merchant_name merchant_country mcc category,
    m = [ ("merchant_id", VStr (prefix_slice 8 u));
          ("merchant_name", VStr merchant_name);
          ("merchant_country", VStr merchant_country);
          ("mcc", mcc);
          ("category", category) ]
    /\ In merchant_name ["Acme Stores"; "MetroMart"; "Cafe Aurora";
                         "TechHub"; "TelcoMax"; "Global ATM"]
    /\ In merchant_country COUNTRIES
    /\ In [("mcc", mcc); ("category", category)] MCCS.

Definition digits_of_length (n : nat) (s : string) : Prop :=
  String.length s = n /\ all_chars is_digit s = true.

Definition bic_shape (bic : string) : Prop :=
  exists bank country branch,
    bic = bank +++ country +++ branch
    /\ String.length bank = 4%nat /\ all_chars is_upper bank = true
    /\ In country ["US"; "GB"; "DE"; "FR"; "CA"; "IN"; "AU"; "SG"]
    /\ String.length branch = 2%nat
    /\ all_chars is_upper_or_digit branch = true.

Definition iban_shape (iban : string) : Prop :=
  exists tail,
    iban = "****" +++ tail
    /\ String.length tail = 10%nat
    /\ all_chars is_upper_or_digit tail = true.

(** An amount of magnitude between [lo] and [hi], of either sign. *)
Definition magnitude_between (lo hi a : Q) : Prop :=
  exists amt, (lo <= amt /\ amt <= hi)%Q /\ (a = amt \/ a = (- amt)%Q).

Definition payment_statuses : list string := ["posted"; "pending"; "failed"].

(** The four kinds of payments records. *)
Definition card_fields (day_str : string) (rec : record) : Prop :=
  exists b event_type amt card_network pan card_present pos_entry_mode m
         approval_code decline_reason status,
    rec = b ++ [ ("event_type", VStr event_type);
                 ("amount", VFloat amt);
                 ("card_network", VStr card_network);
                 ("pan_last4", VStr pan);
                 ("card_present", VBool card_present);
                 ("pos_entry_mode", VStr pos_entry_mode) ]
            ++ m
            ++ [ ("approval_code", approval_code);
                 ("decline_reason", decline_reason);
                 ("status", VStr status) ]
    /\ base_fields day_str "payments" b
    /\ In event_type ["card_auth"; "card_settlement"]
    /\ In card_network CARD_NETWORKS
    /\ digits_of_length 4 pan
    /\ In pos_entry_mode POS_ENTRY_MODES
    /\ merchant_fields m
    /\ In status payment_statuses
    /\ ((status = "failed" /\ approval_code = VNull
         /\ exists reason,
              decline_reason = VStr reason
              /\ In reason ["insufficient_funds"; "suspected_fraud";
                            "do_not_honor"])
        \/ (status <> "failed" /\ decline_reason = VNull
            /\ exists u, approval_code = VStr (prefix_slice 6 u))).

Definition ach_fields (day_str : string) (rec : record) : Prop :=
  exists b event_type amount amt routing_number account_last4
         counterparty_name u status,
    rec = b ++ [ ("event_type", VStr event_type);
                 ("amount", VFloat amount);
                 ("routing_number", VStr routing_number);
                 ("account_last4", VStr account_last4);
                 ("counterparty_name", VStr counterparty_name);
                 ("trace_number", VStr (prefix_slice 12 u));
                 ("status", VStr status) ]
    /\ base_fields day_str "payments" b
    /\ (5 <= amt /\ amt <= 2000)%Q
    /\ ((event_type = "ach_credit" /\ amount = amt)
        \/ (event_type = "ach_debit" /\ amount = (- amt)%Q))
    /\ digits_of_length 9 routing_number
    /\ digits_of_length 4 account_last4
    /\ In counterparty_name ["Payroll Inc"; "Utility Co"; "John Smith";
                             "Jane Doe"]
    /\ In status payment_statuses.

Definition wire_fields (day_str : string) (rec : record) : Prop :=
  exists b amount bic iban is_international fees status,
    rec = b ++ [ ("event_type", VStr "wire_transfer");
                 ("amount", VFloat amount);
                 ("swift_bic", VStr bic);
                 ("iban_masked", VStr iban);
                 ("is_international", VBool is_international);
                 ("fees", VFloat fees);
                 ("status", VStr status) ]
    /\ base_fields day_str "payments" b
    /\ magnitude_between 100 10000 amount
    /\ bic_shape bic /\ iban_shape iban
    /\ ((3 # 10) <= fees /\ fees <= 30)%Q
    /\ In status payment_statuses.

Definition zelle_fields (day_str : string) (rec : record) : Prop :=
  exists b amount alias status,
    rec = b ++ [ ("event_type", VStr "zelle_payment");
                 ("amount", VFloat amount);
                 ("counterparty_alias", VStr alias);
                 ("status", VStr status) ]
    /\ base_fields day_str "payments" b
    /\ magnitude_between 5 500 amount
    /\ In alias ["+1-202-555-0101"; "friend@example.com"; "$roommate"]
    /\ In status payment_statuses.

Definition payments_fields (day_str : string) (rec : record) : Prop :=
  card_fields day_str rec \/ ach_fields day_str rec
  \/ wire_fields day_str rec \/ zelle_fields day_str rec.

Definition billing_statuses : list string :=
  ["open"; "paid"; "overdue"; "refunded"].

(** A billing record: the invoice is issued on the day, falls due 7, 14 or
    30 days later at the same time of the day, and is paid in part or in
    full. *)
Definition billing_fields (day_str : string) (rec : record) : Prop :=
  exists b t issued due term u event_type status amt paid amount_due
         tax_rate line_count,
    rec = b ++ [ ("event_type", VStr event_type);
                 ("invoice_id", VStr ("INV-" +++ prefix_slice 8 u));
                 ("invoice_date", VStr (isoformat issued +++ "Z"));
                 ("due_date", VStr (isoformat due +++ "Z"));
                 ("status", VStr status);
                 ("amount",
                  VFloat (if negb (String.eqb event_type "refund_issued")
                          then amt else (- paid)%Q));
                 ("amount_due", VFloat amount_due);
                 ("amount_paid", VFloat paid);
                 ("tax_rate", VFloat tax_rate);
                 ("line_count", VInt line_count) ]
    /\ base_fields day_str "billing" b
    /\ In event_type ["invoice_issued"; "invoice_paid"; "refund_issued"]
    /\ strptime day_str = Ok t /\ on_day t issued
    /\ In term [7; 14; 30]
    /\ wf_datetime due /\ toordinal due = toordinal issued + term
    /\ hour due = hour issued /\ minute due = minute issued
    /\ second due = second issued
    /\ In status billing_statuses
    /\ (20 <= amt /\ amt <= 2000)%Q
    /\ (0 <= paid /\ paid <= amt)%Q
    /\ (status = "paid" \/ status = "refunded" -> paid = amt)
    /\ (0 <= amount_due /\ amount_due <= amt)%Q
    /\ (status = "paid" \/ status = "refunded" -> amount_due = 0%Q)
    /\ In tax_rate [0; 5 # 100; 7 # 100; 1 # 10]%Q
    /\ 1 <= line_count <= 5.

Definition crm_fields (day_str : string) (rec : record) : Prop :=
  exists b event_type kyc_status risk pep_flag ip3 ip4 country,
    rec = b ++ [ ("event_type", VStr event_type);
                 ("amount", VFloat 0);
                 ("kyc_status", VStr kyc_status);
                 ("risk_score", VInt risk);
                 ("pep_flag", VBool pep_flag);
                 ("ip", VStr ("192.168." +++ str_int ip3 +++ "."
                              +++ str_int ip4));
                 ("country", VStr country) ]
    /\ base_fields day_str "crm" b
    /\ In event_type CRM_EVENTS
    /\ In kyc_status ["pending"; "verified"; "refresh_due"; "blocked"]
    /\ 1 <= risk <= 99
    /\ 0 <= ip3 <= 255 /\ 0 <= ip4 <= 255
    /\ In country COUNTRIES.

Definition erp_fields (day_str : string) (rec : record) : Prop :=
  exists b journal acct amt debit credit entity posted_by,
    rec = b ++ [ ("event_type", VStr "gl_posting");
                 ("journal_type", VStr journal);
                 ("gl_account", VStr acct);
                 ("debit", VFloat debit);
                 ("credit", VFloat credit);
                 ("amount", VFloat amt);
                 ("entity", VStr entity);
                 ("posted_by", VStr posted_by) ]
    /\ base_fields day_str "erp" b
    /\ In journal ERP_JOURNALS /\ In acct GL_ACCOUNTS
    /\ (5 <= amt /\ amt <= 5000)%Q
    /\ ((debit = amt /\ credit = 0%Q) \/ (debit = 0%Q /\ credit = amt))
    /\ In entity ["HQ"; "NYC"; "SFO"; "LON"]
    /\ In posted_by ["batch_job"; "integration"; "analyst"].

(** A support record: the event type tells whether the ticket is closed
    ([resolved] or [closed]) or still open. *)
Definition support_fields (day_str : string) (rec : record) : Prop :=
  exists b event_type u cat pri status channel,
    rec = b ++ [ ("event_type", VStr event_type);
                 ("amount", VFloat 0);
                 ("ticket_id", VStr ("TCK-" +++ prefix_slice 8 u));
                 ("category", VStr cat);
                 ("priority", VStr pri);
                 ("status", VStr status);
                 ("channel", VStr channel) ]
    /\ base_fields day_str "support" b
    /\ (((status = "resolved" \/ status = "closed")
         /\ event_type = "ticket_closed")
        \/ ((status = "open" \/ status = "in_progress")
            /\ event_type = "ticket_opened"))
    /\ In cat SUPPORT_CATEGORIES /\ In pri SUPPORT_PRIORITIES
    /\ In channel ["phone"; "email"; "in_app"; "chat"].

(** [t.date().isoformat()]: the day as YYYY-MM-DD, the year on four
    digits. *)
Definition iso_date (t : datetime) : string :=
  zfill_int 4 (year t) +++ "-" +++ zfill_int 2 (month t) +++ "-"
  +++ zfill_int 2 (day t).

(** A record stamped with the source and a time of the day of its
    partition. *)
Definition stamped (day_str source : string) (rec : record) : Prop :=
  exists t ts,
    strptime day_str = Ok t /\ on_day t ts
    /\ dict_get "source_system" rec = Some (VStr source)
    /\ dict_get "timestamp" rec = Some (VStr (isoformat ts +++ "Z"))
    /\ prefix_slice 10 (isoformat ts +++ "Z") = iso_date t.

(** [f"Wrote {count} events -> {fp}"] for the file [i] of a partition. *)
Definition wrote_line (base : Path) (i count : Z) : string :=
  "Wrote " +++ str_int count +++ " events -> "
  +++ path_str (base // part_name i).

(** What every record of a factory has: the two fields the writer would
    backfill, and the stamp of its partition. *)
Definition has_common (day_str source : string) (rec : record) : Prop :=
  dict_mem "amount" rec = true /\ dict_mem "event_type" rec = true
  /\ stamped day_str source rec.

(** The directory of the partition of a source, [d] days before the day with
    ordinal [n]. *)
Definition partition_dir (out_dir : Path) (n d : Z) (source : string) : Path :=
  out_dir ++ ["day=" +++ day_string (n - d); "source=" +++ source].

(** The state of the partitions of a run of [N] days back from the day with
    ordinal [n]: a partition that has been written holds the share of its
    source of the [T] events of a day, and one that has not holds no
    file. *)
Definition partitions_hold (out_dir : Path) (n N T : Z)
    (written : Z -> string -> Prop) (fs : list (Path * list record)) : Prop :=
  forall d idx source,
    0 <= d < N -> In (idx, source) (enumerate SOURCES) ->
    (written d source ->
     lines_in (partition_dir out_dir n d source) fs = allocation T idx)
    /\ (~ written d source ->
        files_in (partition_dir out_dir n d source) fs = []).

(** ** More concrete inputs *)

Module Runs.

Import Scripted.

(** The draws that lead [gen_payments] to a wire transfer and to a Zelle
    payment. *)
Definition wire_draws : Rand (list Z) (list string) :=
  {| rng := [100; 3; 0; 450; 0; 500; 1; 7; 8; 9; 10; 2; 30; 31];
     entropy := ["abcdefgh-1234"] |}.

Definition zelle_draws : Rand (list Z) (list string) :=
  {| rng := [100; 3; 0; 960; 0; 500; 1; 2]; entropy := ["abcdefgh-1234"] |}.

(** Some draws, for a helper or a factory that takes any. *)
Definition some_draws : Rand (list Z) (list string) :=
  {| rng := [4711; 3; 0; 2; 1; 500; 1; 2; 1; 17; 18; 19; 20];
     entropy := ["0f8fad5b-d9cb-469f-a165-70867728950e"] |}.

(** A run without days: the end day does not parse, no event fits a
    file. *)
Definition no_days_args : Args :=
  {| arg_out := "data/raw"; arg_day := "yesterday"; arg_days := 0;
     arg_total_events := 10; arg_events_per_file := 0 |}.

Definition bad_day_args : Args :=
  {| arg_out := "data/raw"; arg_day := "2024-02-30"; arg_days := 1;
     arg_total_events := 10; arg_events_per_file := 60000 |}.

Definition zero_per_file_args : Args :=
  {| arg_out := "data/raw"; arg_day := "2024-01-03"; arg_days := 1;
     arg_total_events := 10; arg_events_per_file := 0 |}.

(** Twelve events a day on two days, at most two per file. *)
Definition small_files_args : Args :=
  {| arg_out := "data/raw"; arg_day := "2024-03-01"; arg_days := 2;
     arg_total_events := 12; arg_events_per_file := 2 |}.

End Runs.
(** *** The float quotient gives the exact ceiling below [2^53] *)

Section TrueDivCeil.

Lemma round_half_even_bounds num den :
  0 < den -> 0 <= num ->
  num / den <= round_half_even num den <= num / den + 1.
Proof.
  intros Hd Hn. unfold round_half_even.
  destruct (2 * (num mod den) <? den); [lia|].
  destruct (den <? 2 * (num mod den)); [lia|].
  destruct (Z.even (num / den)); lia.
Qed.

Lemma round_half_even_exact num den :
  0 < den -> num mod den = 0 -> round_half_even num den = num / den.
Proof.
  intros Hd Hr. unfold round_half_even. rewrite Hr.
  destruct (2 * 0 <? den) eqn:E; [reflexivity|].
  apply Z.ltb_ge in E. lia.
Qed.

Lemma round_half_even_up num den :
  0 < den -> den < 2 * (num mod den) ->
  round_half_even num den = num / den + 1.
Proof.
  intros Hd Hr. unfold round_half_even.
  destruct (2 * (num mod den) <? den) eqn:E.
  - apply Z.ltb_lt in E. lia.
  - destruct (den <? 2 * (num mod den)) eqn:E2; [reflexivity|].
    apply Z.ltb_ge in E2. lia.
Qed.

Lemma neg_div_ceil m P c :
  0 < P -> (c - 1) * P < m <= c * P -> - ((- m) / P) = c.
Proof.
  intros HP [Hlo Hhi].
  assert (E : (- m) / P = - c).
  { symmetry. apply Z.div_unique with (r := c * P - m); lia. }
  lia.
Qed.

Lemma ceil_div_spec a b :
  0 < b -> (ceil_div a b - 1) * b < a <= ceil_div a b * b.
Proof.
  intros Hb. unfold ceil_div.
  pose proof (Z.div_mod (a + b - 1) b ltac:(lia)) as E.
  pose proof (Z.mod_pos_bound (a + b - 1) b Hb) as R.
  nia.
Qed.

Lemma ceil_div_unique a b c :
  0 < b -> (c - 1) * b < a <= c * b -> ceil_div a b = c.
Proof.
  intros Hb [Hlo Hhi]. unfold ceil_div.
  symmetry. apply Z.div_unique with (r := a + b - 1 - b * c); lia.
Qed.

Lemma quot_exponent_ge a b :
  0 < b <= a ->
  0 <= quot_exponent a b <= Z.log2 a /\ b * 2 ^ quot_exponent a b <= a.
Proof.
  intros [Hb Hab]. unfold quot_exponent.
  pose proof (Z.log2_le_mono b a Hab) as Hmono.
  pose proof (Z.log2_nonneg b) as Hlb.
  set (d := Z.log2 a - Z.log2 b).
  assert (Hd : 0 <= d) by (unfold d; lia).
  apply Z.leb_le in Hd as Hd'. rewrite Hd'.
  destruct (a <? b * 2 ^ d) eqn:E.
  - apply Z.ltb_lt in E.
    assert (d <> 0) by (intros ->; rewrite Z.pow_0_r in E; lia).
    split; [unfold d in *; lia|].
    destruct (Z.log2_spec b Hb) as [_ Hbhi].
    destruct (Z.log2_spec a ltac:(lia)) as [Halo _].
    assert (Hp : 2 ^ Z.succ (Z.log2 b) * 2 ^ (d - 1) = 2 ^ Z.log2 a).
    { rewrite <- Z.pow_add_r by lia. f_equal. unfold d. lia. }
    assert (0 < 2 ^ (d - 1)) by (apply Z.pow_pos_nonneg; lia).
    nia.
  - apply Z.ltb_ge in E. split; [unfold d in *; lia | exact E].
Qed.

Lemma quot_exponent_lt a b :
  0 < a < b -> quot_exponent a b < 0.
Proof.
  intros [Ha Hab]. unfold quot_exponent.
  pose proof (Z.log2_le_mono a b ltac:(lia)) as Hmono.
  set (d := Z.log2 a - Z.log2 b).
  destruct (0 <=? d) eqn:Hd.
  - apply Z.leb_le in Hd. assert (d = 0) as -> by (unfold d in *; lia).
    rewrite Z.pow_0_r, Z.mul_1_r.
    apply Z.ltb_lt in Hab. rewrite Hab. lia.
  - apply Z.leb_gt in Hd. destruct (a * 2 ^ (- d) <? b); lia.
Qed.

(** For [1 <= n < 2^53] the writer's [max(1, math.ceil(n / e))] is the
    exact integer ceiling of the quotient. *)
Lemma true_div_ceil_small n e :
  0 < n < 2 ^ 53 -> 0 < e ->
  exists x, true_div n e = Ok x /\ Z.max 1 (math_ceil x) = ceil_div n e.
Proof.
  intros [Hn Hn53] He. unfold true_div.
  replace (e =? 0) with false by (symmetry; apply Z.eqb_neq; lia).
  replace (n =? 0) with false by (symmetry; apply Z.eqb_neq; lia).
  rewrite (Z.abs_eq n), (Z.abs_eq e) by lia.
  rewrite (Z.sgn_pos n), (Z.sgn_pos e) by lia.
  unfold true_div_pos.
  destruct (Z_lt_le_dec n e) as [Hlt | Hge].
  - (* quotient below one: the float is in [0, 1] *)
    pose proof (quot_exponent_lt n e (conj Hn Hlt)) as Hq.
    set (k := Z.max (quot_exponent n e - 52) (-1074)).
    assert (Hk : k < 0) by (unfold k; lia).
    replace (0 <=? k) with false by (symmetry; apply Z.leb_gt; lia).
    cbn [andb]. eexists; split; [reflexivity|].
    cbn [mant expo]. unfold math_ceil. cbn [mant expo].
    replace (0 <=? k) with false by (symmetry; apply Z.leb_gt; lia).
    set (P := 2 ^ (- k)).
    assert (HP : 0 < P) by (apply Z.pow_pos_nonneg; lia).
    pose proof (round_half_even_bounds (n * P) e He ltac:(nia)) as [Hlo Hhi].
    assert (Hfl : 0 <= n * P / e < P).
    { split; [apply Z.div_pos; nia|].
      apply Z.div_lt_upper_bound; nia. }
    set (m := round_half_even (n * P) e) in *.
    rewrite (ceil_div_unique n e 1) by lia.
    replace (1 * 1 * m) with m by lia.
    assert (Hc : 0 <= - (- m / P) <= 1).
    { destruct (Z.eq_dec m 0) as [-> | Hm0].
      - rewrite Z.opp_0, Z.div_0_l by lia. lia.
      - rewrite (neg_div_ceil m P 1 HP); lia. }
    lia.
  - (* quotient at least one: a normal float with exponent in [0, 52] *)
    pose proof (quot_exponent_ge n e (conj He Hge)) as [[Hq0 Hq1] Hq2].
    pose proof (proj1 (Z.log2_lt_pow2 n 53 Hn) Hn53) as Hl.
    set (ex := quot_exponent n e) in *.
    replace (Z.max (ex - 52) (-1074)) with (ex - 52) by lia.
    pose proof (ceil_div_spec n e He) as [Hclo Hchi].
    set (c := ceil_div n e) in *.
    assert (Hc1 : 1 <= c) by nia.
    destruct (Z.eq_dec ex 52) as [E52 | N52].
    + rewrite E52 in *. cbn [Z.sub Z.leb Z.compare Z.pos_sub Z.opp].
      change (52 - 52) with 0. cbn [Z.leb Z.compare].
      rewrite Z.pow_0_r, Z.mul_1_r.
      assert (e = 1) as -> by (change (2 ^ 53) with (2 * 2 ^ 52) in Hn53; nia).
      rewrite round_half_even_exact by (try lia; apply Z.mod_1_r).
      rewrite Z.div_1_r, Z.mul_1_r.
      replace (2 ^ 1024 <=? n) with false.
      2:{ symmetry. apply Z.leb_gt.
          apply Z.lt_trans with (2 ^ 53); [lia | reflexivity]. }
      cbn [andb]. eexists; split; [reflexivity|].
      unfold math_ceil. cbn [mant expo Z.leb Z.compare].
      rewrite Z.pow_0_r. nia.
    + set (k := ex - 52).
      assert (Hk : k < 0) by (unfold k; lia).
      replace (0 <=? k) with false by (symmetry; apply Z.leb_gt; lia).
      cbn [andb]. eexists; split; [reflexivity|].
      unfold math_ceil. cbn [mant expo].
      replace (0 <=? k) with false by (symmetry; apply Z.leb_gt; lia).
      set (P := 2 ^ (- k)).
      assert (HP : 0 < P) by (apply Z.pow_pos_nonneg; lia).
      assert (HPe : 2 ^ ex * P = 2 ^ 52).
      { unfold P, k. rewrite <- Z.pow_add_r by lia. f_equal. lia. }
      assert (Hex : 0 < 2 ^ ex) by (apply Z.pow_pos_nonneg; lia).
      assert (He2 : e < 2 * P).
      { change (2 ^ 53) with (2 * 2 ^ 52) in Hn53.
        assert (e * 2 ^ ex < 2 * P * 2 ^ ex) by nia.
        nia. }
      pose proof (Z.div_mod (n * P) e ltac:(lia)) as Hdm.
      pose proof (Z.mod_pos_bound (n * P) e He) as Hr.
      pose proof (round_half_even_bounds (n * P) e He ltac:(nia)) as [Hlo Hhi].
      set (q := n * P / e) in *. set (r := (n * P) mod e) in *.
      assert (HnP : (c - 1) * P * e + P <= n * P) by nia.
      assert (HnP' : n * P <= c * P * e) by nia.
      assert (Hm : (c - 1) * P < round_half_even (n * P) e <= c * P).
      { split.
        - destruct (Z_lt_le_dec ((c - 1) * P) q) as [Hq | Hq]; [lia|].
          assert (q = (c - 1) * P).
          { destruct (Z.eq_dec q ((c - 1) * P)); [assumption|].
            assert (q + 1 <= (c - 1) * P) by lia.
            assert (e * (q + 1) <= e * ((c - 1) * P)) by (apply Z.mul_le_mono_nonneg_l; lia).
            nia. }
          assert (P <= r) by nia.
          rewrite round_half_even_up by (fold r; lia). fold q. lia.
        - destruct (Z.eq_dec r 0) as [Hr0 | Hr0].
          + rewrite round_half_even_exact by (try lia; exact Hr0). fold q.
            assert (e * q <= e * (c * P)) by nia.
            apply Z.mul_le_mono_pos_l with e; lia.
          + assert (q < c * P).
            { apply Z.mul_lt_mono_pos_l with e; [lia|]. nia. }
            lia. }
      replace (1 * 1 * round_half_even (n * P) e)
        with (round_half_even (n * P) e) by lia.
      rewrite (neg_div_ceil _ P c HP Hm). lia.
Qed.

End TrueDivCeil.


(** * Reasoning about the generator *)

(** ** Rules for the outcomes of monadic code *)

Section Triples.

Context {S : Type}.

Local Abbreviation triple := (@triple S _) (only parsing).

Lemma triple_ret {A : Type} E (a : A) (Q : A -> Prop) :
  Q a -> triple E (ret a) Q.
Proof. intros H s. exact H. Qed.

Lemma triple_bind {A B : Type} E (m : M S A) (f : A -> M S B)
    (Q : A -> Prop) (R : B -> Prop) :
  triple E m Q -> (forall a, Q a -> triple E (f a) R) ->
  triple E (bind m f) R.
Proof.
  intros Hm Hf s. unfold bind. specialize (Hm s).
  destruct (m s) as [[a s'] | e]; [apply Hf; exact Hm | exact Hm].
Qed.

Lemma triple_weaken {A : Type} E (m : M S A) (Q Q' : A -> Prop) :
  triple E m Q -> (forall a, Q a -> Q' a) -> triple E m Q'.
Proof.
  intros Hm HQ s. specialize (Hm s).
  destruct (m s) as [[a s'] | e]; auto.
Qed.

Lemma triple_any {A : Type} E (m : M S A) (Q : A -> Prop) :
  triple E m Q -> triple E m (fun _ => True).
Proof. intros H. eapply triple_weaken; [exact H|]. intros; exact I. Qed.

Lemma triple_raise {A : Type} (E : Prop) e (Q : A -> Prop) :
  E -> triple E (raise e) Q.
Proof. intros H s. exact H. Qed.

Lemma triple_lift_ok {A : Type} E (a : A) (Q : A -> Prop) :
  Q a -> triple E (lift (Ok a)) Q.
Proof. intros H s. exact H. Qed.

Lemma triple_lift {A : Type} (E : Prop) (r : result A) (Q : A -> Prop) :
  (forall a, r = Ok a -> Q a) -> (forall e, r = Err e -> E) ->
  triple E (lift r) Q.
Proof.
  intros Hok Herr s. unfold lift. destruct r as [a | e]; eauto.
Qed.

Lemma triple_replicateM {A : Type} E (m : M S A) (Q : A -> Prop) n :
  triple E m Q ->
  triple E (replicateM n m) (fun xs => length xs = n /\ Forall Q xs).
Proof.
  intros Hm. induction n as [|n IH]; cbn [replicateM].
  - apply triple_ret. split; [reflexivity | constructor].
  - eapply triple_bind; [exact Hm|]. intros a Ha.
    eapply triple_bind; [exact IH|]. intros xs [Hl Hxs].
    apply triple_ret. split; [cbn; congruence | constructor; assumption].
Qed.

End Triples.

Section RandomTriples.

Context {G U : Type} `{RandomG : Random G} `{UuidU : UuidSource U}.

Local Abbreviation triple := (@triple (Rand G U) _) (only parsing).

Lemma triple_with_rng {A : Type} E (f : G -> A * G) (Q : A -> Prop) :
  (forall g, Q (fst (f g))) -> triple E (with_rng f) Q.
Proof.
  intros H r. unfold with_rng. specialize (H (rng r)).
  destruct (f (rng r)) as [a g]. exact H.
Qed.

Lemma triple_with_entropy {A : Type} E (f : U -> A * U) (Q : A -> Prop) :
  (forall u, Q (fst (f u))) -> triple E (with_entropy f) Q.
Proof.
  intros H r. unfold with_entropy. specialize (H (entropy r)).
  destruct (f (entropy r)) as [a u]. exact H.
Qed.

(** *** The [random] module *)

Lemma triple_py_random E :
  triple E py_random (fun u => (0 <= u /\ u < 1)%Q).
Proof. apply triple_with_rng. intros g. apply random_unit. Qed.

Lemma triple_randint E a b :
  a <= b -> triple E (randint a b) (fun x => a <= x <= b).
Proof.
  intros Hab. unfold randint.
  replace (b - a + 1 <=? 0) with false by (symmetry; apply Z.leb_gt; lia).
  eapply triple_bind.
  - apply triple_with_rng with (Q := fun x => 0 <= x < b - a + 1).
    intros g. apply randbelow_range. lia.
  - intros x Hx. cbv beta in Hx. apply triple_ret. lia.
Qed.

Lemma triple_choice {A : Type} E (xs : list A) :
  xs <> [] -> triple E (choice xs) (fun x => In x xs).
Proof.
  intros Hne. unfold choice. destruct xs as [|x0 xs']; [congruence|].
  remember (x0 :: xs') as xs eqn:Exs.
  assert (Hlen : 0 < Z.of_nat (length xs)) by (subst xs; cbn [length]; lia).
  eapply triple_bind.
  - apply triple_with_rng
      with (Q := fun i => 0 <= i < Z.of_nat (length xs)).
    intros g. apply randbelow_range. exact Hlen.
  - intros i Hi. cbv beta in Hi.
    destruct (nth_error xs (Z.to_nat i)) as [x|] eqn:E1.
    + apply triple_ret. eapply nth_error_In; eassumption.
    + apply nth_error_None in E1. lia.
Qed.

Lemma bisect_le cum x hi : (bisect cum x hi <= hi)%nat.
Proof.
  revert cum. induction hi as [|hi IH]; intros [|c cum']; cbn; try lia.
  destruct (Qle_bool (inject_Z c) x); [specialize (IH cum')|]; lia.
Qed.

Lemma triple_choices1 {A : Type} E (population : list A) weights :
  length (accumulate 0 weights) = length population ->
  0 < last (accumulate 0 weights) 0 ->
  triple E (choices1 population weights) (fun x => In x population).
Proof.
  intros Hlen Htot. unfold choices1.
  rewrite Hlen, Nat.eqb_refl. cbn [negb].
  destruct (accumulate 0 weights) as [|c cum'] eqn:Ecum.
  { cbn in Htot. lia. }
  replace (last (c :: cum') 0 <=? 0) with false
    by (symmetry; apply Z.leb_gt; lia).
  eapply triple_bind; [apply triple_py_random|]. intros u _.
  match goal with |- context [nth_error population (bisect ?cum ?x ?hi)] =>
    pose proof (bisect_le cum x hi) as Hb;
    destruct (nth_error population (bisect cum x hi)) as [y|] eqn:E1
  end.
  - apply triple_ret. eapply nth_error_In; eassumption.
  - apply nth_error_None in E1. cbn [length] in Hlen. lia.
Qed.

Lemma triple_uniform E a b :
  (a <= b)%Q -> triple E (uniform a b) (fun x => (a <= x)%Q).
Proof.
  intros Hab. unfold uniform.
  eapply triple_bind; [apply triple_py_random|]. intros u [Hu0 Hu1].
  apply triple_ret.
  assert (H : (0 <= (b - a) * u)%Q).
  { apply Qmult_le_0_compat; [|exact Hu0].
    unfold Qminus. rewrite <- (Qplus_opp_r a).
    apply Qplus_le_compat; [exact Hab | apply Qle_refl]. }
  rewrite <- (Qplus_0_r a) at 1.
  apply Qplus_le_compat; [apply Qle_refl | exact H].
Qed.

Lemma triple_uuid4_str E : triple E uuid4_str (fun _ => True).
Proof. apply triple_with_entropy. intros; exact I. Qed.

End RandomTriples.

(** ** The calendar *)

Section Calendar.

Lemma in_range_iff n z : In z (range n) <-> 0 <= z < n.
Proof.
  unfold range. rewrite in_map_iff. split.
  - intros [k [<- Hk]]. apply in_seq in Hk. lia.
  - intros Hz. exists (Z.to_nat z). split; [lia|]. apply in_seq. lia.
Qed.

Lemma forallb_range f n z :
  forallb f (range n) = true -> 0 <= z < n -> f z = true.
Proof.
  intros Hall Hz. rewrite forallb_forall in Hall.
  apply Hall, in_range_iff, Hz.
Qed.

Lemma month_day_checked leap :
  forallb (month_day_check leap) (range 365) = true.
Proof. destruct leap; vm_compute; reflexivity. Qed.

Lemma month_day_spec leap n m d :
  0 <= n < 365 -> month_day leap n = (m, d) ->
  1 <= m <= 12
  /\ 1 <= d <= DAYS_IN_MONTH m + (if (m =? 2) && leap then 1 else 0)
  /\ DAYS_BEFORE_MONTH m + (if (2 <? m) && leap then 1 else 0) + d = n + 1.
Proof.
  intros Hn Hmd.
  pose proof (forallb_range _ _ n (month_day_checked leap) Hn) as Hc.
  unfold month_day_check in Hc. rewrite Hmd in Hc.
  repeat (apply andb_prop in Hc; destruct Hc as [Hc ?]).
  repeat match goal with
         | H : (_ <=? _) = true |- _ => apply Z.leb_le in H
         | H : (_ =? _) = true |- _ => apply Z.eqb_eq in H
         end.
  repeat split; assumption.
Qed.

Lemma is_leap_decompose n400 n100 n4 n1 :
  0 <= n100 <= 3 -> 0 <= n4 <= 24 -> 0 <= n1 <= 3 ->
  is_leap (n400 * 400 + 1 + n100 * 100 + n4 * 4 + n1)
  = (n1 =? 3) && (negb (n4 =? 24) || (n100 =? 3)).
Proof.
  intros H100 H4 H1. unfold is_leap.
  set (y := n400 * 400 + 1 + n100 * 100 + n4 * 4 + n1).
  assert (E4 : y mod 4 = (n1 + 1) mod 4).
  { unfold y. symmetry.
    apply Z.mod_unique with (q := n400 * 100 + n100 * 25 + n4 + (n1 + 1) / 4).
    - left. apply Z.mod_pos_bound. lia.
    - pose proof (Z.div_mod (n1 + 1) 4 ltac:(lia)). lia. }
  assert (E100 : y mod 100 = (n4 * 4 + n1 + 1) mod 100).
  { unfold y. symmetry.
    apply Z.mod_unique with (q := n400 * 4 + n100 + (n4 * 4 + n1 + 1) / 100).
    - left. apply Z.mod_pos_bound. lia.
    - pose proof (Z.div_mod (n4 * 4 + n1 + 1) 100 ltac:(lia)). lia. }
  assert (E400 : y mod 400 = (n100 * 100 + n4 * 4 + n1 + 1) mod 400).
  { unfold y. symmetry.
    apply Z.mod_unique with (q := n400 + (n100 * 100 + n4 * 4 + n1 + 1) / 400).
    - left. apply Z.mod_pos_bound. lia.
    - pose proof (Z.div_mod (n100 * 100 + n4 * 4 + n1 + 1) 400 ltac:(lia)). lia. }
  rewrite E4, E100, E400.
  assert (C1 : n1 = 0 \/ n1 = 1 \/ n1 = 2 \/ n1 = 3) by lia.
  destruct (Z.eq_dec n1 3) as [-> | N1].
  - rewrite Z.eqb_refl. change ((3 + 1) mod 4) with 0. cbn [Z.eqb andb].
    destruct (Z.eq_dec n4 24) as [-> | N4].
    + rewrite Z.eqb_refl. change ((24 * 4 + 3 + 1) mod 100) with 0.
      cbn [Z.eqb negb orb].
      destruct (Z.eq_dec n100 3) as [-> | N100].
      * reflexivity.
      * replace (n100 =? 3) with false by (symmetry; apply Z.eqb_neq; lia).
        rewrite Z.mod_small by lia.
        apply Z.eqb_neq. lia.
    + replace (n4 =? 24) with false by (symmetry; apply Z.eqb_neq; lia).
      rewrite (Z.mod_small (n4 * 4 + 3 + 1) 100) by lia.
      replace (n4 * 4 + 3 + 1 =? 0) with false
        by (symmetry; apply Z.eqb_neq; lia).
      reflexivity.
  - replace (n1 =? 3) with false by (symmetry; apply Z.eqb_neq; lia).
    rewrite (Z.mod_small (n1 + 1) 4) by lia.
    replace (n1 + 1 =? 0) with false by (symmetry; apply Z.eqb_neq; lia).
    reflexivity.
Qed.

Lemma days_before_year_decompose n400 n100 n4 n1 :
  0 <= n100 <= 3 -> 0 <= n4 <= 24 -> 0 <= n1 <= 3 ->
  days_before_year (n400 * 400 + 1 + n100 * 100 + n4 * 4 + n1)
  = n400 * DI400Y + n100 * DI100Y + n4 * DI4Y + n1 * 365.
Proof.
  intros H100 H4 H1. unfold days_before_year, DI400Y, DI100Y, DI4Y.
  set (y := n400 * 400 + 1 + n100 * 100 + n4 * 4 + n1 - 1).
  assert (E4 : y / 4 = n400 * 100 + n100 * 25 + n4).
  { symmetry. apply Z.div_unique with (r := n1); unfold y; lia. }
  assert (E100 : y / 100 = n400 * 4 + n100).
  { symmetry. apply Z.div_unique with (r := n4 * 4 + n1); unfold y; lia. }
  assert (E400 : y / 400 = n400).
  { symmetry.
    apply Z.div_unique with (r := n100 * 100 + n4 * 4 + n1); unfold y; lia. }
  rewrite E4, E100, E400. unfold y. lia.
Qed.

Lemma days_in_month_alt y m :
  days_in_month y m
  = DAYS_IN_MONTH m + (if (m =? 2) && is_leap y then 1 else 0).
Proof.
  unfold days_in_month. destruct (m =? 2) eqn:E; cbn [andb]; [|lia].
  apply Z.eqb_eq in E. subst m. destruct (is_leap y); reflexivity.
Qed.

(** [date.fromordinal] inverts [toordinal], and yields a valid date. *)
Lemma ord2ymd_spec n y m d :
  1 <= n <= MAXORDINAL -> ord2ymd n = (y, m, d) ->
  valid_date y m d = true /\ ymd2ord y m d = n.
Proof.
  unfold MAXORDINAL. intros Hn. unfold ord2ymd.
  pose proof (Z.div_mod (n - 1) DI400Y ltac:(discriminate)) as E400.
  pose proof (Z.mod_pos_bound (n - 1) DI400Y ltac:(reflexivity)) as B400.
  set (n400 := (n - 1) / DI400Y) in *. set (r400 := (n - 1) mod DI400Y) in *.
  pose proof (Z.div_mod r400 DI100Y ltac:(discriminate)) as E100.
  pose proof (Z.mod_pos_bound r400 DI100Y ltac:(reflexivity)) as B100.
  set (n100 := r400 / DI100Y) in *. set (r100 := r400 mod DI100Y) in *.
  pose proof (Z.div_mod r100 DI4Y ltac:(discriminate)) as E4.
  pose proof (Z.mod_pos_bound r100 DI4Y ltac:(reflexivity)) as B4.
  set (n4 := r100 / DI4Y) in *. set (r4 := r100 mod DI4Y) in *.
  pose proof (Z.div_mod r4 365 ltac:(discriminate)) as E1.
  pose proof (Z.mod_pos_bound r4 365 ltac:(reflexivity)) as B1.
  set (n1 := r4 / 365) in *. set (r := r4 mod 365) in *.
  unfold DI400Y, DI100Y, DI4Y in E400, B400, E100, B100, E4, B4.
  assert (H400 : 0 <= n400 <= 24) by lia.
  assert (H100 : 0 <= n100 <= 4) by lia.
  assert (H4 : 0 <= n4 <= 24) by lia.
  assert (H1 : 0 <= n1 <= 4) by lia.
  destruct ((n1 =? 4) || (n100 =? 4)) eqn:Elast.
  - (* the last day of a leap year *)
    intros [= <- <- <-].
    assert (Hy : exists a b,
               n400 * 400 + 1 + n100 * 100 + n4 * 4 + n1 - 1
               = n400 * 400 + 1 + a * 100 + b * 4 + 3
               /\ 0 <= a <= 3 /\ 0 <= b <= 24
               /\ (negb (b =? 24) || (a =? 3)) = true
               /\ n = n400 * DI400Y + a * DI100Y + b * DI4Y + 3 * 365 + 366).
    { unfold DI400Y, DI100Y, DI4Y.
      apply orb_prop in Elast. destruct Elast as [En1 | En100].
      - apply Z.eqb_eq in En1.
        assert (n100 <= 3).
        { destruct (Z.eq_dec n100 4); [|lia]. exfalso. lia. }
        exists n100, n4. 
        replace (n4 =? 24) with false by (symmetry; apply Z.eqb_neq; lia).
        repeat split; try lia.
      - apply Z.eqb_eq in En100.
        exists 3, 24. rewrite Z.eqb_refl, orb_true_r.
        repeat split; try lia. }
    destruct Hy as (a & b & -> & Ha & Hb & Hleap & Hnval).
    unfold valid_date, ymd2ord, days_before_month.
    rewrite days_in_month_alt.
    rewrite is_leap_decompose, days_before_year_decompose by lia.
    rewrite Z.eqb_refl, Hleap. cbn [andb Z.ltb Z.eqb Z.compare Pos.compare
      Pos.compare_cont Pos.eqb DAYS_BEFORE_MONTH DAYS_IN_MONTH].
    split; [|lia].
    unfold DI400Y, DI100Y, DI4Y in Hnval.
    repeat (apply andb_true_intro; split); apply Z.leb_le; lia.
  - apply orb_false_elim in Elast. destruct Elast as [En1 En100].
    apply Z.eqb_neq in En1, En100.
    assert (H100' : 0 <= n100 <= 3) by lia.
    assert (H1' : 0 <= n1 <= 3) by lia.
    rewrite <- (is_leap_decompose n400 n100 n4 n1) by lia.
    set (yy := n400 * 400 + 1 + n100 * 100 + n4 * 4 + n1) in *.
    destruct (month_day (is_leap yy) r) as [mm dd] eqn:Emd.
    intros [= <- <- <-].
    destruct (month_day_spec _ _ _ _ B1 Emd) as (Hm & Hd & Hsum).
    unfold valid_date, ymd2ord, days_before_month.
    rewrite days_in_month_alt.
    pose proof (days_before_year_decompose n400 n100 n4 n1 H100' H4 H1') as Hdby.
    fold yy in Hdby. rewrite Hdby.
    unfold DI400Y, DI100Y, DI4Y.
    split; [|lia].
    repeat (apply andb_true_intro; split); apply Z.leb_le; unfold yy in *; lia.
Qed.

Lemma ymd2ord_range y m d :
  valid_date y m d = true -> 1 <= ymd2ord y m d <= MAXORDINAL.
Proof.
  unfold valid_date. intros H.
  repeat (apply andb_prop in H; destruct H as [H ?]).
  repeat match goal with
         | H : (_ <=? _) = true |- _ => apply Z.leb_le in H
         end.
  rewrite days_in_month_alt in *.
  unfold ymd2ord, days_before_month, days_before_year, MAXORDINAL.
  pose proof (Z.div_mod (y - 1) 4 ltac:(discriminate)).
  pose proof (Z.mod_pos_bound (y - 1) 4 ltac:(reflexivity)).
  pose proof (Z.div_mod (y - 1) 100 ltac:(discriminate)).
  pose proof (Z.mod_pos_bound (y - 1) 100 ltac:(reflexivity)).
  pose proof (Z.div_mod (y - 1) 400 ltac:(discriminate)).
  pose proof (Z.mod_pos_bound (y - 1) 400 ltac:(reflexivity)).
  assert (Hleap : is_leap y = true -> y <= 9996).
  { unfold is_leap. intros Hl. apply andb_prop in Hl. destruct Hl as [Hl _].
    apply Z.eqb_eq in Hl.
    pose proof (Z.div_mod y 4 ltac:(discriminate)). lia. }
  assert (Hm : m = 1 \/ m = 2 \/ m = 3 \/ m = 4 \/ m = 5 \/ m = 6 \/ m = 7
               \/ m = 8 \/ m = 9 \/ m = 10 \/ m = 11 \/ m = 12) by lia.
  destruct (is_leap y);
    [specialize (Hleap eq_refl) | clear Hleap];
    repeat (destruct Hm as [-> | Hm]); try subst m;
    cbn [DAYS_BEFORE_MONTH DAYS_IN_MONTH Z.ltb Z.eqb Z.compare Pos.compare
         Pos.compare_cont Pos.eqb andb] in *; lia.
Qed.

End Calendar.

(** ** Decimal strings *)

Section Decimal.

Lemma digit_val_char k :
  0 <= k <= 9 -> digit_val (digit_char k) = Some k.
Proof.
  intros Hk.
  assert (C : k = 0 \/ k = 1 \/ k = 2 \/ k = 3 \/ k = 4 \/ k = 5 \/ k = 6
              \/ k = 7 \/ k = 8 \/ k = 9) by lia.
  repeat (destruct C as [-> | C]); try subst k; reflexivity.
Qed.

Lemma digit_char_not_slash k :
  0 <= k <= 9 -> Ascii.eqb (digit_char k) "/" = false.
Proof.
  intros Hk.
  assert (C : k = 0 \/ k = 1 \/ k = 2 \/ k = 3 \/ k = 4 \/ k = 5 \/ k = 6
              \/ k = 7 \/ k = 8 \/ k = 9) by lia.
  repeat (destruct C as [-> | C]); try subst k; reflexivity.
Qed.

Lemma contains_char_append c s t :
  contains_char c (s +++ t) = contains_char c s || contains_char c t.
Proof.
  induction s as [|a s IH]; cbn [String.append contains_char]; [reflexivity|].
  rewrite IH, orb_assoc. reflexivity.
Qed.

Lemma digits_fuel_no_slash fuel width z acc :
  contains_char "/" (digits_fuel fuel width z acc) = contains_char "/" acc.
Proof.
  revert width z acc. induction fuel as [|fuel IH]; intros width z acc;
    cbn [digits_fuel]; [reflexivity|].
  assert (Hstep : contains_char "/" (String (digit_char (z mod 10)) acc)
                  = contains_char "/" acc).
  { cbn [contains_char]. rewrite digit_char_not_slash; [reflexivity|].
    pose proof (Z.mod_pos_bound z 10 ltac:(reflexivity)). lia. }
  destruct ((z / 10 =? 0) && Nat.eqb (Nat.pred width) 0); [exact Hstep|].
  rewrite IH. exact Hstep.
Qed.

Lemma zfill_int_no_slash width z :
  contains_char "/" (zfill_int width z) = false.
Proof. unfold zfill_int. rewrite digits_fuel_no_slash. reflexivity. Qed.

Lemma digits_fuel_value fuel :
  forall width z acc,
    0 <= z -> (width <= fuel)%nat ->
    z < 2 ^ Z.of_nat (fuel - width) -> (0 < fuel)%nat ->
    exists n, 0 <= n /\ forall a,
      int_of_digits_acc (digits_fuel fuel width z acc) a
      = int_of_digits_acc acc (a * 10 ^ n + z).
Proof.
  induction fuel as [|fuel IH]; intros width z acc Hz Hw Hlt Hpos; [lia|].
  cbn [digits_fuel].
  pose proof (Z.div_mod z 10 ltac:(discriminate)) as Edm.
  pose proof (Z.mod_pos_bound z 10 ltac:(reflexivity)) as Bm.
  assert (Hq : 0 <= z / 10) by (apply Z.div_pos; lia).
  assert (Hhead : forall s a,
             int_of_digits_acc (String (digit_char (z mod 10)) s) a
             = int_of_digits_acc s (10 * a + z mod 10)).
  { intros s a. cbn [int_of_digits_acc]. rewrite digit_val_char by lia.
    reflexivity. }
  destruct ((z / 10 =? 0) && Nat.eqb (Nat.pred width) 0) eqn:Estop.
  - apply andb_prop in Estop. destruct Estop as [Ez _].
    apply Z.eqb_eq in Ez. exists 1. split; [lia|]. intros a. rewrite Hhead.
    f_equal. lia.
  - assert (Hfuel : (0 < fuel)%nat).
    { destruct fuel as [|fuel']; [|lia]. exfalso.
      assert (width = 0%nat \/ width = 1%nat) as [-> | ->] by lia;
        cbn in Hlt, Estop;
        (assert (z / 10 = 0) as Ez by lia); rewrite Ez in Estop;
        discriminate. }
    assert (Hlt' : z / 10 < 2 ^ Z.of_nat (fuel - Nat.pred width)).
    { assert (Hhalf : z / 10 <= z / 2).
      { apply Z.div_le_lower_bound; [lia|].
        pose proof (Z.div_mod z 2 ltac:(discriminate)).
        pose proof (Z.mod_pos_bound z 2 ltac:(reflexivity)). lia. }
      destruct width as [|width']; cbn [Nat.pred].
      - replace (Z.of_nat (S fuel - 0)) with (Z.succ (Z.of_nat (fuel - 0)))
          in Hlt by lia.
        rewrite Z.pow_succ_r in Hlt by lia.
        pose proof (Z.div_mod z 2 ltac:(discriminate)).
        pose proof (Z.mod_pos_bound z 2 ltac:(reflexivity)). lia.
      - replace (S fuel - S width')%nat with (fuel - width')%nat in Hlt by lia.
        assert (z / 2 <= z).
        { pose proof (Z.div_mod z 2 ltac:(discriminate)).
          pose proof (Z.mod_pos_bound z 2 ltac:(reflexivity)). lia. }
        lia. }
    destruct (IH (Nat.pred width) (z / 10)
                 (String (digit_char (z mod 10)) acc) Hq ltac:(lia) Hlt' Hfuel)
      as [n [Hn0 Hn]].
    exists (n + 1). split; [lia|]. intros a. rewrite Hn, Hhead. f_equal.
    rewrite Z.pow_add_r by lia. lia.
Qed.

(** The digits written by a zero-padded format read back as the number. *)
Lemma int_of_digits_zfill width z :
  0 <= z -> int_of_digits (zfill_int width z) = Some z.
Proof.
  intros Hz. unfold int_of_digits, zfill_int.
  destruct (digits_fuel_value (width + S (Z.to_nat (Z.log2 z))) width z EmptyString
              Hz ltac:(lia)) as [n [Hn0 Hn]].
  - replace (width + S (Z.to_nat (Z.log2 z)) - width)%nat
      with (S (Z.to_nat (Z.log2 z))) by lia.
    rewrite Nat2Z.inj_succ, Z2Nat.id by apply Z.log2_nonneg.
    destruct (Z.eq_dec z 0) as [-> | Hnz]; [reflexivity|].
    apply Z.log2_spec. lia.
  - lia.
  - rewrite Hn. cbn [int_of_digits_acc]. f_equal; lia.
Qed.

Lemma zfill_int_inj width z1 z2 :
  0 <= z1 -> 0 <= z2 -> zfill_int width z1 = zfill_int width z2 -> z1 = z2.
Proof.
  intros H1 H2 E.
  pose proof (int_of_digits_zfill width z1 H1) as E1.
  pose proof (int_of_digits_zfill width z2 H2) as E2.
  rewrite E in E1. congruence.
Qed.

Lemma zfill2_digits z :
  0 <= z <= 99 ->
  zfill_int 2 z
  = String (digit_char (z / 10)) (String (digit_char (z mod 10)) EmptyString).
Proof.
  intros Hz. unfold zfill_int.
  cbn [Nat.add digits_fuel Nat.pred Nat.eqb].
  rewrite andb_false_r.
  assert (E : z / 10 / 10 = 0).
  { rewrite Z.div_div by lia. apply Z.div_small. lia. }
  rewrite E. cbn [Z.eqb andb].
  rewrite (Z.mod_small (z / 10) 10); [reflexivity|].
  split; [apply Z.div_pos; lia | apply Z.div_lt_upper_bound; lia].
Qed.

Lemma zfill4_digits z :
  0 <= z <= 9999 ->
  zfill_int 4 z
  = String (digit_char (z / 1000))
      (String (digit_char (z / 100 mod 10))
         (String (digit_char (z / 10 mod 10))
            (String (digit_char (z mod 10)) EmptyString))).
Proof.
  intros Hz. unfold zfill_int.
  cbn [Nat.add digits_fuel Nat.pred Nat.eqb].
  rewrite !andb_false_r.
  assert (E1 : z / 10 / 10 = z / 100) by (rewrite Z.div_div by lia; reflexivity).
  assert (E2 : z / 100 / 10 = z / 1000)
    by (rewrite Z.div_div by lia; reflexivity).
  assert (E3 : z / 1000 / 10 = 0)
    by (rewrite Z.div_div by lia; apply Z.div_small; lia).
  rewrite E1, E2, E3. cbn [Z.eqb andb].
  rewrite (Z.mod_small (z / 1000) 10); [reflexivity|].
  split; [apply Z.div_pos; lia | apply Z.div_lt_upper_bound; lia].
Qed.

End Decimal.

(** ** Parsing and formatting days *)

Section DayStrings.

Lemma is_digit_char k : 0 <= k <= 9 -> is_digit (digit_char k) = true.
Proof. intros Hk. unfold is_digit. rewrite digit_val_char by lia. reflexivity. Qed.

Lemma dval_char k : 0 <= k <= 9 -> dval (digit_char k) = k.
Proof. intros Hk. unfold dval. rewrite digit_val_char by lia. reflexivity. Qed.

Lemma parse_month_zfill m rest :
  1 <= m <= 12 -> parse_month (zfill_int 2 m +++ rest) = Some (m, rest).
Proof.
  intros Hm.
  assert (C : m = 1 \/ m = 2 \/ m = 3 \/ m = 4 \/ m = 5 \/ m = 6 \/ m = 7
              \/ m = 8 \/ m = 9 \/ m = 10 \/ m = 11 \/ m = 12) by lia.
  repeat (destruct C as [-> | C]); try subst m; reflexivity.
Qed.

Lemma parse_day_zfill d :
  1 <= d <= 31 -> parse_day (zfill_int 2 d) = Some (d, EmptyString).
Proof.
  intros Hd.
  assert (C : d = 1 \/ d = 2 \/ d = 3 \/ d = 4 \/ d = 5 \/ d = 6 \/ d = 7
              \/ d = 8 \/ d = 9 \/ d = 10 \/ d = 11 \/ d = 12 \/ d = 13
              \/ d = 14 \/ d = 15 \/ d = 16 \/ d = 17 \/ d = 18 \/ d = 19
              \/ d = 20 \/ d = 21 \/ d = 22 \/ d = 23 \/ d = 24 \/ d = 25
              \/ d = 26 \/ d = 27 \/ d = 28 \/ d = 29 \/ d = 30 \/ d = 31)
    by lia.
  repeat (destruct C as [-> | C]); try subst d; reflexivity.
Qed.

Lemma valid_date_bounds y m d :
  valid_date y m d = true ->
  1 <= y <= 9999 /\ 1 <= m <= 12 /\ 1 <= d <= 31.
Proof.
  unfold valid_date. intros H.
  repeat (apply andb_prop in H; destruct H as [H ?]).
  repeat match goal with
         | H : (_ <=? _) = true |- _ => apply Z.leb_le in H
         end.
  assert (days_in_month y m <= 31).
  { rewrite days_in_month_alt.
    assert (C : m = 1 \/ m = 2 \/ m = 3 \/ m = 4 \/ m = 5 \/ m = 6 \/ m = 7
                \/ m = 8 \/ m = 9 \/ m = 10 \/ m = 11 \/ m = 12) by lia.
    repeat (destruct C as [-> | C]); try subst m;
      cbn [DAYS_IN_MONTH Z.eqb Pos.eqb andb]; try lia.
    destruct (is_leap y); lia. }
  lia.
Qed.

(** A day written by [strftime] is read back by [strptime]. *)
Lemma strptime_strftime t :
  valid_date (year t) (month t) (day t) = true ->
  strptime (strftime t) = Ok (DT (year t) (month t) (day t) 0 0 0).
Proof.
  intros Hv. destruct (valid_date_bounds _ _ _ Hv) as (Hy & Hm & Hd).
  unfold strftime. rewrite zfill4_digits by lia.
  cbn [String.append]. unfold strptime.
  assert (B1 : 0 <= year t / 1000 <= 9).
  { assert (year t / 1000 < 10) by (apply Z.div_lt_upper_bound; lia).
    split; [apply Z.div_pos; lia | lia]. }
  pose proof (Z.mod_pos_bound (year t / 100) 10 ltac:(reflexivity)) as B2.
  pose proof (Z.mod_pos_bound (year t / 10) 10 ltac:(reflexivity)) as B3.
  pose proof (Z.mod_pos_bound (year t) 10 ltac:(reflexivity)) as B4.
  rewrite !is_digit_char, !dval_char by lia.
  cbn [andb Ascii.eqb Bool.eqb].
  rewrite parse_month_zfill by lia. cbn [Ascii.eqb Bool.eqb].
  rewrite parse_day_zfill by lia.
  assert (Ey : 1000 * (year t / 1000) + 100 * ((year t / 100) mod 10)
               + 10 * ((year t / 10) mod 10) + year t mod 10 = year t).
  { Z.div_mod_to_equations. lia. }
  rewrite Ey, Hv. reflexivity.
Qed.

Lemma strptime_valid s t :
  strptime s = Ok t ->
  valid_date (year t) (month t) (day t) = true
  /\ hour t = 0 /\ minute t = 0 /\ second t = 0.
Proof.
  unfold strptime. intros H.
  repeat match type of H with
         | match ?x with _ => _ end = _ => destruct x eqn:?; try discriminate
         | (if ?x then _ else _) = _ => destruct x eqn:?; try discriminate
         end.
  injection H as <-. cbn [year month day hour minute second]. auto.
Qed.

Lemma strptime_wf s t : strptime s = Ok t -> wf_datetime t.
Proof.
  intros H. apply strptime_valid in H. destruct H as (Hv & Hh & Hm & Hs).
  unfold wf_datetime. rewrite Hh, Hm, Hs. repeat split; try assumption; lia.
Qed.

Lemma toordinal_range t :
  wf_datetime t -> 1 <= toordinal t <= MAXORDINAL.
Proof. intros [Hv _]. apply ymd2ord_range, Hv. Qed.

(** Adding a [timedelta] moves the ordinal, as long as it stays in range. *)
Lemma dt_add_spec t days seconds :
  let secs := hour t * 3600 + minute t * 60 + second t + seconds in
  1 <= toordinal t + days + secs / 86400 <= MAXORDINAL ->
  exists t', dt_add t days seconds = Ok t' /\ wf_datetime t'
             /\ toordinal t' = toordinal t + days + secs / 86400.
Proof.
  intros secs Hr. unfold dt_add. fold secs.
  set (d := toordinal t + days + secs / 86400) in *.
  replace ((0 <? d) && (d <=? MAXORDINAL)) with true.
  2:{ symmetry. apply andb_true_intro.
      split; [apply Z.ltb_lt | apply Z.leb_le]; lia. }
  destruct (ord2ymd d) as [[y m] dd] eqn:Eo.
  destruct (ord2ymd_spec _ _ _ _ Hr Eo) as [Hv Hord].
  eexists. split; [reflexivity|].
  pose proof (Z.mod_pos_bound secs 86400 ltac:(reflexivity)) as Bs.
  set (s := secs mod 86400) in *.
  unfold wf_datetime, toordinal. cbn [year month day hour minute second].
  repeat split; try assumption.
  - apply Z.div_pos; lia.
  - apply Z.div_lt_upper_bound; lia.
  - apply Z.div_pos; [apply Z.mod_pos_bound|]; lia.
  - apply Z.div_lt_upper_bound; [lia|].
    pose proof (Z.mod_pos_bound s 3600 ltac:(reflexivity)). lia.
  - apply Z.mod_pos_bound. lia.
  - apply Z.mod_pos_bound. lia.
Qed.

Lemma dt_add_overflow t days seconds :
  let secs := hour t * 3600 + minute t * 60 + second t + seconds in
  ~ 1 <= toordinal t + days + secs / 86400 <= MAXORDINAL ->
  dt_add t days seconds = Err OverflowError.
Proof.
  intros secs Hr. unfold dt_add. fold secs.
  set (d := toordinal t + days + secs / 86400) in *.
  replace ((0 <? d) && (d <=? MAXORDINAL)) with false; [reflexivity|].
  symmetry. apply andb_false_iff.
  destruct (Z_lt_le_dec 0 d); [right; apply Z.leb_gt | left; apply Z.ltb_ge];
    lia.
Qed.

End DayStrings.

(** ** The record factories *)

Section Factories.

Context {G U : Type} `{RandomG : Random G} `{UuidU : UuidSource U}.

Local Abbreviation triple := (@triple (Rand G U) _) (only parsing).

Lemma round2_pos x : (1 <= x)%Q -> (0 < round2 x)%Q.
Proof.
  intros Hx. unfold round2, Qlt, Qle in *. cbn [Qnum Qden] in *.
  assert (Hden : 0 < Z.pos (Qden x)) by reflexivity.
  assert (Hnum : 0 <= Qnum x) by lia.
  pose proof (round_half_even_bounds (Qnum x * 100) (Z.pos (Qden x)) Hden
                ltac:(lia)) as [Hlo _].
  assert (100 <= Qnum x * 100 / Z.pos (Qden x)).
  { apply Z.div_le_lower_bound; lia. }
  lia.
Qed.

Lemma triple_rand_ts E day_str :
  E \/ day_ok day_str ->
  triple E (rand_ts_for_day day_str)
    (fun ts => wf_datetime ts
               /\ forall t, strptime day_str = Ok t ->
                            toordinal ts = toordinal t).
Proof.
  intros Hday. unfold rand_ts_for_day.
  eapply triple_bind.
  - apply triple_lift with (Q := fun t => strptime day_str = Ok t).
    + intros t Ht. exact Ht.
    + intros e He. destruct Hday as [HE | [t [Ht _]]]; [exact HE|].
      congruence.
  - intros t Ht. cbv beta in Ht.
    pose proof (strptime_valid _ _ Ht) as (Hv & Hh & Hm & Hs).
    pose proof (toordinal_range t (strptime_wf _ _ Ht)) as Hord.
    eapply triple_bind; [apply triple_randint; lia|].
    intros s Hs'. cbv beta in Hs'.
    assert (Hsec : (hour t * 3600 + minute t * 60 + second t + s) / 86400 = 0).
    { rewrite Hh, Hm, Hs. apply Z.div_small. lia. }
    destruct (dt_add_spec t 0 s) as (t' & Et' & Hwf & Ho).
    { cbv zeta. rewrite Hsec. lia. }
    rewrite Et'. apply triple_lift_ok. split; [exact Hwf|].
    intros t0 Et0. cbv zeta in Ho. rewrite Hsec in Ho.
    assert (t0 = t) by congruence. subst t0. lia.
Qed.

Lemma triple_base_record E day_str source :
  E \/ day_ok day_str ->
  triple E (base_record day_str source) (is_base source).
Proof.
  intros Hday. unfold base_record.
  eapply triple_bind; [apply triple_rand_ts; exact Hday|]. intros ts _.
  eapply triple_bind; [apply triple_uuid4_str|]. intros event_id _.
  eapply triple_bind; [apply triple_randint; lia|]. intros user_id _.
  eapply triple_bind; [apply triple_choice; discriminate|].
  intros currency _.
  apply triple_ret. unfold is_base. eauto.
Qed.

Lemma triple_rand_amount E lo hi :
  (1 <= lo)%Q -> (lo <= hi)%Q ->
  triple E (rand_amount lo hi false) (fun amt => (0 < amt)%Q).
Proof.
  intros Hlo Hhi. unfold rand_amount.
  eapply triple_bind; [apply triple_uniform; exact Hhi|].
  intros x Hx. cbv beta in Hx. apply triple_ret.
  apply round2_pos. eapply Qle_trans; eassumption.
Qed.

Lemma triple_rand_amount_purchase E lo hi :
  triple E (rand_amount lo hi true) (fun _ => True).
Proof.
  unfold rand_amount.
  eapply triple_bind.
  - apply triple_with_rng with (Q := fun _ => True). intros; exact I.
  - intros x _. apply triple_ret. exact I.
Qed.

Lemma triple_random_digit E : triple E random_digit (fun _ => True).
Proof.
  unfold random_digit.
  eapply triple_bind; [apply triple_randint; lia|]. intros d _.
  apply triple_ret. exact I.
Qed.

Lemma triple_join_replicate {A : Type} E n (m : Gen G U A)
    (f : list A -> string)
    (Q : A -> Prop) :
  triple E m Q ->
  triple E (bind (replicateM n m) (fun xs => ret (f xs))) (fun _ => True).
Proof.
  intros Hm.
  eapply triple_bind; [apply triple_replicateM; exact Hm|].
  intros xs _. apply triple_ret. exact I.
Qed.

Lemma triple_nine_digits E : triple E nine_digits (fun _ => True).
Proof. apply triple_join_replicate with (Q := fun _ => True), triple_random_digit. Qed.

Lemma triple_pan_last4 E : triple E pan_last4 (fun _ => True).
Proof. apply triple_join_replicate with (Q := fun _ => True), triple_random_digit. Qed.

Lemma triple_swift_bic E : triple E swift_bic (fun _ => True).
Proof.
  unfold swift_bic.
  eapply triple_bind.
  { apply triple_replicateM. apply triple_choice. discriminate. }
  intros bank _.
  eapply triple_bind; [apply triple_choice; discriminate|]. intros country _.
  eapply triple_bind.
  { apply triple_replicateM. apply triple_choice. discriminate. }
  intros branch _. apply triple_ret. exact I.
Qed.

Lemma triple_mask_iban E : triple E mask_iban (fun _ => True).
Proof.
  unfold mask_iban.
  eapply triple_bind.
  { apply triple_replicateM. apply triple_choice. discriminate. }
  intros cs _. apply triple_ret. exact I.
Qed.

Lemma triple_merchant E : triple E merchant is_merchant.
Proof.
  unfold merchant.
  eapply triple_bind; [apply triple_choice; discriminate|].
  intros m Hm. cbv beta in Hm.
  eapply triple_bind; [apply triple_uuid4_str|]. intros merchant_id _.
  eapply triple_bind; [apply triple_choice; discriminate|].
  intros merchant_name _.
  eapply triple_bind; [apply triple_choice; discriminate|].
  intros merchant_country _.
  unfold MCCS in Hm. cbn [In] in Hm.
  repeat (destruct Hm as [<- | Hm]); try contradiction;
    cbn; unfold is_merchant; intros w; cbn; eauto 10.
Qed.

(** One turn of a factory: bind a library call, keep what it guarantees. *)
Ltac tstep :=
  eapply triple_bind;
  [ first
      [ apply triple_choice; discriminate
      | apply triple_randint; lia
      | apply triple_choices1; reflexivity
      | apply triple_uuid4_str
      | apply triple_pan_last4
      | apply triple_nine_digits
      | apply triple_swift_bic
      | apply triple_mask_iban
      | apply triple_merchant
      | apply triple_rand_amount_purchase
      | apply triple_rand_amount; unfold Qle; cbn; lia ]
  | cbv beta ].

Ltac dict_compute :=
  cbn [dict_display fold_left dict_set dict_get dict_mem String.eqb Ascii.eqb
       Bool.eqb fst snd app].

(** *** Payments *)

Lemma string_eqb_true a b : String.eqb a b = true -> a = b.
Proof. apply String.eqb_eq. Qed.

Lemma Qopp_neg a : (0 < a)%Q -> (- a < 0)%Q.
Proof. unfold Qlt. cbn [Qnum Qden Qopp]. lia. Qed.

Lemma gen_payments_spec E day_str :
  E \/ day_ok day_str ->
  triple E (gen_payments day_str)
    (fun rec => ach_sign_ok rec /\ card_codes_ok rec).
Proof.
  intros Hday. unfold gen_payments.
  eapply triple_bind; [apply triple_base_record; exact Hday|].
  intros base (event_id & user_id & currency & timestamp & ->).
  tstep. intros channel _. tstep. intros status _.
  destruct (String.eqb channel "card_auth"
            || String.eqb channel "card_settlement") eqn:Ecard.
  { (* card *)
    tstep.
    intros m (merchant_id & merchant_name & merchant_country & mcc & category
              & ->).
    tstep. intros amt _. tstep. intros card_network _.
    tstep. intros pan _. tstep. intros card_present _.
    tstep. intros pos_entry_mode _.
    eapply triple_bind
      with (Q := fun ac => ac = VNull <-> status = "failed").
    { destruct (String.eqb status "failed") eqn:Est; cbn [negb].
      - apply triple_ret. apply string_eqb_true in Est. tauto.
      - tstep. intros u _. apply triple_ret.
        apply String.eqb_neq in Est. split; [discriminate | tauto]. }
    intros approval_code Hac.
    eapply triple_bind
      with (Q := fun dr => dr <> VNull <-> status = "failed").
    { destruct (String.eqb status "failed") eqn:Est; cbn [negb].
      - tstep. intros r _. apply triple_ret.
        apply string_eqb_true in Est. split; [tauto | discriminate].
      - apply triple_ret. apply String.eqb_neq in Est. tauto. }
    intros decline_reason Hdr.
    apply triple_ret. unfold ach_sign_ok, card_codes_ok. dict_compute.
    split; [split|].
    - intros [= ->]. discriminate Ecard.
    - intros [= ->]. discriminate Ecard.
    - intros _. exists status, approval_code, decline_reason. tauto. }
  destruct (String.eqb channel "ach_credit"
            || String.eqb channel "ach_debit") eqn:Each.
  { (* ACH *)
    tstep. intros amt Hamt. tstep. intros routing_number _.
    tstep. intros account_last4 _. tstep. intros counterparty_name _.
    tstep. intros trace _.
    apply triple_ret. unfold ach_sign_ok, card_codes_ok. dict_compute.
    split; [split|].
    - intros [= ->]. cbn. eexists. split; [reflexivity|].
      apply Qopp_neg, Hamt.
    - intros [= ->]. cbn. eexists. split; [reflexivity | exact Hamt].
    - intros [[= ->] | [= ->]]; discriminate Ecard. }
  destruct (String.eqb channel "wire_transfer") eqn:Ewire.
  { (* wire *)
    tstep. intros amt _. tstep. intros amount _. tstep. intros bic _.
    tstep. intros iban _. tstep. intros is_international _.
    apply triple_ret. unfold ach_sign_ok, card_codes_ok. dict_compute.
    split; [split|]; [intros [=] | intros [=] | intros [[=] | [=]]]. }
  (* zelle or fallback *)
  tstep. intros amt _. tstep. intros amount _. tstep. intros alias _.
  apply triple_ret. unfold ach_sign_ok, card_codes_ok. dict_compute.
  split; [split|]; [intros [=] | intros [=] | intros [[=] | [=]]].
Qed.

(** *** Billing *)

Lemma round2_nonneg x : (0 <= x)%Q -> (0 <= round2 x)%Q.
Proof.
  intros Hx. unfold round2, Qle in *. cbn [Qnum Qden] in *.
  assert (Hden : 0 < Z.pos (Qden x)) by reflexivity.
  pose proof (round_half_even_bounds (Qnum x * 100) (Z.pos (Qden x)) Hden
                ltac:(lia)) as [Hlo _].
  assert (0 <= Qnum x * 100 / Z.pos (Qden x)) by (apply Z.div_pos; lia).
  lia.
Qed.

Lemma Qopp_nonpos a : (0 <= a)%Q -> (- a <= 0)%Q.
Proof. unfold Qle. cbn [Qnum Qden Qopp]. lia. Qed.

Lemma gen_billing_spec E day_str :
  E \/ day_ok day_str -> triple E (gen_billing day_str) refund_ok.
Proof.
  intros Hday. unfold gen_billing.
  eapply triple_bind; [apply triple_base_record; exact Hday|].
  intros base (event_id & user_id & currency & timestamp & ->).
  tstep. intros status _. tstep. intros u _.
  eapply triple_bind; [apply triple_rand_ts; exact Hday|].
  intros issued [Hwf Hord].
  tstep. intros term Hterm.
  eapply triple_bind with (Q := fun _ => True).
  { apply triple_lift; [intros; exact I|]. intros e He.
    destruct Hday as [HE | (t & Ht & Hmax)]; [exact HE|]. exfalso.
    specialize (Hord t Ht).
    pose proof (toordinal_range issued Hwf) as Hr.
    destruct Hwf as (_ & Hh & Hm & Hs).
    destruct (dt_add_spec issued term 0) as (t' & Et' & _).
    { cbv zeta. rewrite Z.add_0_r, Z.div_small by lia.
      cbn [In] in Hterm.
      destruct Hterm as [<- | [<- | [<- | []]]]; lia. }
    congruence. }
  intros due _. tstep. intros amt Hamt.
  eapply triple_bind
    with (Q := fun paid =>
                 (0 <= paid)%Q
                 /\ (status = "paid" \/ status = "refunded" -> (0 < paid)%Q)).
  { destruct (String.eqb status "paid" || String.eqb status "refunded")
      eqn:Est.
    - apply triple_ret. split; [apply Qlt_le_weak, Hamt | intros _; exact Hamt].
    - tstep. intros f Hf. apply triple_ret.
      apply orb_false_elim in Est. destruct Est as [E1 E2].
      apply String.eqb_neq in E1, E2. split; [|intros [?|?]; contradiction].
      apply round2_nonneg. apply Qmult_le_0_compat.
      + apply Qlt_le_weak, Hamt.
      + cbn [In] in Hf.
        destruct Hf as [<- | [<- | [<- | [<- | []]]]]; unfold Qle; cbn; lia. }
  intros paid [Hpaid0 Hpaid]. tstep. intros event_type _.
  tstep. intros tax_rate _. tstep. intros line_count _.
  apply triple_ret. unfold refund_ok. dict_compute.
  intros [= ->]. cbn [negb].
  exists (- paid)%Q, paid, status. repeat split; try reflexivity.
  - apply Qopp_nonpos, Hpaid0.
  - intros Hst. apply Qopp_neg, Hpaid, Hst.
Qed.

(** *** ERP *)

Lemma gen_erp_spec E day_str :
  E \/ day_ok day_str -> triple E (gen_erp day_str) posting_ok.
Proof.
  intros Hday. unfold gen_erp.
  eapply triple_bind; [apply triple_base_record; exact Hday|].
  intros base (event_id & user_id & currency & timestamp & ->).
  tstep. intros journal _. tstep. intros acct _.
  tstep. intros amt Hamt. tstep. intros side Hside.
  tstep. intros entity _. tstep. intros posted_by _.
  apply triple_ret. unfold posting_ok. dict_compute.
  split; [reflexivity|].
  cbn [In] in Hside. destruct Hside as [<- | [<- | []]]; cbn;
    do 3 eexists; repeat split; try reflexivity; try exact Hamt; tauto.
Qed.

(** *** CRM and support *)

Lemma gen_crm_spec E day_str :
  E \/ day_ok day_str -> triple E (gen_crm day_str) (fun _ => True).
Proof.
  intros Hday. unfold gen_crm.
  eapply triple_bind; [apply triple_base_record; exact Hday|].
  intros base _.
  tstep. intros event_type _. tstep. intros risk _.
  tstep. intros kyc_status _. tstep. intros pep_flag _.
  tstep. intros ip3 _. tstep. intros ip4 _. tstep. intros country _.
  apply triple_ret. exact I.
Qed.

Lemma gen_support_spec E day_str :
  E \/ day_ok day_str -> triple E (gen_support day_str) (fun _ => True).
Proof.
  intros Hday. unfold gen_support.
  eapply triple_bind; [apply triple_base_record; exact Hday|].
  intros base _.
  tstep. intros cat _. tstep. intros pri _. tstep. intros status _.
  tstep. intros u _. tstep. intros channel _.
  apply triple_ret. exact I.
Qed.

(** Every factory of the table returns a record on a good day. *)
Lemma factories_total day_str source gen :
  day_ok day_str -> GEN_BY_SOURCE source = Some gen ->
  triple False (gen day_str) (fun _ => True).
Proof.
  intros Hday. unfold GEN_BY_SOURCE.
  repeat match goal with
         | |- (if ?c then _ else _) = _ -> _ => destruct c
         end;
    intros [= <-];
    eapply triple_any;
    first [ apply gen_payments_spec | apply gen_billing_spec
          | apply gen_crm_spec | apply gen_erp_spec | apply gen_support_spec ];
    right; exact Hday.
Qed.

Lemma GEN_BY_SOURCE_known source :
  In source SOURCES -> exists gen, GEN_BY_SOURCE source = Some gen.
Proof.
  unfold SOURCES. cbn [In].
  intros [<- | [<- | [<- | [<- | [<- | []]]]]]; eexists; reflexivity.
Qed.

End Factories.

(** ** Paths and part names *)

Section Paths.

Lemma string_length_append s t :
  String.length (s +++ t) = (String.length s + String.length t)%nat.
Proof.
  induction s as [|a s IH]; cbn [String.append String.length];
    [reflexivity | rewrite IH; reflexivity].
Qed.

Lemma append_cancel_r a b s : a +++ s = b +++ s -> a = b.
Proof.
  revert b. induction a as [|c a IH]; intros [|d b] E; cbn [String.append] in E.
  - reflexivity.
  - exfalso. apply (f_equal String.length) in E.
    cbn [String.length] in E. rewrite string_length_append in E. lia.
  - exfalso. apply (f_equal String.length) in E.
    cbn [String.length] in E. rewrite string_length_append in E. lia.
  - injection E as -> E. f_equal. apply IH, E.
Qed.

Lemma split_on_no_sep c s :
  contains_char c s = false -> split_on c s = [s].
Proof.
  induction s as [|a s IH]; cbn [contains_char split_on]; [reflexivity|].
  intros H. apply orb_false_elim in H. destruct H as [Ha Hs].
  rewrite Ha, (IH Hs). reflexivity.
Qed.

(** Joining one plain component appends it to the parts. *)
Lemma path_join_component p seg :
  contains_char "/" seg = false -> keep_part seg = true ->
  p // seg = p ++ [seg].
Proof.
  intros Hs Hk. unfold path_join.
  destruct seg as [|a seg']; [discriminate Hk|].
  cbn [contains_char] in Hs. apply orb_false_elim in Hs as Hs'.
  destruct Hs' as [Ha _]. rewrite Ha.
  unfold rel_parts. rewrite split_on_no_sep by exact Hs.
  cbn [filter]. rewrite Hk. reflexivity.
Qed.

Lemma part_name_plain i :
  contains_char "/" (part_name i) = false /\ keep_part (part_name i) = true.
Proof.
  unfold part_name. split.
  - rewrite !contains_char_append, zfill_int_no_slash. reflexivity.
  - reflexivity.
Qed.

Lemma path_join_part base i : base // part_name i = base ++ [part_name i].
Proof. apply path_join_component; apply part_name_plain. Qed.

Lemma part_name_inj i j :
  0 <= i -> 0 <= j -> part_name i = part_name j -> i = j.
Proof.
  intros Hi Hj E. unfold part_name in E. cbn [String.append] in E.
  injection E as E. apply append_cancel_r in E.
  eapply zfill_int_inj; eassumption.
Qed.

Lemma parent_join_part base i : parent (base // part_name i) = base.
Proof. rewrite path_join_part. apply removelast_last. Qed.

Lemma name_join_part base i : name (base // part_name i) = part_name i.
Proof. rewrite path_join_part. apply last_last. Qed.

(** The directory of a partition. *)
Lemma partition_dir_parts out_dir day_str source :
  contains_char "/" day_str = false -> contains_char "/" source = false ->
  out_dir // ("day=" +++ day_str) // ("source=" +++ source)
  = out_dir ++ ["day=" +++ day_str; "source=" +++ source].
Proof.
  intros Hd Hs.
  rewrite (path_join_component out_dir ("day=" +++ day_str)).
  - rewrite path_join_component.
    + rewrite <- app_assoc. reflexivity.
    + rewrite contains_char_append, Hs. reflexivity.
    + reflexivity.
  - rewrite contains_char_append, Hd. reflexivity.
  - reflexivity.
Qed.

End Paths.

(** ** The partition writer *)

Section FileSystem.

Lemma fs_write_fresh p c fs :
  ~ In p (map fst fs) -> fs_write p c fs = fs ++ [(p, c)].
Proof.
  induction fs as [|[p' c'] fs IH]; cbn [fs_write map fst In app];
    [reflexivity|].
  intros Hn. destruct (list_eq_dec string_dec p p') as [-> | Hne].
  - exfalso. apply Hn. left. reflexivity.
  - rewrite IH; [reflexivity|]. intros Hin. apply Hn. right. exact Hin.
Qed.

Lemma fs_write_all_fresh ws fs :
  NoDup (map fst ws) ->
  (forall p, In p (map fst ws) -> ~ In p (map fst fs)) ->
  fs_write_all ws fs = fs ++ ws.
Proof.
  revert fs. induction ws as [|[p c] ws IH]; intros fs Hnd Hfresh;
    cbn [fs_write_all fold_left fst snd].
  - rewrite app_nil_r. reflexivity.
  - cbn [map fst] in Hnd. inversion Hnd as [|? ? Hnotin Hnd']; subst.
    rewrite fs_write_fresh by (apply Hfresh; left; reflexivity).
    fold (fs_write_all ws (fs ++ [(p, c)])).
    rewrite IH.
    + rewrite <- app_assoc. reflexivity.
    + exact Hnd'.
    + intros q Hq. rewrite map_app, in_app_iff. cbn [map fst In].
      intros [Hin | [<- | []]].
      * apply (Hfresh q); [right; exact Hq | exact Hin].
      * apply Hnotin, Hq.
Qed.

Lemma fs_read_write_same p c fs : fs_read p (fs_write p c fs) = Some c.
Proof.
  induction fs as [|[p' c'] fs IH]; cbn [fs_write fs_read].
  - destruct (list_eq_dec string_dec p p); [reflexivity | congruence].
  - destruct (list_eq_dec string_dec p p') as [-> | Hne]; cbn [fs_read].
    + destruct (list_eq_dec string_dec p' p'); [reflexivity | congruence].
    + destruct (list_eq_dec string_dec p p'); [congruence | exact IH].
Qed.

Lemma fs_read_write_other p q c fs :
  p <> q -> fs_read q (fs_write p c fs) = fs_read q fs.
Proof.
  intros Hne. induction fs as [|[p' c'] fs IH]; cbn [fs_write fs_read].
  - destruct (list_eq_dec string_dec q p); [congruence | reflexivity].
  - destruct (list_eq_dec string_dec p p') as [-> | Hne']; cbn [fs_read].
    + destruct (list_eq_dec string_dec q p'); [congruence | reflexivity].
    + destruct (list_eq_dec string_dec q p'); [reflexivity | exact IH].
Qed.

Lemma files_in_app dir fs1 fs2 :
  files_in dir (fs1 ++ fs2) = files_in dir fs1 ++ files_in dir fs2.
Proof. apply filter_app. Qed.

Lemma files_in_all dir fs :
  Forall (fun x => parent (fst x) = dir) fs -> files_in dir fs = fs.
Proof.
  induction 1 as [|x fs Hx _ IH]; cbn [files_in filter]; [reflexivity|].
  destruct (path_eq_dec (parent (fst x)) dir); [|contradiction].
  fold (files_in dir fs). rewrite IH. reflexivity.
Qed.

Lemma files_in_nil_fresh dir fs p :
  files_in dir fs = [] -> parent p = dir -> ~ In p (map fst fs).
Proof.
  intros Hnil Hp Hin. apply in_map_iff in Hin.
  destruct Hin as [[q c] [Hq Hin]]. cbn [fst] in Hq. subst q.
  assert (Hf : In (p, c) (files_in dir fs)).
  { apply filter_In. split; [exact Hin|]. cbn [fst].
    destruct (path_eq_dec (parent p) dir); [reflexivity | contradiction]. }
  rewrite Hnil in Hf. exact Hf.
Qed.

End FileSystem.

Section Writer.

Context {G U : Type} `{RandomG : Random G} `{UuidU : UuidSource U}.

Local Abbreviation World := (World G U) (only parsing).
Local Abbreviation IO := (IO G U) (only parsing).
Local Abbreviation factories := (factories G U) (only parsing).

Lemma bind_ok {S A B : Type} (m : M S A) (f : A -> M S B) s b s' :
  bind m f s = Ok (b, s') ->
  exists a s1, m s = Ok (a, s1) /\ f a s1 = Ok (b, s').
Proof.
  unfold bind. destruct (m s) as [[a s1] | e]; [|discriminate].
  intros H. eauto.
Qed.

Lemma gen_line_ok gens source day_str (w : World) line w' :
  gen_line gens source day_str w = Ok (line, w') ->
  line_of gens source day_str line /\ same_fs w w'.
Proof.
  unfold gen_line. destruct (gens source) as [gen|] eqn:Eg; [|discriminate].
  intros H. apply bind_ok in H. destruct H as (rec & w1 & Hrun & Hret).
  unfold run_gen in Hrun.
  destruct (gen day_str (rand w)) as [[rec' r'] | e] eqn:Egen; [|discriminate].
  injection Hrun as <- <-. injection Hret as <- <-.
  split.
  - exists gen, rec', (rand w), r'. auto.
  - unfold same_fs. cbn. auto.
Qed.

Lemma replicate_gen_line_ok gens source day_str n :
  forall (w : World) lines w',
    replicateM n (gen_line gens source day_str) w = Ok (lines, w') ->
    length lines = n /\ Forall (line_of gens source day_str) lines
    /\ same_fs w w'.
Proof.
  induction n as [|n IH]; intros w lines w' H; cbn [replicateM] in H.
  - injection H as <- <-. unfold same_fs. auto.
  - apply bind_ok in H. destruct H as (l & w1 & Hl & H).
    apply bind_ok in H. destruct H as (ls & w2 & Hls & H).
    injection H as <- <-.
    apply gen_line_ok in Hl. destruct Hl as [Hline (Hd1 & Hf1 & Hs1)].
    apply IH in Hls. destruct Hls as (Hlen & Hall & Hd2 & Hf2 & Hs2).
    split; [cbn [length]; congruence|].
    split; [constructor; assumption|].
    unfold same_fs. repeat split; congruence.
Qed.

Lemma write_part_ok gens day_str source base events_per_file i remaining
    (w : World) remaining' w' :
  write_part gens day_str source base events_per_file i remaining w
  = Ok (remaining', w') ->
  exists lines,
    length lines = Z.to_nat (Z.min events_per_file remaining)
    /\ Forall (line_of gens source day_str) lines
    /\ remaining' = remaining - Z.min events_per_file remaining
    /\ files w' = fs_write (base // part_name i) lines (files w)
    /\ dirs w' = dirs w.
Proof.
  unfold write_part. intros H.
  apply bind_ok in H. destruct H as (lines & w1 & Hgen & H).
  apply replicate_gen_line_ok in Hgen.
  destruct Hgen as (Hlen & Hall & Hd & Hf & Hs).
  apply bind_ok in H. destruct H as ([] & w2 & Hw & H).
  apply bind_ok in H. destruct H as ([] & w3 & Hp & H).
  injection Hw as <-. injection Hp as <-. injection H as <- <-.
  exists lines. cbn [files dirs]. rewrite Hf, Hd. auto.
Qed.

Lemma write_loop_ok gens day_str source base events_per_file :
  forall idxs remaining (w : World) remaining' w',
    for_fold idxs (write_part gens day_str source base events_per_file)
      remaining w = Ok (remaining', w') ->
    exists contents,
      Forall2 (fun count lines => length lines = Z.to_nat count)
        (part_counts (length idxs) events_per_file remaining) contents
      /\ Forall (Forall (line_of gens source day_str)) contents
      /\ files w'
         = fs_write_all
             (combine (map (fun i => base // part_name i) idxs) contents)
             (files w)
      /\ dirs w' = dirs w.
Proof.
  induction idxs as [|i idxs IH]; intros remaining w remaining' w' H;
    cbn [for_fold] in H.
  - injection H as <- <-. exists []. cbn. repeat split; constructor.
  - apply bind_ok in H. destruct H as (rem1 & w1 & Hpart & H).
    apply write_part_ok in Hpart.
    destruct Hpart as (lines & Hlen & Hall & -> & Hf & Hd).
    apply IH in H. destruct H as (contents & Hc & Hall' & Hf' & Hd').
    exists (lines :: contents). cbn [length part_counts map combine].
    split; [constructor; assumption|].
    split; [constructor; assumption|].
    split; [|congruence].
    unfold fs_write_all in *. cbn [fold_left fst snd]. rewrite <- Hf. exact Hf'.
Qed.

(** What a call of the writer does, when it returns. *)
Lemma write_partition_with_ok gens day_str source out_dir n_events
    events_per_file (w : World) base w' :
  write_partition_with gens day_str source out_dir n_events events_per_file w
  = Ok (base, w') ->
  base = out_dir // ("day=" +++ day_str) // ("source=" +++ source)
  /\ exists q contents,
       true_div n_events events_per_file = Ok q
       /\ Forall2 (fun count lines => length lines = Z.to_nat count)
            (part_counts (Z.to_nat (Z.max 1 (math_ceil q))) events_per_file
               n_events)
            contents
       /\ Forall (Forall (line_of gens source day_str)) contents
       /\ files w'
          = fs_write_all
              (combine (map (fun i => base // part_name i)
                          (range (Z.max 1 (math_ceil q))))
                       contents)
              (files w)
       /\ dirs w' = (if in_dec (list_eq_dec string_dec) base (dirs w)
                     then dirs w else dirs w ++ [base]).
Proof.
  unfold write_partition_with. intros H.
  apply bind_ok in H. destruct H as ([] & w1 & Hmk & H).
  injection Hmk as <-.
  apply bind_ok in H. destruct H as (q & w2 & Hq & H).
  unfold lift in Hq.
  destruct (true_div n_events events_per_file) as [q' | e] eqn:Ediv;
    [|discriminate].
  injection Hq as <- <-.
  apply bind_ok in H. destruct H as (rem & w3 & Hloop & H).
  injection H as <- <-.
  apply write_loop_ok in Hloop.
  destruct Hloop as (contents & Hc & Hall & Hf & Hd).
  split; [reflexivity|]. exists q', contents.
  unfold range in Hc. rewrite length_map, length_seq in Hc.
  cbn [files] in Hf. cbn [dirs] in Hd. auto.
Qed.

End Writer.

(** ** Counting files and lines *)

Section Counts.

Lemma sum_Z_app xs ys : sum_Z (xs ++ ys) = sum_Z xs + sum_Z ys.
Proof.
  unfold sum_Z. induction xs as [|x xs IH]; cbn [app fold_right]; lia.
Qed.

Lemma sum_Z_repeat x n : sum_Z (repeat x n) = Z.of_nat n * x.
Proof.
  unfold sum_Z. induction n as [|n IH]; cbn [repeat fold_right]; lia.
Qed.

(** All files but the last are full; the last takes what is left. *)
Lemma part_counts_shape e :
  1 <= e ->
  forall k remaining,
    Z.of_nat k * e <= remaining <= Z.of_nat (S k) * e ->
    part_counts (S k) e remaining
    = repeat e k ++ [remaining - Z.of_nat k * e].
Proof.
  intros He. induction k as [|k IH]; intros remaining Hr.
  - cbn [part_counts repeat app]. f_equal. lia.
  - change (part_counts (S (S k)) e remaining)
      with (Z.min e remaining
            :: part_counts (S k) e (remaining - Z.min e remaining)).
    assert (Hmin : Z.min e remaining = e) by nia.
    rewrite Hmin, IH by nia.
    cbn [repeat app]. do 3 f_equal. lia.
Qed.

Lemma part_counts_sum e k remaining :
  1 <= e -> Z.of_nat k * e <= remaining <= Z.of_nat (S k) * e ->
  sum_Z (part_counts (S k) e remaining) = remaining.
Proof.
  intros He Hr. rewrite part_counts_shape by assumption.
  rewrite sum_Z_app, sum_Z_repeat. unfold sum_Z. cbn [fold_right]. lia.
Qed.

(** The number of files the writer makes, where the float quotient is
    exact. *)
Lemma n_files_small n e :
  0 <= n < 2 ^ 53 -> 1 <= e ->
  exists q, true_div n e = Ok q
            /\ Z.max 1 (math_ceil q) = Z.max 1 (ceil_div n e).
Proof.
  intros Hn He. destruct (Z.eq_dec n 0) as [-> | Hnz].
  - exists (F64 0 0). split.
    + unfold true_div.
      replace (e =? 0) with false by (symmetry; apply Z.eqb_neq; lia).
      reflexivity.
    + rewrite (ceil_div_unique 0 e 0) by lia. reflexivity.
  - destruct (true_div_ceil_small n e ltac:(lia) ltac:(lia)) as (q & Eq & Hq).
    exists q. split; [exact Eq|].
    pose proof (ceil_div_spec n e ltac:(lia)) as [Hlo Hhi].
    assert (1 <= ceil_div n e) by nia. lia.
Qed.

Lemma n_files_bounds n e :
  0 <= n -> 1 <= e ->
  let k := Z.max 1 (ceil_div n e) in
  (k - 1) * e <= n <= k * e.
Proof.
  intros Hn He k. subst k.
  pose proof (ceil_div_spec n e ltac:(lia)) as [Hlo Hhi].
  destruct (Z.eq_dec n 0) as [-> | Hnz].
  - rewrite (ceil_div_unique 0 e 0) by lia. change (Z.max 1 0) with 1. lia.
  - assert (1 <= ceil_div n e) by nia.
    rewrite Z.max_r by lia. lia.
Qed.

Lemma map_fst_combine {A B : Type} (xs : list A) (ys : list B) :
  length xs = length ys -> map fst (combine xs ys) = xs.
Proof.
  revert ys. induction xs as [|x xs IH]; intros [|y ys] H; cbn in *;
    try discriminate; [reflexivity|].
  f_equal. apply IH. lia.
Qed.

Lemma map_snd_combine {A B : Type} (xs : list A) (ys : list B) :
  length xs = length ys -> map snd (combine xs ys) = ys.
Proof.
  revert ys. induction xs as [|x xs IH]; intros [|y ys] H; cbn in *;
    try discriminate; [reflexivity|].
  f_equal. apply IH. lia.
Qed.

Lemma Forall2_lengths (counts : list Z) (contents : list (list record)) :
  Forall2 (fun count lines => length lines = Z.to_nat count) counts contents ->
  Forall (fun c => 0 <= c) counts ->
  map (fun lines => Z.of_nat (length lines)) contents = counts.
Proof.
  induction 1 as [|c lines counts contents Hc _ IH]; intros Hpos;
    cbn [map]; [reflexivity|].
  inversion Hpos as [|? ? Hc0 Hpos']; subst.
  rewrite Hc, Z2Nat.id, IH by assumption. reflexivity.
Qed.

Lemma part_paths_NoDup base k :
  NoDup (map (fun i => base // part_name i) (range k)).
Proof.
  apply NoDup_map_NoDup_ForallPairs.
  - intros i j Hi Hj E. apply in_range_iff in Hi, Hj.
    rewrite !path_join_part in E. apply app_inj_tail in E.
    destruct E as [_ E]. apply part_name_inj in E; lia.
  - unfold range. apply NoDup_map_NoDup_ForallPairs; [|apply seq_NoDup].
    intros a b _ _ E. lia.
Qed.

Lemma range_length k : length (range k) = Z.to_nat k.
Proof. unfold range. rewrite length_map, length_seq. reflexivity. Qed.

(** The file system after the writes of one call, when the directory of the
    partition held no file. *)
Lemma partition_files base k (contents : list (list record)) (fs : FS) :
  length contents = Z.to_nat k -> files_in base fs = [] ->
  files_in base
    (fs_write_all (combine (map (fun i => base // part_name i) (range k))
                     contents) fs)
  = combine (map (fun i => base // part_name i) (range k)) contents.
Proof.
  intros Hlen Hempty.
  set (ws := combine (map (fun i => base // part_name i) (range k)) contents).
  assert (Hkeys : map fst ws = map (fun i => base // part_name i) (range k)).
  { apply map_fst_combine. rewrite length_map, range_length. lia. }
  assert (Hparents : Forall (fun x => parent (fst x) = base) ws).
  { apply Forall_forall. intros x Hx.
    assert (Hin : In (fst x) (map fst ws)) by (apply in_map, Hx).
    rewrite Hkeys in Hin. apply in_map_iff in Hin.
    destruct Hin as (i & <- & _). apply parent_join_part. }
  rewrite fs_write_all_fresh.
  - rewrite files_in_app, Hempty, files_in_all by exact Hparents.
    reflexivity.
  - rewrite Hkeys. apply part_paths_NoDup.
  - intros p Hp. apply (files_in_nil_fresh base); [exact Hempty|].
    rewrite Hkeys in Hp. apply in_map_iff in Hp.
    destruct Hp as (i & <- & _). apply parent_join_part.
Qed.

End Counts.

(** ** The writer returns *)

Section WriterTotal.

Context {G U : Type} `{RandomG : Random G} `{UuidU : UuidSource U}.

Local Abbreviation triple_gen := (@triple (Rand G U) _) (only parsing).
Local Abbreviation triple_io := (@triple (World G U) _) (only parsing).

Lemma triple_total {S A : Type} (m : M S A) (Q : A -> Prop) :
  triple False m Q -> forall s, exists a s', m s = Ok (a, s') /\ Q a.
Proof.
  intros H s. specialize (H s).
  destruct (m s) as [[a s'] | e]; [eauto | contradiction].
Qed.

Lemma triple_run_gen {A : Type} E (m : Gen G U A) (Q : A -> Prop) :
  triple_gen E m Q -> triple_io E (run_gen m) Q.
Proof.
  intros H w. unfold run_gen. specialize (H (rand w)).
  destruct (m (rand w)) as [[a r] | e]; exact H.
Qed.

Lemma triple_mkdir_p E p : triple_io E (mkdir_p p) (fun _ => True).
Proof. intros w. exact I. Qed.

Lemma triple_write_file E p c : triple_io E (write_file p c) (fun _ => True).
Proof. intros w. exact I. Qed.

Lemma triple_print E msg : triple_io E (print msg) (fun _ => True).
Proof. intros w. exact I. Qed.

Lemma triple_for_fold {S A V : Type} E (xs : list A) (body : A -> V -> M S V) :
  (forall x v, triple E (body x v) (fun _ => True)) ->
  forall v, triple E (for_fold xs body v) (fun _ => True).
Proof.
  intros Hbody. induction xs as [|x xs IH]; intros v; cbn [for_fold].
  - apply triple_ret. exact I.
  - eapply triple_bind; [apply Hbody|]. intros v' _. apply IH.
Qed.

Lemma triple_for_each {S A : Type} E (xs : list A) (body : A -> M S unit) :
  (forall x, In x xs -> triple E (body x) (fun _ => True)) ->
  triple E (for_each xs body) (fun _ => True).
Proof.
  induction xs as [|x xs IH]; intros Hbody; cbn [for_each].
  - apply triple_ret. exact I.
  - eapply triple_bind; [apply Hbody; left; reflexivity|]. intros _ _.
    apply IH. intros y Hy. apply Hbody. right. exact Hy.
Qed.

Lemma triple_gen_line E (gens : factories G U) source day_str gen :
  gens source = Some gen ->
  triple_gen E (gen day_str) (fun _ => True) ->
  triple_io E (gen_line gens source day_str) (fun _ => True).
Proof.
  intros Hg Hgen. unfold gen_line. rewrite Hg.
  eapply triple_bind; [apply triple_run_gen; exact Hgen|].
  intros rec _. apply triple_ret. exact I.
Qed.

Lemma triple_write_partition_with E (gens : factories G U) day_str source
    out_dir n_events events_per_file gen q :
  gens source = Some gen ->
  triple_gen E (gen day_str) (fun _ => True) ->
  true_div n_events events_per_file = Ok q ->
  triple_io E
    (write_partition_with gens day_str source out_dir n_events events_per_file)
    (fun _ => True).
Proof.
  intros Hg Hgen Hq. unfold write_partition_with.
  eapply triple_bind; [apply triple_mkdir_p|]. intros _ _.
  rewrite Hq. eapply triple_bind; [apply triple_lift_ok; exact I|].
  intros q' _.
  eapply triple_bind.
  - apply triple_for_fold. intros i remaining. unfold write_part.
    eapply triple_bind.
    { apply triple_replicateM. eapply triple_gen_line; eassumption. }
    intros lines _.
    eapply triple_bind; [apply triple_write_file|]. intros _ _.
    eapply triple_bind; [apply triple_print|]. intros _ _.
    apply triple_ret. exact I.
  - intros _ _. apply triple_ret. exact I.
Qed.

(** On a good day, for a known source and a quotient that is a float, the
    writer returns. *)
Lemma write_partition_total day_str source out_dir n_events events_per_file q
    (w : World G U) :
  day_ok day_str -> In source SOURCES ->
  true_div n_events events_per_file = Ok q ->
  exists base w',
    write_partition day_str source out_dir n_events events_per_file w
    = Ok (base, w').
Proof.
  intros Hday Hsrc Hq.
  destruct (GEN_BY_SOURCE_known (G := G) (U := U) source Hsrc) as [gen Hgen].
  pose proof (factories_total day_str source gen Hday Hgen) as Htot.
  pose proof (triple_write_partition_with False GEN_BY_SOURCE day_str source
                out_dir n_events events_per_file gen q Hgen Htot Hq) as Hw.
  destruct (triple_total _ _ Hw w) as (base & w' & Hrun & _).
  exists base, w'. exact Hrun.
Qed.

End WriterTotal.

(** * The claims about the partition writer *)

Section WriterClaims.

Context {G U : Type} `{RandomG : Random G} `{UuidU : UuidSource U}.

Lemma fs_read_write_all p ws (fs : FS) :
  fs_read p (fs_write_all ws fs) = fs_read p fs
  \/ exists c, In (p, c) ws /\ fs_read p (fs_write_all ws fs) = Some c.
Proof.
  revert fs. induction ws as [|[q c] ws IH]; intros fs;
    cbn [fs_write_all fold_left fst snd]; [left; reflexivity|].
  fold (fs_write_all ws (fs_write q c fs)).
  destruct (IH (fs_write q c fs)) as [Heq | (c' & Hin & Hc')].
  - destruct (path_eq_dec q p) as [-> | Hne].
    + right. exists c. split; [left; reflexivity|].
      rewrite Heq. apply fs_read_write_same.
    + left. rewrite Heq. apply fs_read_write_other. exact Hne.
  - right. exists c'. split; [right; exact Hin | exact Hc'].
Qed.

Lemma in_combine_parts base k (contents : list (list record)) p c :
  In (p, c) (combine (map (fun i => base // part_name i) (range k)) contents) ->
  (exists i, 0 <= i < k /\ p = base ++ [part_name i]) /\ In c contents.
Proof.
  intros Hin. split.
  - apply in_combine_l in Hin. apply in_map_iff in Hin.
    destruct Hin as (i & <- & Hi). apply in_range_iff in Hi.
    exists i. split; [exact Hi | apply path_join_part].
  - apply in_combine_r in Hin. exact Hin.
Qed.

Lemma part_counts_length k e remaining :
  length (part_counts k e remaining) = k.
Proof.
  revert remaining. induction k as [|k IH]; intros remaining;
    cbn [part_counts length]; [reflexivity | rewrite IH; reflexivity].
Qed.

Lemma fs_read_kept p ws (fs : FS) :
  fs_read p fs <> None -> fs_read p (fs_write_all ws fs) <> None.
Proof.
  revert fs. induction ws as [|[q c] ws IH]; intros fs Hp;
    cbn [fs_write_all fold_left fst snd]; [exact Hp|].
  apply IH. destruct (path_eq_dec q p) as [-> | Hne].
  - rewrite fs_read_write_same. discriminate.
  - rewrite fs_read_write_other by exact Hne. exact Hp.
Qed.

Lemma fs_read_written p ws (fs : FS) :
  In p (map fst ws) -> fs_read p (fs_write_all ws fs) <> None.
Proof.
  revert fs. induction ws as [|[q c] ws IH]; intros fs Hin;
    cbn [fs_write_all fold_left fst snd map In] in *; [contradiction|].
  destruct Hin as [-> | Hin].
  - apply fs_read_kept. rewrite fs_read_write_same. discriminate.
  - apply IH, Hin.
Qed.

Lemma dict_get_set_same k v d : dict_get k (dict_set k v d) = Some v.
Proof.
  induction d as [|[k' v'] d IH]; cbn [dict_set dict_get].
  - rewrite String.eqb_refl. reflexivity.
  - destruct (String.eqb k k') eqn:E; cbn [dict_get]; rewrite ?E.
    + rewrite String.eqb_refl. reflexivity.
    + exact IH.
Qed.

Lemma dict_get_set_other k k' v d :
  k <> k' -> dict_get k (dict_set k' v d) = dict_get k d.
Proof.
  intros Hne. induction d as [|[k0 v0] d IH]; cbn [dict_set dict_get].
  - apply String.eqb_neq in Hne. rewrite Hne. reflexivity.
  - destruct (String.eqb k' k0) eqn:E; cbn [dict_get].
    + apply String.eqb_eq in E. subst k0.
      apply String.eqb_neq in Hne. rewrite Hne. reflexivity.
    + rewrite IH. reflexivity.
Qed.

(** What the two backfills leave in the record. *)
Lemma ensure_common_fields_spec rec :
  dict_get "amount" (ensure_common_fields rec)
  = Some (match dict_get "amount" rec with
          | Some v => v
          | None => VFloat 0
          end)
  /\ dict_get "event_type" (ensure_common_fields rec)
     = Some (match dict_get "event_type" rec with
             | Some v => v
             | None => VStr "event"
             end).
Proof.
  unfold ensure_common_fields, dict_mem.
  destruct (dict_get "amount" rec) as [a|] eqn:Ea; cbn [negb].
  - destruct (dict_get "event_type" rec) as [t|] eqn:Et; cbn [negb].
    + rewrite Ea, Et. auto.
    + rewrite dict_get_set_same, dict_get_set_other, Ea by discriminate. auto.
  - rewrite (dict_get_set_other "event_type" "amount") by discriminate.
    destruct (dict_get "event_type" rec) as [t|] eqn:Et; cbn [negb].
    + rewrite dict_get_set_same, dict_get_set_other, Et by discriminate. auto.
    + rewrite dict_get_set_same, dict_get_set_other, dict_get_set_same
        by discriminate. auto.
Qed.

(** C1 (as amended).  For a day the factories accept, one of the five
    sources, [0 <= count < 2^53] events and [events_per_file >= 1], the
    writer returns, and the directory of the partition (empty before the
    call) then holds exactly [max(1, ceil(count / events_per_file))] files:
    the ceiling for a positive count, and one (empty) file for a count of
    zero. *)
Theorem write_partition_file_count day_str source out_dir count
    events_per_file (w : World G U) :
  day_ok day_str -> In source SOURCES ->
  0 <= count < 2 ^ 53 -> 1 <= events_per_file ->
  files_in (out_dir // ("day=" +++ day_str) // ("source=" +++ source))
    (files w) = [] ->
  exists base w',
    write_partition day_str source out_dir count events_per_file w
    = Ok (base, w')
    /\ base = out_dir // ("day=" +++ day_str) // ("source=" +++ source)
    /\ Z.of_nat (length (files_in base (files w')))
       = Z.max 1 (ceil_div count events_per_file).
Proof.
  intros Hday Hsrc Hcount Hepf Hempty.
  destruct (n_files_small count events_per_file Hcount Hepf) as (q & Eq & Hq).
  destruct (write_partition_total day_str source out_dir count events_per_file
              q w Hday Hsrc Eq) as (base & w' & Hrun).
  exists base, w'. split; [exact Hrun|].
  unfold write_partition in Hrun. apply write_partition_with_ok in Hrun.
  destruct Hrun as (Hbase & q' & contents & Eq' & Hc & _ & Hf & _).
  assert (q' = q) by congruence. subst q'. split; [exact Hbase|].
  rewrite <- Hbase in Hempty.
  apply Forall2_length in Hc. rewrite part_counts_length in Hc.
  rewrite Hf, partition_files by (try exact Hempty; lia).
  rewrite length_combine, length_map, range_length, <- Hc, Nat.min_id.
  rewrite Z2Nat.id by lia. exact Hq.
Qed.

(** Where the float quotient is exact ([count < 2^53]), the lines of the
    partition add up to [count]: every file but the last holds
    [events_per_file] lines and the last holds the rest. *)
Theorem write_partition_line_counts day_str source out_dir count
    events_per_file (w : World G U) :
  day_ok day_str -> In source SOURCES ->
  0 <= count < 2 ^ 53 -> 1 <= events_per_file ->
  files_in (out_dir // ("day=" +++ day_str) // ("source=" +++ source))
    (files w) = [] ->
  exists base w',
    write_partition day_str source out_dir count events_per_file w
    = Ok (base, w')
    /\ (let k := Z.max 1 (ceil_div count events_per_file) in
        map (fun x => Z.of_nat (length (snd x))) (files_in base (files w'))
        = repeat events_per_file (Z.to_nat (k - 1))
          ++ [count - (k - 1) * events_per_file])
    /\ lines_in base (files w') = count.
Proof.
  intros Hday Hsrc Hcount Hepf Hempty.
  destruct (n_files_small count events_per_file Hcount Hepf) as (q & Eq & Hq).
  destruct (write_partition_total day_str source out_dir count events_per_file
              q w Hday Hsrc Eq) as (base & w' & Hrun).
  exists base, w'. split; [exact Hrun|].
  unfold write_partition in Hrun. apply write_partition_with_ok in Hrun.
  destruct Hrun as (Hbase & q' & contents & Eq' & Hc & _ & Hf & _).
  assert (q' = q) by congruence. subst q'.
  rewrite <- Hbase in Hempty. rewrite Hq in *.
  pose proof (n_files_bounds count events_per_file ltac:(lia) Hepf) as Hk.
  cbv zeta in Hk.
  set (k := Z.max 1 (ceil_div count events_per_file)) in *.
  assert (Hk1 : 1 <= k) by (unfold k; lia).
  assert (Ek : Z.to_nat k = S (Z.to_nat (k - 1))) by lia.
  assert (Hshape : part_counts (Z.to_nat k) events_per_file count
                   = repeat events_per_file (Z.to_nat (k - 1))
                     ++ [count - (k - 1) * events_per_file]).
  { rewrite Ek, part_counts_shape by (rewrite ?Nat2Z.inj_succ, ?Z2Nat.id; lia).
    rewrite Z2Nat.id by lia. reflexivity. }
  assert (Hlen : length contents = Z.to_nat k).
  { apply Forall2_length in Hc. rewrite part_counts_length in Hc. lia. }
  assert (Hlines : map (fun x => Z.of_nat (length (snd x)))
                     (files_in base (files w'))
                   = part_counts (Z.to_nat k) events_per_file count).
  { rewrite Hf, partition_files by assumption.
    rewrite <- (map_map snd (fun c => Z.of_nat (length c))).
    rewrite map_snd_combine by (rewrite length_map, range_length; lia).
    apply Forall2_lengths; [exact Hc|].
    rewrite Hshape. apply Forall_app. split.
    - apply Forall_forall. intros c Hin. apply repeat_spec in Hin. lia.
    - constructor; [lia | constructor]. }
  split.
  - cbv zeta. rewrite Hlines. exact Hshape.
  - unfold lines_in. rewrite Hlines, Ek.
    apply part_counts_sum; rewrite ?Nat2Z.inj_succ, ?Z2Nat.id; lia.
Qed.

(** C4.  Every record the writer serializes carries [amount] and
    [event_type]: a file of the file system after a call either is as it
    was before, or each of its lines is a record of the factory of the
    source with its own [amount] and [event_type] when it has them, and with
    [0.0] and ["event"] filled in when it has not. *)
Theorem writer_backfills_common_fields (gens : factories G U) day_str source
    out_dir count events_per_file (w : World G U) base w' :
  write_partition_with gens day_str source out_dir count events_per_file w
  = Ok (base, w') ->
  forall p lines,
    fs_read p (files w') = Some lines ->
    fs_read p (files w) = Some lines
    \/ Forall
         (fun line =>
            exists gen rec r r',
              gens source = Some gen /\ gen day_str r = Ok (rec, r')
              /\ dict_get "amount" line
                 = Some (match dict_get "amount" rec with
                         | Some v => v
                         | None => VFloat 0
                         end)
              /\ dict_get "event_type" line
                 = Some (match dict_get "event_type" rec with
                         | Some v => v
                         | None => VStr "event"
                         end))
         lines.
Proof.
  intros Hrun p lines Hread.
  apply write_partition_with_ok in Hrun.
  destruct Hrun as (_ & q & contents & _ & _ & Hall & Hf & _).
  rewrite Hf in Hread.
  match type of Hread with fs_read p (fs_write_all ?ws ?fs) = _ =>
    destruct (fs_read_write_all p ws fs) as [Heq | (c & Hin & Hc)]
  end.
  - left. rewrite <- Heq. exact Hread.
  - right. rewrite Hc in Hread. injection Hread as <-.
    apply in_combine_parts in Hin. destruct Hin as [_ Hin].
    rewrite Forall_forall in Hall. specialize (Hall c Hin).
    eapply Forall_impl; [|exact Hall].
    intros line (gen & rec & r & r' & Hg & Hgen & ->).
    destruct (ensure_common_fields_spec rec) as [Ha Ht].
    exists gen, rec, r, r'. auto.
Qed.

(** C6.  For a day and a source written without a slash, the writer returns
    the directory [<out>/day=<day>/source=<source>] with the day exactly as
    given, makes it, and touches no file but
    [<out>/day=<day>/source=<source>/part-<i, five digits>.json], of which
    [part-00000.json] exists afterwards. *)
Theorem write_partition_paths (gens : factories G U) day_str source out_dir
    count events_per_file (w : World G U) base w' :
  contains_char "/" day_str = false -> contains_char "/" source = false ->
  write_partition_with gens day_str source out_dir count events_per_file w
  = Ok (base, w') ->
  base = out_dir ++ ["day=" +++ day_str; "source=" +++ source]
  /\ In base (dirs w')
  /\ fs_read (base ++ ["part-00000.json"]) (files w') <> None
  /\ forall p,
       fs_read p (files w') = fs_read p (files w)
       \/ exists i,
            0 <= i
            /\ p = out_dir ++ ["day=" +++ day_str; "source=" +++ source;
                               "part-" +++ zfill_int 5 i +++ ".json"].
Proof.
  intros Hday Hsrc Hrun.
  apply write_partition_with_ok in Hrun.
  destruct Hrun as (Hbase & q & contents & _ & Hc & _ & Hf & Hd).
  rewrite partition_dir_parts in Hbase by assumption.
  apply Forall2_length in Hc. rewrite part_counts_length in Hc.
  set (k := Z.max 1 (math_ceil q)) in *.
  split; [exact Hbase|]. split; [|split].
  - rewrite Hd. destruct (in_dec (list_eq_dec string_dec) base (dirs w));
      [assumption | apply in_or_app; right; left; reflexivity].
  - rewrite Hf. apply fs_read_written.
    rewrite map_fst_combine by (rewrite length_map, range_length; lia).
    apply in_map_iff. exists 0. split; [apply path_join_part|].
    apply in_range_iff. unfold k. lia.
  - intros p. rewrite Hf.
    match goal with |- fs_read p (fs_write_all ?ws ?fs) = _ \/ _ =>
      destruct (fs_read_write_all p ws fs) as [Heq | (c & Hin & _)]
    end; [left; exact Heq|].
    right. apply in_combine_parts in Hin.
    destruct Hin as [(i & Hi & ->) _]. exists i. split; [lia|].
    rewrite Hbase, <- app_assoc. reflexivity.
Qed.

End WriterClaims.

(** * The claims about the record factories *)

Section FactoryClaims.

Context {G U : Type} `{RandomG : Random G} `{UuidU : UuidSource U}.

Lemma triple_partial {S A : Type} (m : M S A) (Q : A -> Prop) s a s' :
  triple True m Q -> m s = Ok (a, s') -> Q a.
Proof. intros H E. specialize (H s). rewrite E in H. exact H. Qed.

(** C5 (as amended).  On every payments record, an [ach_debit] has a
    negative amount and an [ach_credit] a positive one.  On every billing
    record, a [refund_issued] has for amount the negated [amount_paid]: it
    is never positive, and it is negative when the status is [paid] or
    [refunded] (on an [open] or [overdue] invoice on which nothing was paid
    it is zero). *)
Theorem amount_sign_conventions :
  (forall day_str (r : Rand G U) rec r',
      gen_payments day_str r = Ok (rec, r') ->
      (dict_get "event_type" rec = Some (VStr "ach_debit") ->
       exists a, dict_get "amount" rec = Some (VFloat a) /\ (a < 0)%Q)
      /\ (dict_get "event_type" rec = Some (VStr "ach_credit") ->
          exists a, dict_get "amount" rec = Some (VFloat a) /\ (0 < a)%Q))
  /\ (forall day_str (r : Rand G U) rec r',
         gen_billing day_str r = Ok (rec, r') ->
         dict_get "event_type" rec = Some (VStr "refund_issued") ->
         exists a paid status,
           dict_get "amount" rec = Some (VFloat a)
           /\ dict_get "amount_paid" rec = Some (VFloat paid)
           /\ dict_get "status" rec = Some (VStr status)
           /\ a = (- paid)%Q /\ (a <= 0)%Q
           /\ (status = "paid" \/ status = "refunded" -> (a < 0)%Q)).
Proof.
  split.
  - intros day_str r rec r' Hrun.
    pose proof (gen_payments_spec True day_str (or_introl I)) as Hspec.
    apply (triple_partial _ _ _ _ _ Hspec Hrun).
  - intros day_str r rec r' Hrun.
    pose proof (gen_billing_spec True day_str (or_introl I)) as Hspec.
    apply (triple_partial _ _ _ _ _ Hspec Hrun).
Qed.

(** C9.  Every record of [gen_erp] has the event type [gl_posting]; its
    amount is positive; and of [debit] and [credit] one equals the amount
    (so is not zero) and the other is [0.0]. *)
Theorem gen_erp_one_sided day_str (r : Rand G U) rec r' :
  gen_erp day_str r = Ok (rec, r') ->
  dict_get "event_type" rec = Some (VStr "gl_posting")
  /\ exists amt debit credit,
       dict_get "amount" rec = Some (VFloat amt)
       /\ dict_get "debit" rec = Some (VFloat debit)
       /\ dict_get "credit" rec = Some (VFloat credit)
       /\ (0 < amt)%Q /\ ~ (amt == 0)%Q
       /\ ((debit = amt /\ credit = 0%Q) \/ (debit = 0%Q /\ credit = amt)).
Proof.
  intros Hrun.
  pose proof (gen_erp_spec True day_str (or_introl I)) as Hspec.
  destruct (triple_partial _ _ _ _ _ Hspec Hrun)
    as (Het & amt & debit & credit & Ha & Hd & Hc & Hpos & Hside).
  split; [exact Het|]. exists amt, debit, credit.
  repeat split; try assumption.
  intros Hz. rewrite Hz in Hpos. apply (Qlt_irrefl 0), Hpos.
Qed.

(** C10.  On every card record of [gen_payments] ([card_auth] or
    [card_settlement]) the decline reason is not null exactly when the
    status is [failed], and the approval code is null exactly when the
    status is [failed]; so the two are never both null nor both set. *)
Theorem card_approval_xor_decline day_str (r : Rand G U) rec r' :
  gen_payments day_str r = Ok (rec, r') ->
  dict_get "event_type" rec = Some (VStr "card_auth")
  \/ dict_get "event_type" rec = Some (VStr "card_settlement") ->
  exists status approval_code decline_reason,
    dict_get "status" rec = Some (VStr status)
    /\ dict_get "approval_code" rec = Some approval_code
    /\ dict_get "decline_reason" rec = Some decline_reason
    /\ (decline_reason <> VNull <-> status = "failed")
    /\ (approval_code = VNull <-> status = "failed")
    /\ ~ (approval_code = VNull /\ decline_reason = VNull)
    /\ ~ (approval_code <> VNull /\ decline_reason <> VNull).
Proof.
  intros Hrun Hcard.
  pose proof (gen_payments_spec True day_str (or_introl I)) as Hspec.
  destruct (triple_partial _ _ _ _ _ Hspec Hrun) as [_ Hcodes].
  destruct (Hcodes Hcard) as (status & ac & dr & Hs & Hac & Hdr & Hd & Ha).
  exists status, ac, dr. repeat split; try assumption; try tauto.
Qed.

End FactoryClaims.

(** * The claims about the driver *)

Section DriverClaims.


End DriverClaims.

(** ** The days of a run *)

Section DriverDays.

Context {G U : Type} `{RandomG : Random G} `{UuidU : UuidSource U}.

Lemma day_string_no_slash n : contains_char "/" (day_string n) = false.
Proof.
  unfold day_string. destruct (ord2ymd n) as [[y m] d]. unfold strftime.
  rewrite !contains_char_append, !zfill_int_no_slash. reflexivity.
Qed.

(** The day string of an ordinal in range parses back to that ordinal. *)
Lemma strptime_day_string n :
  1 <= n <= MAXORDINAL ->
  exists t, strptime (day_string n) = Ok t /\ toordinal t = n.
Proof.
  intros Hn. unfold day_string.
  destruct (ord2ymd n) as [[y m] d] eqn:Eo.
  destruct (ord2ymd_spec _ _ _ _ Hn Eo) as [Hv Hord].
  eexists. split.
  - apply (strptime_strftime (DT y m d 0 0 0)). exact Hv.
  - exact Hord.
Qed.

(** Going [d] days back from a day moves the ordinal by [d]. *)
Lemma day_back_ok day t d :
  strptime day = Ok t -> 1 <= toordinal t - d <= MAXORDINAL ->
  day_back day d = Ok (day_string (toordinal t - d)).
Proof.
  intros Ht Hr. unfold day_back. rewrite Ht.
  destruct (strptime_valid _ _ Ht) as (_ & Hh & Hm & Hs).
  unfold dt_add. rewrite Hh, Hm, Hs.
  change ((0 * 3600 + 0 * 60 + 0 + 0) / 86400) with 0.
  change ((0 * 3600 + 0 * 60 + 0 + 0) mod 86400) with 0.
  replace (toordinal t + - d + 0) with (toordinal t - d) by lia.
  replace ((0 <? toordinal t - d) && (toordinal t - d <=? MAXORDINAL))
    with true.
  2:{ symmetry. apply andb_true_intro.
      split; [apply Z.ltb_lt | apply Z.leb_le]; lia. }
  unfold day_string. destruct (ord2ymd (toordinal t - d)) as [[y m] dd].
  reflexivity.
Qed.

Lemma day_string_ok n :
  1 <= n -> n + 30 <= MAXORDINAL -> day_ok (day_string n).
Proof.
  intros H1 H30.
  destruct (strptime_day_string n) as (t & Ht & Ho); [unfold MAXORDINAL in *; lia|].
  exists t. split; [exact Ht | lia].
Qed.

Lemma grows_same_files (w w' : World G U) :
  files w' = files w -> grows [] w w'.
Proof.
  intros E. unfold grows. rewrite E. repeat split; auto.
  intros dir [].
Qed.

Lemma grows_trans ds1 ds2 (w w1 w2 : World G U) :
  grows ds1 w w1 -> grows ds2 w1 w2 -> grows (ds1 ++ ds2) w w2.
Proof.
  intros (Hk1 & Hn1 & He1) (Hk2 & Hn2 & He2). repeat split.
  - intros p Hp. apply Hk2, Hk1, Hp.
  - intros p Hp. destruct (Hn2 p Hp) as [Hp1 | Hin].
    + destruct (Hn1 p Hp1) as [Hp0 | Hin]; [left; exact Hp0|].
      right. apply in_or_app. left. exact Hin.
    + right. apply in_or_app. right. exact Hin.
  - intros dir Hin. apply in_app_or in Hin. destruct Hin as [Hin | Hin].
    + destruct (He1 dir Hin) as (p & Hp & Hpar).
      exists p. split; [apply Hk2, Hp | exact Hpar].
    + apply He2, Hin.
Qed.

Lemma for_each_grows {A : Type} (xs : list A) (body : A -> IO G U unit)
    (dirs_of : A -> list Path) :
  (forall x w, In x xs ->
               exists w', body x w = Ok (tt, w') /\ grows (dirs_of x) w w') ->
  forall w, exists w',
      for_each xs body w = Ok (tt, w') /\ grows (flat_map dirs_of xs) w w'.
Proof.
  induction xs as [|x xs IH]; intros Hbody w; cbn [for_each flat_map].
  - exists w. split; [reflexivity | apply grows_same_files; reflexivity].
  - destruct (Hbody x w (or_introl eq_refl)) as (w1 & Hx & Hg1).
    destruct (IH (fun y w0 Hy => Hbody y w0 (or_intror Hy)) w1)
      as (w2 & Hxs & Hg2).
    exists w2. split.
    + unfold bind. rewrite Hx. exact Hxs.
    + eapply grows_trans; eassumption.
Qed.

(** One call of the writer from the driver. *)
Lemma write_partition_grows day_str source out_dir n events_per_file
    (w : World G U) :
  day_ok day_str -> contains_char "/" day_str = false ->
  In source SOURCES -> 0 <= n < 2 ^ 53 -> 1 <= events_per_file ->
  exists base w',
    write_partition day_str source out_dir n events_per_file w = Ok (base, w')
    /\ grows [out_dir ++ ["day=" +++ day_str; "source=" +++ source]] w w'.
Proof.
  intros Hday Hslash Hsrc Hn Hepf.
  destruct (n_files_small n events_per_file Hn Hepf) as (q & Eq & _).
  destruct (write_partition_total day_str source out_dir n events_per_file
              q w Hday Hsrc Eq) as (base & w' & Hrun).
  exists base, w'. split; [exact Hrun|].
  unfold write_partition in Hrun. apply write_partition_with_ok in Hrun.
  destruct Hrun as (Hbase & q' & contents & _ & Hc & _ & Hf & _).
  assert (Hsrc_slash : contains_char "/" source = false).
  { unfold SOURCES in Hsrc. cbn [In] in Hsrc.
    destruct Hsrc as [<- | [<- | [<- | [<- | [<- | []]]]]]; reflexivity. }
  rewrite partition_dir_parts in Hbase by assumption. rewrite <- Hbase.
  apply Forall2_length in Hc. rewrite part_counts_length in Hc.
  unfold grows. rewrite Hf. repeat split.
  - intros p Hp. apply fs_read_kept, Hp.
  - intros p Hp.
    match type of Hp with fs_read p (fs_write_all ?ws ?fs) <> None =>
      destruct (fs_read_write_all p ws fs) as [Heq | (c & Hin & _)]
    end.
    + left. rewrite <- Heq. exact Hp.
    + right. left. apply in_combine_parts in Hin.
      destruct Hin as [(i & _ & ->) _]. symmetry. apply removelast_last.
  - intros dir [<- | []]. exists (base // part_name 0). split.
    + apply fs_read_written.
      rewrite map_fst_combine by (rewrite length_map, range_length; lia).
      apply in_map_iff. exists 0. split; [reflexivity|].
      apply in_range_iff. lia.
    + apply parent_join_part.
Qed.

Lemma allocation_small T idx :
  0 <= T < 2 ^ 53 -> 0 <= allocation T idx < 2 ^ 53.
Proof.
  change (2 ^ 53) with 9007199254740992. intros HT.
  unfold allocation, per_source. change (Z.of_nat (length SOURCES)) with 5.
  pose proof (Z.div_mod T 5 ltac:(discriminate)) as Hdm.
  pose proof (Z.mod_pos_bound T 5 ltac:(reflexivity)) as Hb.
  destruct (idx <? remainder T); lia.
Qed.

Lemma source_enumerated source :
  In source SOURCES -> exists idx, In (idx, source) (enumerate SOURCES).
Proof.
  change (enumerate SOURCES)
    with [(0, "payments"); (1, "billing"); (2, "crm"); (3, "erp");
          (4, "support")].
  unfold SOURCES. cbn [In].
  intros [<- | [<- | [<- | [<- | [<- | []]]]]]; eexists; cbn [In]; eauto 10.
Qed.

Lemma in_day_partitions out_dir day_str dir :
  In dir (day_partitions out_dir day_str)
  <-> exists source,
        In source SOURCES
        /\ dir = out_dir ++ ["day=" +++ day_str; "source=" +++ source].
Proof.
  unfold day_partitions. rewrite in_flat_map. split.
  - intros ([idx source] & Hin & [<- | []]). exists source.
    split; [|reflexivity]. apply in_combine_r in Hin. exact Hin.
  - intros (source & Hsrc & ->).
    destruct (source_enumerated source Hsrc) as [idx Hidx].
    exists (idx, source). split; [exact Hidx | left; reflexivity].
Qed.

(** C7.  For an end day [D] that parses, [N >= 0] days that stay in the
    years from 1000 on (where [%Y] gives four digits on every platform, so
    that the day string of each day parses again), and a run the writer can
    carry out ([D] at most 9999-12-01, [0 <= total < 2^53],
    [events_per_file >= 1]), the driver returns, and from an empty file
    system the directories that hold files afterwards are exactly
    [<out>/day=<day>/source=<source>] for the five sources and the [N] day
    strings of the dates [D], [D] minus 1 day, ..., [D] minus [N-1] days:
    each of these strings parses back to the date whose ordinal is that of
    [D] minus [d]. *)
Theorem main_partitions_consecutive_days args (w : World G U) t :
  strptime (arg_day args) = Ok t ->
  0 <= arg_days args <= toordinal t - ymd2ord 999 12 31 ->
  toordinal t + 30 <= MAXORDINAL ->
  0 <= arg_total_events args < 2 ^ 53 ->
  1 <= arg_events_per_file args ->
  files w = [] ->
  exists w',
    main args w = Ok (tt, w')
    /\ (forall dir,
           (exists p, fs_read p (files w') <> None /\ parent p = dir)
           <-> exists d source,
                 0 <= d < arg_days args /\ In source SOURCES
                 /\ dir = path_of_string (arg_out args)
                          ++ ["day=" +++ day_string (toordinal t - d);
                              "source=" +++ source])
    /\ (forall d,
           0 <= d < arg_days args ->
           exists t', strptime (day_string (toordinal t - d)) = Ok t'
                      /\ toordinal t' = toordinal t - d).
Proof.
  intros Ht Hyears Hmax Htotal Hepf Hempty.
  assert (Hdays : 0 <= arg_days args <= toordinal t).
  { assert (0 <= ymd2ord 999 12 31) by (vm_compute; discriminate). lia. }
  clear Hyears.
  pose proof (toordinal_range t (strptime_wf _ _ Ht)) as Hord.
  set (out_dir := path_of_string (arg_out args)).
  assert (Hbody : forall d (w0 : World G U),
             In d (range (arg_days args)) ->
             exists w1,
               (day_str <- lift (day_back (arg_day args) d) ;;
                _ <- for_each (enumerate SOURCES) (fun '(idx, source) =>
                       let n := allocation (arg_total_events args) idx in
                       _ <- write_partition day_str source out_dir n
                              (arg_events_per_file args) ;;
                       ret tt) ;;
                print (SUMMARY_MARK +++ " Generated ~"
                       +++ str_int (arg_total_events args)
                       +++ " events for " +++ day_str +++ " under "
                       +++ path_str out_dir)) w0 = Ok (tt, w1)
               /\ grows (day_partitions out_dir
                           (day_string (toordinal t - d))) w0 w1).
  { intros d w0 Hd. apply in_range_iff in Hd.
    assert (Hr : 1 <= toordinal t - d <= MAXORDINAL) by lia.
    unfold bind at 1. unfold lift. rewrite (day_back_ok _ t d Ht Hr).
    set (day_str := day_string (toordinal t - d)).
    assert (Hok : day_ok day_str) by (apply day_string_ok; lia).
    match goal with
    | |- exists w2, bind (for_each ?xs ?f) ?k w0 = _ /\ _ =>
        destruct (for_each_grows xs f
                    (fun x => [out_dir ++ ["day=" +++ day_str;
                                           "source=" +++ snd x]]))
          with (w := w0) as (w1 & Hloop & Hg)
    end.
    { intros [idx source] w2 Hin. apply in_combine_r in Hin. cbv zeta.
      destruct (write_partition_grows day_str source out_dir
                  (allocation (arg_total_events args) idx)
                  (arg_events_per_file args) w2 Hok
                  (day_string_no_slash _) Hin
                  (allocation_small _ idx Htotal) Hepf)
        as (base & w3 & Hrun & Hg).
      exists w3. unfold bind. rewrite Hrun. split; [reflexivity | exact Hg]. }
    unfold bind at 1. rewrite Hloop. unfold print. eexists.
    split; [reflexivity|].
    destruct Hg as (Hk & Hn & He). unfold grows. cbn [files].
    repeat split; assumption. }
  destruct (for_each_grows (range (arg_days args)) _
              (fun d => day_partitions out_dir (day_string (toordinal t - d)))
              Hbody
              {| rand := rand w;
                 dirs := if in_dec (list_eq_dec string_dec) out_dir (dirs w)
                         then dirs w else dirs w ++ [out_dir];
                 files := files w; stdout := stdout w |})
    as (w' & Hrun & Hk & Hn & He).
  exists w'. split; [|split].
  - unfold main, bind, mkdir_p. fold out_dir. exact Hrun.
  - intros dir. split.
    + intros (p & Hp & <-). destruct (Hn p Hp) as [Hold | Hin].
      * cbn [files] in Hold. rewrite Hempty in Hold. contradiction Hold.
        reflexivity.
      * apply in_flat_map in Hin. destruct Hin as (d & Hd & Hin).
        apply in_range_iff in Hd. apply in_day_partitions in Hin.
        destruct Hin as (source & Hsrc & Hdir). eauto.
    + intros (d & source & Hd & Hsrc & ->). apply He.
      apply in_flat_map. exists d. split; [apply in_range_iff, Hd|].
      apply in_day_partitions. eauto.
  - intros d Hd. apply strptime_day_string. lia.
Qed.

End DriverDays.

(** * Two runs from the same seed *)

Section Simulation.

Context {S : Type} (RS : S -> S -> Prop).

Lemma sim_ret {A : Type} (RA : A -> A -> Prop) a1 a2 :
  RA a1 a2 -> sim RS RA (ret a1) (ret a2).
Proof. intros H s1 s2 Hs. cbn. auto. Qed.

Lemma sim_raise {A : Type} (RA : A -> A -> Prop) e :
  sim RS RA (raise e) (raise e).
Proof. intros s1 s2 Hs. reflexivity. Qed.

Lemma sim_lift {A : Type} (r : result A) :
  sim RS eq (lift r) (lift r).
Proof. intros s1 s2 Hs. unfold lift. destruct r; cbn; auto. Qed.

Lemma sim_bind {A B : Type} (RA : A -> A -> Prop) (RB : B -> B -> Prop)
    (m1 m2 : M S A) (f1 f2 : A -> M S B) :
  sim RS RA m1 m2 ->
  (forall a1 a2, RA a1 a2 -> sim RS RB (f1 a1) (f2 a2)) ->
  sim RS RB (bind m1 f1) (bind m2 f2).
Proof.
  intros Hm Hf s1 s2 Hs. unfold bind. specialize (Hm s1 s2 Hs).
  unfold agree in Hm.
  destruct (m1 s1) as [[a1 s1'] | e1], (m2 s2) as [[a2 s2'] | e2];
    try contradiction.
  - destruct Hm as [Ha Hs']. apply Hf; assumption.
  - exact Hm.
Qed.

Lemma sim_bind_eq {A B : Type} (RB : B -> B -> Prop) (m : M S A)
    (f1 f2 : A -> M S B) :
  sim RS eq m m -> (forall a, sim RS RB (f1 a) (f2 a)) ->
  sim RS RB (bind m f1) (bind m f2).
Proof.
  intros Hm Hf. eapply sim_bind; [exact Hm|]. intros a1 a2 <-. apply Hf.
Qed.

Lemma sim_weaken {A : Type} (RA RA' : A -> A -> Prop) (m1 m2 : M S A) :
  sim RS RA m1 m2 -> (forall a1 a2, RA a1 a2 -> RA' a1 a2) ->
  sim RS RA' m1 m2.
Proof.
  intros Hm HR s1 s2 Hs. specialize (Hm s1 s2 Hs). unfold agree in *.
  destruct (m1 s1) as [[a1 s1'] | e1], (m2 s2) as [[a2 s2'] | e2]; try tauto.
  destruct Hm. auto.
Qed.

Lemma sim_replicateM {A : Type} (RA : A -> A -> Prop) (m1 m2 : M S A) n :
  sim RS RA m1 m2 ->
  sim RS (Forall2 RA) (replicateM n m1) (replicateM n m2).
Proof.
  intros Hm. induction n as [|n IH]; cbn [replicateM].
  - apply sim_ret. constructor.
  - eapply sim_bind; [exact Hm|]. intros a1 a2 Ha.
    eapply sim_bind; [exact IH|]. intros l1 l2 Hl.
    apply sim_ret. constructor; assumption.
Qed.

Lemma sim_replicateM_eq {A : Type} (m : M S A) n :
  sim RS eq m m -> sim RS eq (replicateM n m) (replicateM n m).
Proof.
  intros Hm. induction n as [|n IH]; cbn [replicateM].
  - apply sim_ret. reflexivity.
  - apply sim_bind_eq; [exact Hm|]. intros a.
    apply sim_bind_eq; [exact IH|]. intros l. apply sim_ret. reflexivity.
Qed.

Lemma sim_for_each {A : Type} (xs : list A) (f1 f2 : A -> M S unit) :
  (forall x, sim RS eq (f1 x) (f2 x)) ->
  sim RS eq (for_each xs f1) (for_each xs f2).
Proof.
  intros Hf. induction xs as [|x xs IH]; cbn [for_each].
  - apply sim_ret. reflexivity.
  - eapply sim_bind; [apply Hf|]. intros _ _ _. exact IH.
Qed.

Lemma sim_for_fold {A V : Type} (xs : list A) (f1 f2 : A -> V -> M S V) :
  (forall x v, sim RS eq (f1 x v) (f2 x v)) ->
  forall v, sim RS eq (for_fold xs f1 v) (for_fold xs f2 v).
Proof.
  intros Hf. induction xs as [|x xs IH]; intros v; cbn [for_fold].
  - apply sim_ret. reflexivity.
  - eapply sim_bind; [apply Hf|]. intros v1 v2 <-. apply IH.
Qed.

End Simulation.

Section SameSeedFactories.

Context {G U : Type} `{RandomG : Random G} `{UuidU : UuidSource U}.

Local Abbreviation same_rng := (@same_rng G U) (only parsing).
Local Abbreviation same_seed := (@same_seed G U) (only parsing).
Local Abbreviation det := (@det G U _) (only parsing).

Lemma det_ret {A : Type} (a : A) : det (ret a).
Proof. apply sim_ret. reflexivity. Qed.

Lemma det_raise {A : Type} e : det (raise (A := A) e).
Proof. apply sim_raise. Qed.

Lemma det_lift {A : Type} (r : result A) : det (lift r).
Proof. apply sim_lift. Qed.

Lemma det_bind {A B : Type} (m : Gen G U A) (f : A -> Gen G U B) :
  det m -> (forall a, det (f a)) -> det (bind m f).
Proof. intros Hm Hf. apply sim_bind_eq; assumption. Qed.

Lemma det_with_rng {A : Type} (f : G -> A * G) : det (with_rng f).
Proof.
  intros r1 r2 Hr. unfold with_rng, same_rng in *. rewrite Hr.
  destruct (f (rng r2)) as [a g]. cbn. auto.
Qed.

Lemma sim_uuid4_str : sim same_rng (fun _ _ => True) uuid4_str uuid4_str.
Proof.
  intros r1 r2 Hr. unfold uuid4_str, with_entropy, same_rng in *.
  destruct (uuid4 (entropy r1)) as [a1 u1].
  destruct (uuid4 (entropy r2)) as [a2 u2]. cbn. auto.
Qed.

Lemma det_replicateM {A : Type} (m : Gen G U A) n :
  det m -> det (replicateM n m).
Proof. apply sim_replicateM_eq. Qed.

(** Follow the structure of a computation that draws from the generator
    only. *)
Ltac det_tac :=
  repeat first
    [ apply det_ret
    | apply det_raise
    | apply det_lift
    | apply det_with_rng
    | apply det_replicateM
    | apply det_bind; [|intros]
    | match goal with
      | |- det (if ?c then _ else _) => destruct c
      | |- det (match ?x with _ => _ end) => destruct x
      end ].

Lemma det_randint a b : det (randint a b).
Proof. unfold randint. det_tac. Qed.

Lemma det_choice {A : Type} (xs : list A) : det (choice xs).
Proof. unfold choice. det_tac. Qed.

Lemma det_choices1 {A : Type} (population : list A) weights :
  det (choices1 population weights).
Proof. unfold choices1, py_random. det_tac. Qed.

Lemma det_rand_amount lo hi purchase : det (rand_amount lo hi purchase).
Proof. unfold rand_amount, uniform, py_random. det_tac. Qed.

Lemma det_rand_ts day_str : det (rand_ts_for_day day_str).
Proof. unfold rand_ts_for_day. det_tac; try apply det_randint. Qed.

Lemma det_random_digit : det random_digit.
Proof. unfold random_digit. det_tac; try apply det_randint. Qed.

Lemma det_nine_digits : det nine_digits.
Proof. unfold nine_digits. det_tac; try apply det_random_digit. Qed.

Lemma det_pan_last4 : det pan_last4.
Proof. unfold pan_last4. det_tac; try apply det_random_digit. Qed.

Lemma det_swift_bic : det swift_bic.
Proof. unfold swift_bic. det_tac; try apply det_choice. Qed.

Lemma det_mask_iban : det mask_iban.
Proof. unfold mask_iban. det_tac; try apply det_choice. Qed.

Lemma det_dict_item k d : det (dict_item k d).
Proof. unfold dict_item. det_tac. Qed.

Lemma scrub_cons k v rec : scrub ((k, v) :: rec) = (k, scrub_value k v) :: scrub rec.
Proof. reflexivity. Qed.

Lemma scrub_app rec1 rec2 : scrub (rec1 ++ rec2) = scrub rec1 ++ scrub rec2.
Proof. apply map_app. Qed.

Lemma scrub_dict_set k v d :
  scrub (dict_set k v d) = dict_set k (scrub_value k v) (scrub d).
Proof.
  induction d as [|[k' v'] d IH]; cbn [dict_set scrub map fst snd];
    [reflexivity|].
  destruct (String.eqb k k'); cbn [scrub map fst snd]; [reflexivity|].
  fold (scrub d). fold (scrub (dict_set k v d)). rewrite IH. reflexivity.
Qed.

Lemma scrub_dict_display base items :
  scrub (dict_display base items) = dict_display (scrub base) (scrub items).
Proof.
  unfold dict_display. revert base.
  induction items as [|[k v] items IH]; intros base;
    cbn [fold_left scrub map fst snd]; [reflexivity|].
  fold (scrub items). rewrite IH, scrub_dict_set. reflexivity.
Qed.

Lemma dict_get_scrub k d :
  dict_get k (scrub d) = option_map (scrub_value k) (dict_get k d).
Proof.
  induction d as [|[k' v'] d IH]; cbn [scrub map fst snd dict_get];
    [reflexivity|].
  destruct (String.eqb k k') eqn:E.
  - apply String.eqb_eq in E. subst k'. reflexivity.
  - exact IH.
Qed.

Lemma dict_mem_scrub k d : dict_mem k (scrub d) = dict_mem k d.
Proof.
  unfold dict_mem. rewrite dict_get_scrub.
  destruct (dict_get k d); reflexivity.
Qed.

Lemma same_rec_ensure rec1 rec2 :
  same_rec rec1 rec2 ->
  same_rec (ensure_common_fields rec1) (ensure_common_fields rec2).
Proof.
  unfold same_rec. intros H.
  assert (Hmem : forall k d1 d2,
             scrub d1 = scrub d2 -> dict_mem k d1 = dict_mem k d2).
  { intros k d1 d2 E. rewrite <- (dict_mem_scrub k d1), E.
    apply dict_mem_scrub. }
  assert (H1 : scrub (if negb (dict_mem "amount" rec1)
                      then dict_set "amount" (VFloat 0) rec1 else rec1)
               = scrub (if negb (dict_mem "amount" rec2)
                        then dict_set "amount" (VFloat 0) rec2 else rec2)).
  { rewrite (Hmem "amount" rec1 rec2 H).
    destruct (dict_mem "amount" rec2); cbn [negb]; [exact H|].
    rewrite !scrub_dict_set, H. reflexivity. }
  unfold ensure_common_fields.
  rewrite (Hmem "event_type" _ _ H1).
  match goal with
  | |- scrub (if ?c then _ else _) = _ => destruct c
  end; [|exact H1].
  rewrite !scrub_dict_set, H1. reflexivity.
Qed.

(** One turn of a factory, on both runs. *)
Ltac sstep :=
  first
    [ apply sim_bind_eq;
      [ first [ apply det_randint | apply det_choice | apply det_choices1
              | apply det_rand_amount | apply det_rand_ts
              | apply det_nine_digits | apply det_pan_last4
              | apply det_swift_bic | apply det_mask_iban
              | apply det_dict_item | apply det_lift ]
      | intros ? ]
    | eapply sim_bind; [apply sim_uuid4_str | intros ? ? _] ].

Ltac same_rec_tac :=
  apply sim_ret; unfold same_rec;
  rewrite ?scrub_dict_display, ?scrub_app, ?scrub_cons.

Lemma sim_base_record day_str source :
  sim same_rng same_rec (base_record day_str source)
    (base_record day_str source).
Proof.
  unfold base_record. repeat sstep. same_rec_tac. reflexivity.
Qed.

Lemma sim_merchant : sim same_rng same_rec merchant merchant.
Proof.
  unfold merchant. repeat sstep. same_rec_tac. reflexivity.
Qed.

Lemma sim_gen_payments day_str :
  sim same_rng same_rec (gen_payments day_str) (gen_payments day_str).
Proof.
  unfold gen_payments.
  eapply sim_bind; [apply sim_base_record|]. intros b1 b2 Hb.
  sstep. sstep.
  match goal with |- sim _ _ (if ?c then _ else _) _ => destruct c end.
  { eapply sim_bind; [apply sim_merchant|]. intros m1 m2 Hm.
    do 5 sstep.
    eapply sim_bind
      with (RA := fun a1 a2 => scrub_value "approval_code" a1
                               = scrub_value "approval_code" a2).
    { match goal with |- sim _ _ (if ?c then _ else _) _ => destruct c end.
      - sstep. apply sim_ret. reflexivity.
      - apply sim_ret. reflexivity. }
    intros ac1 ac2 Hac.
    apply sim_bind_eq.
    { match goal with |- sim _ _ (if ?c then _ else _) _ => destruct c end;
        det_tac; apply det_choice. }
    intros dr. same_rec_tac. unfold same_rec in Hb, Hm.
    rewrite Hb, Hm, Hac. reflexivity. }
  match goal with |- sim _ _ (if ?c then _ else _) _ => destruct c end.
  { repeat sstep. same_rec_tac. unfold same_rec in Hb. rewrite Hb.
    reflexivity. }
  match goal with |- sim _ _ (if ?c then _ else _) _ => destruct c end.
  { repeat sstep. same_rec_tac. unfold same_rec in Hb. rewrite Hb.
    reflexivity. }
  repeat sstep. same_rec_tac. unfold same_rec in Hb. rewrite Hb.
  reflexivity.
Qed.

Lemma sim_gen_billing day_str :
  sim same_rng same_rec (gen_billing day_str) (gen_billing day_str).
Proof.
  unfold gen_billing.
  eapply sim_bind; [apply sim_base_record|]. intros b1 b2 Hb.
  do 6 sstep.
  apply sim_bind_eq.
  { match goal with |- sim _ _ (if ?c then _ else _) _ => destruct c end;
      det_tac; apply det_choice. }
  intros paid. repeat sstep. same_rec_tac. unfold same_rec in Hb.
  rewrite Hb. reflexivity.
Qed.

Lemma sim_gen_crm day_str :
  sim same_rng same_rec (gen_crm day_str) (gen_crm day_str).
Proof.
  unfold gen_crm.
  eapply sim_bind; [apply sim_base_record|]. intros b1 b2 Hb.
  repeat sstep. same_rec_tac. unfold same_rec in Hb. rewrite Hb.
  reflexivity.
Qed.

Lemma sim_gen_erp day_str :
  sim same_rng same_rec (gen_erp day_str) (gen_erp day_str).
Proof.
  unfold gen_erp.
  eapply sim_bind; [apply sim_base_record|]. intros b1 b2 Hb.
  repeat sstep. same_rec_tac. unfold same_rec in Hb. rewrite Hb.
  reflexivity.
Qed.

Lemma sim_gen_support day_str :
  sim same_rng same_rec (gen_support day_str) (gen_support day_str).
Proof.
  unfold gen_support.
  eapply sim_bind; [apply sim_base_record|]. intros b1 b2 Hb.
  repeat sstep. same_rec_tac. unfold same_rec in Hb. rewrite Hb.
  reflexivity.
Qed.

(** From the same generator state, a factory of the table gives the same
    record but for the text of its uuid-derived fields, and leaves the same
    generator state. *)
Lemma factories_same_seed source gen day_str :
  GEN_BY_SOURCE source = Some gen ->
  sim same_rng same_rec (gen day_str) (gen day_str).
Proof.
  unfold GEN_BY_SOURCE.
  repeat match goal with
         | |- (if ?c then _ else _) = _ -> _ => destruct c
         end;
    intros [= <-];
    first [ apply sim_gen_payments | apply sim_gen_billing
          | apply sim_gen_crm | apply sim_gen_erp | apply sim_gen_support ].
Qed.

(** *** The whole script *)

Lemma sim_run_gen {A : Type} (RA : A -> A -> Prop) (m1 m2 : Gen G U A) :
  sim same_rng RA m1 m2 -> sim same_seed RA (run_gen m1) (run_gen m2).
Proof.
  intros Hm w1 w2 (Hr & Hd & Hf & Hs). unfold run_gen.
  specialize (Hm (rand w1) (rand w2) Hr). unfold agree in *.
  destruct (m1 (rand w1)) as [[a1 r1] | e1], (m2 (rand w2)) as [[a2 r2] | e2];
    try contradiction; [|exact Hm].
  destruct Hm as [Ha Hr']. split; [exact Ha|].
  unfold same_seed. cbn. auto.
Qed.

Lemma scrub_fs_write p c1 c2 fs1 fs2 :
  map scrub c1 = map scrub c2 -> scrub_fs fs1 = scrub_fs fs2 ->
  scrub_fs (fs_write p c1 fs1) = scrub_fs (fs_write p c2 fs2).
Proof.
  intros Hc. revert fs2.
  induction fs1 as [|[p1 l1] fs1 IH]; intros [|[p2 l2] fs2] Hfs;
    cbn [scrub_fs map fst snd] in Hfs; try discriminate;
    cbn [fs_write scrub_fs map fst snd].
  - rewrite Hc. reflexivity.
  - injection Hfs as <- Hl Hrest.
    destruct (list_eq_dec string_dec p p1); cbn [scrub_fs map fst snd].
    + rewrite Hc. f_equal. exact Hrest.
    + rewrite Hl. f_equal. apply IH. exact Hrest.
Qed.

Lemma sim_mkdir_p p : sim same_seed eq (mkdir_p p) (mkdir_p p).
Proof.
  intros w1 w2 (Hr & Hd & Hf & Hs). cbn. split; [reflexivity|].
  unfold same_seed. cbn. rewrite Hd. auto.
Qed.

Lemma sim_print msg : sim same_seed eq (print msg) (print msg).
Proof.
  intros w1 w2 (Hr & Hd & Hf & Hs). cbn. split; [reflexivity|].
  unfold same_seed. cbn. rewrite Hs. auto.
Qed.

Lemma sim_write_file p c1 c2 :
  map scrub c1 = map scrub c2 ->
  sim same_seed eq (write_file p c1) (write_file p c2).
Proof.
  intros Hc w1 w2 (Hr & Hd & Hf & Hs). cbn. split; [reflexivity|].
  unfold same_seed. cbn. repeat split; try assumption.
  apply scrub_fs_write; assumption.
Qed.

Lemma Forall2_same_rec l1 l2 :
  Forall2 same_rec l1 l2 -> map scrub l1 = map scrub l2.
Proof.
  induction 1 as [|r1 r2 l1 l2 Hr _ IH]; cbn [map]; [reflexivity|].
  unfold same_rec in Hr. rewrite Hr, IH. reflexivity.
Qed.

Lemma sim_write_partition day_str source out_dir n_events events_per_file :
  sim same_seed eq
    (write_partition day_str source out_dir n_events events_per_file)
    (write_partition day_str source out_dir n_events events_per_file).
Proof.
  unfold write_partition, write_partition_with.
  eapply sim_bind; [apply sim_mkdir_p|]. intros _ _ _.
  apply sim_bind_eq; [apply sim_lift|]. intros q.
  eapply sim_bind.
  - apply sim_for_fold. intros i remaining. unfold write_part.
    eapply sim_bind.
    { apply sim_replicateM with (RA := same_rec). unfold gen_line.
      destruct (GEN_BY_SOURCE source) as [gen|] eqn:Eg; [|apply sim_raise].
      eapply sim_bind.
      - apply sim_run_gen. eapply factories_same_seed. exact Eg.
      - intros r1 r2 Hr. apply sim_ret. apply same_rec_ensure, Hr. }
    intros l1 l2 Hl.
    eapply sim_bind; [apply sim_write_file, Forall2_same_rec, Hl|].
    intros _ _ _.
    eapply sim_bind; [apply sim_print|]. intros _ _ _.
    apply sim_ret. reflexivity.
  - intros _ _ _. apply sim_ret. reflexivity.
Qed.

Lemma sim_main args : sim same_seed eq (main args) (main args).
Proof.
  unfold main.
  eapply sim_bind; [apply sim_mkdir_p|]. intros _ _ _.
  apply sim_for_each. intros d.
  apply sim_bind_eq; [apply sim_lift|]. intros day_str.
  eapply sim_bind.
  - apply sim_for_each. intros [idx source]. cbv zeta.
    eapply sim_bind; [apply sim_write_partition|]. intros _ _ _.
    apply sim_ret. reflexivity.
  - intros _ _ _. apply sim_print.
Qed.

Lemma scrub_value_other k v : ~ In k UUID_FIELDS -> scrub_value k v = v.
Proof.
  intros Hk. unfold scrub_value.
  destruct (existsb (String.eqb k) UUID_FIELDS) eqn:E; [|reflexivity].
  exfalso. apply existsb_exists in E. destruct E as (k' & Hin & Heq).
  apply String.eqb_eq in Heq. subst k'. contradiction.
Qed.

(** What two records that agree after blanking have in common: the keys in
    their order, and the value of every field that is not uuid-derived. *)
Lemma same_rec_fields rec1 rec2 :
  same_rec rec1 rec2 ->
  map fst rec1 = map fst rec2
  /\ forall k, ~ In k UUID_FIELDS -> dict_get k rec1 = dict_get k rec2.
Proof.
  unfold same_rec. intros H. split.
  - apply (f_equal (map fst)) in H. unfold scrub in H.
    rewrite !map_map in H. exact H.
  - intros k Hk.
    pose proof (dict_get_scrub k rec1) as H1.
    pose proof (dict_get_scrub k rec2) as H2.
    rewrite H in H1. rewrite H1 in H2.
    destruct (dict_get k rec1) as [v1|], (dict_get k rec2) as [v2|];
      cbn [option_map] in H2; try discriminate; [|reflexivity].
    rewrite !scrub_value_other in H2 by exact Hk. exact H2.
Qed.

(** C8 (as amended).  Two runs of the script with the same arguments, from
    the same state of the seeded generator (and the same files, directories
    and console), raise the same exception or both return; they then leave
    the generator in the same state, the same directories and console
    output, and the same files with the same records, but for the text of
    the fields cut from [uuid.uuid4()] ([event_id], [merchant_id],
    [approval_code], [trace_number], [invoice_id], [ticket_id]), which the
    seed does not reach. *)
Theorem same_seed_same_output_up_to_uuids args (w1 w2 : World G U) :
  rng (rand w1) = rng (rand w2) ->
  dirs w1 = dirs w2 ->
  scrub_fs (files w1) = scrub_fs (files w2) ->
  stdout w1 = stdout w2 ->
  match main args w1, main args w2 with
  | Ok (_, w1'), Ok (_, w2') =>
      rng (rand w1') = rng (rand w2')
      /\ dirs w1' = dirs w2'
      /\ scrub_fs (files w1') = scrub_fs (files w2')
      /\ stdout w1' = stdout w2'
  | Err e1, Err e2 => e1 = e2
  | _, _ => False
  end.
Proof.
  intros Hr Hd Hf Hs.
  pose proof (sim_main args w1 w2 (conj Hr (conj Hd (conj Hf Hs)))) as H.
  unfold agree in H.
  destruct (main args w1) as [[[] w1'] | e1], (main args w2) as [[[] w2'] | e2];
    try contradiction; [|exact H].
  destruct H as [_ H]. exact H.
Qed.

End SameSeedFactories.

(** * The generator at concrete inputs *)

Section ConcreteRuns.

Import Scripted Inputs.

Lemma day_ok_2024_01_01 : day_ok "2024-01-01".
Proof.
  exists (DT 2024 1 1 0 0 0). split; [reflexivity | vm_compute; discriminate].
Qed.

Lemma crm_is_a_source : In "crm" SOURCES.
Proof. right; right; left; reflexivity. Qed.

(** Three events, at most two per file: two files. *)
Lemma write_partition_file_count_witness :
  exists base w',
    write_partition "2024-01-01" "crm" ["data"; "raw"] 3 2 (world [] [])
    = Ok (base, w')
    /\ base = ["data"; "raw"] // ("day=" +++ "2024-01-01") // ("source=" +++ "crm")
    /\ Z.of_nat (length (files_in base (files w'))) = Z.max 1 (ceil_div 3 2).
Proof.
  apply (write_partition_file_count "2024-01-01" "crm" ["data"; "raw"] 3 2
           (world [] [])).
  - exact day_ok_2024_01_01.
  - exact crm_is_a_source.
  - split; [lia | reflexivity].
  - lia.
  - reflexivity.
Defined.

(** No event at all: the writer still makes one (empty) file, where the
    ceiling of [0 / 1] is zero. *)
Lemma write_partition_zero_events_one_file :
  exists base w',
    write_partition "2024-01-01" "crm" ["data"; "raw"] 0 1 (world [] [])
    = Ok (base, w')
    /\ files_in base (files w')
       = [(["data"; "raw"; "day=2024-01-01"; "source=crm"; "part-00000.json"],
           [])]
    /\ Z.of_nat (length (files_in base (files w'))) <> ceil_div 0 1.
Proof.
  eexists. eexists. split; [vm_compute; reflexivity|].
  split; [reflexivity|]. vm_compute. discriminate.
Qed.

Lemma failing_quotient :
  true_div (2 ^ 53 + 1) (2 ^ 53) = Ok (F64 (2 ^ 52) (-52)).
Proof. vm_compute. reflexivity. Qed.

(** When the float quotient rounds down to one file although more events
    than fit in one file were asked for, the events beyond the first file
    are never written. *)
Lemma one_file_keeps_one_file_of_events count events_per_file q
    (w : World (list Z) (list string)) :
  0 < events_per_file < count ->
  true_div count events_per_file = Ok q -> Z.max 1 (math_ceil q) = 1 ->
  files_in (["data"; "raw"] // ("day=" +++ "2024-01-01")
                            // ("source=" +++ "crm")) (files w) = [] ->
  exists base w',
    write_partition "2024-01-01" "crm" ["data"; "raw"] count events_per_file w
    = Ok (base, w')
    /\ map (fun x => Z.of_nat (length (snd x))) (files_in base (files w'))
       = [events_per_file]
    /\ lines_in base (files w') = events_per_file.
Proof.
  intros Hlt Hq Hfiles Hempty.
  destruct (write_partition_total "2024-01-01" "crm" ["data"; "raw"] count
              events_per_file q w day_ok_2024_01_01 crm_is_a_source Hq)
    as (base & w' & Hrun).
  exists base, w'. split; [exact Hrun|].
  unfold write_partition in Hrun. apply write_partition_with_ok in Hrun.
  destruct Hrun as (Hbase & q' & contents & Eq & Hc & _ & Hf & _).
  assert (q' = q) by congruence. subst q'.
  rewrite <- Hbase in Hempty.
  rewrite Hfiles in Hc, Hf.
  change (Z.to_nat 1) with 1%nat in Hc.
  cbn [part_counts] in Hc. rewrite Z.min_l in Hc by lia.
  assert (Hone : exists lines,
             contents = [lines] /\ length lines = Z.to_nat events_per_file).
  { inversion Hc as [|? lines ? rest Hlen Hrest]. inversion Hrest. eauto. }
  destruct Hone as (lines & -> & Hlen).
  assert (Hin : files_in base (files w')
                = [(base // part_name 0, lines)]).
  { rewrite Hf. apply (partition_files base 1 [lines]);
      [reflexivity | exact Hempty]. }
  split.
  - rewrite Hin. cbn [map snd]. rewrite Hlen, Z2Nat.id by lia. reflexivity.
  - unfold lines_in. rewrite Hin. cbn [map snd sum_Z fold_right].
    rewrite Hlen, Z2Nat.id by lia. lia.
Qed.

(** C2 (the code at the failing input).  Asked for [2^53 + 1] events with at
    most [2^53] per file, the writer makes one file of [2^53] lines and
    returns: the float quotient rounds to [1.0], so the one event left over
    is never written, where two files and [2^53 + 1] lines were due. *)
Theorem write_partition_drops_remainder (g : list Z) (u : list string) :
  exists base w',
    write_partition "2024-01-01" "crm" ["data"; "raw"] (2 ^ 53 + 1) (2 ^ 53)
      (world g u) = Ok (base, w')
    /\ map (fun x => Z.of_nat (length (snd x))) (files_in base (files w'))
       = [2 ^ 53]
    /\ lines_in base (files w') = 2 ^ 53
    /\ ceil_div (2 ^ 53 + 1) (2 ^ 53) = 2.
Proof.
  destruct (one_file_keeps_one_file_of_events (2 ^ 53 + 1) (2 ^ 53)
              (F64 (2 ^ 52) (-52)) (world g u))
    as (base & w' & Hrun & Hcounts & Hlines).
  - split; reflexivity.
  - exact failing_quotient.
  - vm_compute. reflexivity.
  - reflexivity.
  - exists base, w'. repeat split; try assumption.
Qed.

Lemma writer_backfills_common_fields_witness :
  fs_read ["out"; "day=2024-01-01"; "source=audit"; "part-00000.json"]
    (files (world [] []))
  = Some [[("note", VStr "bare"); ("amount", VFloat 0);
           ("event_type", VStr "event")]]
  \/ Forall
       (fun line =>
          exists gen rec r r',
            bare_factories "audit" = Some gen
            /\ gen "2024-01-01" r = Ok (rec, r')
            /\ dict_get "amount" line
               = Some (match dict_get "amount" rec with
                       | Some v => v
                       | None => VFloat 0
                       end)
            /\ dict_get "event_type" line
               = Some (match dict_get "event_type" rec with
                       | Some v => v
                       | None => VStr "event"
                       end))
       [[("note", VStr "bare"); ("amount", VFloat 0);
         ("event_type", VStr "event")]].
Proof.
  eapply (writer_backfills_common_fields bare_factories "2024-01-01" "audit"
            ["out"] 1 1 (world [] [])).
  - vm_compute. reflexivity.
  - vm_compute. reflexivity.
Defined.

Lemma write_partition_paths_witness :
  exists base w',
    write_partition "2024-01-01" "crm" ["data"; "raw"] 3 2 (world [] [])
    = Ok (base, w')
    /\ base = ["data"; "raw"] ++ ["day=" +++ "2024-01-01"; "source=" +++ "crm"]
    /\ In base (dirs w')
    /\ fs_read (base ++ ["part-00000.json"]) (files w') <> None
    /\ forall p,
         fs_read p (files w') = fs_read p (files (world [] []))
         \/ exists i,
              0 <= i
              /\ p = ["data"; "raw"]
                     ++ ["day=" +++ "2024-01-01"; "source=" +++ "crm";
                         "part-" +++ zfill_int 5 i +++ ".json"].
Proof.
  eexists. eexists. split; [vm_compute; reflexivity|].
  eapply (write_partition_paths GEN_BY_SOURCE "2024-01-01" "crm"
            ["data"; "raw"] 3 2 (world [] [])).
  - reflexivity.
  - reflexivity.
  - vm_compute. reflexivity.
Defined.

Lemma amount_sign_conventions_witness :
  (exists rec r',
      gen_payments "2024-01-01" ach_debit_draws = Ok (rec, r')
      /\ dict_get "event_type" rec = Some (VStr "ach_debit")
      /\ exists a, dict_get "amount" rec = Some (VFloat a) /\ (a < 0)%Q)
  /\ (exists rec r',
         gen_billing "2024-01-01" paid_refund_draws = Ok (rec, r')
         /\ dict_get "event_type" rec = Some (VStr "refund_issued")
         /\ exists a paid status,
              dict_get "amount" rec = Some (VFloat a)
              /\ dict_get "amount_paid" rec = Some (VFloat paid)
              /\ dict_get "status" rec = Some (VStr status)
              /\ a = (- paid)%Q /\ (a <= 0)%Q
              /\ (status = "paid" \/ status = "refunded" -> (a < 0)%Q)).
Proof.
  split.
  - eexists. eexists. split; [vm_compute; reflexivity|].
    split; [reflexivity|].
    eapply (proj1 amount_sign_conventions "2024-01-01" ach_debit_draws).
    + vm_compute. reflexivity.
    + reflexivity.
  - eexists. eexists. split; [vm_compute; reflexivity|].
    split; [reflexivity|].
    eapply (proj2 amount_sign_conventions "2024-01-01" paid_refund_draws).
    + vm_compute. reflexivity.
    + reflexivity.
Defined.

(** A billing refund whose amount is not negative. *)
Lemma refund_on_unpaid_invoice_is_zero :
  exists rec r',
    gen_billing "2024-01-01" unpaid_refund_draws = Ok (rec, r')
    /\ dict_get "event_type" rec = Some (VStr "refund_issued")
    /\ dict_get "status" rec = Some (VStr "open")
    /\ exists a, dict_get "amount" rec = Some (VFloat a) /\ ~ (a < 0)%Q.
Proof.
  eexists. eexists. split; [vm_compute; reflexivity|].
  split; [reflexivity|]. split; [reflexivity|].
  eexists. split; [reflexivity|]. vm_compute. discriminate.
Qed.

Lemma gen_erp_one_sided_witness :
  exists rec r',
    gen_erp "2024-01-01" erp_draws = Ok (rec, r')
    /\ dict_get "event_type" rec = Some (VStr "gl_posting")
    /\ exists amt debit credit,
         dict_get "amount" rec = Some (VFloat amt)
         /\ dict_get "debit" rec = Some (VFloat debit)
         /\ dict_get "credit" rec = Some (VFloat credit)
         /\ (0 < amt)%Q /\ ~ (amt == 0)%Q
         /\ ((debit = amt /\ credit = 0%Q) \/ (debit = 0%Q /\ credit = amt)).
Proof.
  eexists. eexists. split; [vm_compute; reflexivity|].
  eapply (gen_erp_one_sided "2024-01-01" erp_draws).
  vm_compute. reflexivity.
Defined.

Lemma card_approval_xor_decline_witness :
  exists rec r',
    gen_payments "2024-01-01" failed_card_draws = Ok (rec, r')
    /\ exists status approval_code decline_reason,
         dict_get "status" rec = Some (VStr status)
         /\ dict_get "approval_code" rec = Some approval_code
         /\ dict_get "decline_reason" rec = Some decline_reason
         /\ (decline_reason <> VNull <-> status = "failed")
         /\ (approval_code = VNull <-> status = "failed")
         /\ ~ (approval_code = VNull /\ decline_reason = VNull)
         /\ ~ (approval_code <> VNull /\ decline_reason <> VNull).
Proof.
  eexists. eexists. split; [vm_compute; reflexivity|].
  eapply (card_approval_xor_decline "2024-01-01" failed_card_draws).
  - vm_compute. reflexivity.
  - left. reflexivity.
Defined.

Lemma main_partitions_consecutive_days_witness :
  exists w',
    main scenario_args (world [] []) = Ok (tt, w')
    /\ forall dir,
         (exists p, fs_read p (files w') <> None /\ parent p = dir)
         <-> exists day source,
               In day ["2024-01-03"; "2024-01-02"; "2024-01-01"]
               /\ In source SOURCES
               /\ dir = ["data"; "raw"; "day=" +++ day; "source=" +++ source].
Proof.
  destruct (main_partitions_consecutive_days scenario_args (world [] [])
              (DT 2024 1 3 0 0 0))
    as (w' & Hrun & Hiff & _).
  - reflexivity.
  - vm_compute. split; discriminate.
  - vm_compute. discriminate.
  - vm_compute. split; [discriminate | reflexivity].
  - vm_compute. discriminate.
  - reflexivity.
  - exists w'. split; [exact Hrun|]. intros dir. rewrite Hiff. split.
    + intros (d & source & Hd & Hsrc & ->).
      assert (C : d = 0 \/ d = 1 \/ d = 2) by (cbn in Hd; lia).
      destruct C as [-> | [-> | ->]].
      * exists "2024-01-03", source. cbn [In]. auto.
      * exists "2024-01-02", source. cbn [In]. auto.
      * exists "2024-01-01", source. cbn [In]. auto 6.
    + intros (day & source & Hday & Hsrc & ->). cbn [In] in Hday.
      destruct Hday as [<- | [<- | [<- | []]]].
      * exists 0, source.
        split; [vm_compute; split; [discriminate | reflexivity]|].
        split; [exact Hsrc | reflexivity].
      * exists 1, source.
        split; [vm_compute; split; [discriminate | reflexivity]|].
        split; [exact Hsrc | reflexivity].
      * exists 2, source.
        split; [vm_compute; split; [discriminate | reflexivity]|].
        split; [exact Hsrc | reflexivity].
Defined.

Lemma same_seed_same_output_up_to_uuids_witness :
  match main one_event_args first_run, main one_event_args second_run with
  | Ok (_, w1'), Ok (_, w2') =>
      rng (rand w1') = rng (rand w2')
      /\ dirs w1' = dirs w2'
      /\ scrub_fs (files w1') = scrub_fs (files w2')
      /\ stdout w1' = stdout w2'
  | Err e1, Err e2 => e1 = e2
  | _, _ => False
  end.
Proof.
  apply (same_seed_same_output_up_to_uuids one_event_args first_run
           second_run); reflexivity.
Defined.

(** The same seed, the same arguments, the same calls: the records of the
    two runs differ (in their [event_id]). *)
Lemma same_seed_different_records :
  rng (rand first_run) = rng (rand second_run)
  /\ exists w1' w2' rec1 rec2,
       main one_event_args first_run = Ok (tt, w1')
       /\ main one_event_args second_run = Ok (tt, w2')
       /\ fs_read ["out"; "day=2024-01-01"; "source=payments";
                   "part-00000.json"] (files w1') = Some [rec1]
       /\ fs_read ["out"; "day=2024-01-01"; "source=payments";
                   "part-00000.json"] (files w2') = Some [rec2]
       /\ dict_get "event_id" rec1
          = Some (VStr "11111111-1111-4111-8111-111111111111")
       /\ dict_get "event_id" rec2
          = Some (VStr "22222222-2222-4222-8222-222222222222")
       /\ rec1 <> rec2.
Proof.
  split; [reflexivity|].
  do 4 eexists.
  split; [vm_compute; reflexivity|].
  split; [vm_compute; reflexivity|].
  split; [vm_compute; reflexivity|].
  split; [vm_compute; reflexivity|].
  split; [reflexivity|]. split; [reflexivity|].
  intros H. discriminate H.
Qed.

End ConcreteRuns.

(** * Further properties of the generator *)

(** ** Dates and day strings *)

Section CalendarRoundTrip.

Ltac cal_cbn :=
  cbn [DAYS_BEFORE_MONTH DAYS_IN_MONTH Z.eqb Z.ltb Z.compare Pos.compare
       Pos.compare_cont Pos.eqb andb] in *.

Lemma days_before_year_mono a b :
  1 <= a <= b -> days_before_year a <= days_before_year b.
Proof.
  intros H. unfold days_before_year. cbv zeta.
  Z.div_mod_to_equations. lia.
Qed.

Lemma days_before_year_succ y :
  1 <= y ->
  days_before_year (y + 1)
  = days_before_year y + 365 + (if is_leap y then 1 else 0).
Proof.
  intros H. unfold days_before_year, is_leap. cbv zeta.
  replace (y + 1 - 1) with y by lia.
  destruct (y mod 4 =? 0) eqn:E4; destruct (y mod 100 =? 0) eqn:E100;
    destruct (y mod 400 =? 0) eqn:E400; cbn [negb andb orb];
    rewrite ?Z.eqb_eq, ?Z.eqb_neq in *;
    Z.div_mod_to_equations; lia.
Qed.

Lemma day_of_year_range y m d :
  valid_date y m d = true ->
  1 <= days_before_month y m + d <= 365 + (if is_leap y then 1 else 0).
Proof.
  unfold valid_date, days_before_month, days_in_month. intros H.
  repeat (apply andb_prop in H; destruct H as [H ?]).
  rewrite ?Z.leb_le in *.
  assert (Hm : m = 1 \/ m = 2 \/ m = 3 \/ m = 4 \/ m = 5 \/ m = 6 \/ m = 7
               \/ m = 8 \/ m = 9 \/ m = 10 \/ m = 11 \/ m = 12) by lia.
  destruct (is_leap y);
    repeat (destruct Hm as [-> | Hm]); try subst m; cal_cbn; lia.
Qed.

Lemma day_of_year_inj y m1 d1 m2 d2 :
  valid_date y m1 d1 = true -> valid_date y m2 d2 = true ->
  days_before_month y m1 + d1 = days_before_month y m2 + d2 ->
  m1 = m2 /\ d1 = d2.
Proof.
  unfold valid_date, days_before_month, days_in_month. intros H1 H2.
  repeat (apply andb_prop in H1; destruct H1 as [H1 ?]).
  repeat (apply andb_prop in H2; destruct H2 as [H2 ?]).
  rewrite ?Z.leb_le in *.
  assert (Hm1 : m1 = 1 \/ m1 = 2 \/ m1 = 3 \/ m1 = 4 \/ m1 = 5 \/ m1 = 6
                \/ m1 = 7 \/ m1 = 8 \/ m1 = 9 \/ m1 = 10 \/ m1 = 11
                \/ m1 = 12) by lia.
  assert (Hm2 : m2 = 1 \/ m2 = 2 \/ m2 = 3 \/ m2 = 4 \/ m2 = 5 \/ m2 = 6
                \/ m2 = 7 \/ m2 = 8 \/ m2 = 9 \/ m2 = 10 \/ m2 = 11
                \/ m2 = 12) by lia.
  destruct (is_leap y);
    repeat (destruct Hm1 as [-> | Hm1]); try subst m1;
    repeat (destruct Hm2 as [-> | Hm2]); try subst m2;
    cal_cbn; lia.
Qed.

Lemma ymd2ord_inj y1 m1 d1 y2 m2 d2 :
  valid_date y1 m1 d1 = true -> valid_date y2 m2 d2 = true ->
  ymd2ord y1 m1 d1 = ymd2ord y2 m2 d2 ->
  y1 = y2 /\ m1 = m2 /\ d1 = d2.
Proof.
  intros H1 H2 E. unfold ymd2ord in E.
  pose proof (day_of_year_range _ _ _ H1) as R1.
  pose proof (day_of_year_range _ _ _ H2) as R2.
  pose proof (valid_date_bounds _ _ _ H1) as (Y1 & _).
  pose proof (valid_date_bounds _ _ _ H2) as (Y2 & _).
  assert (y1 = y2) as <-.
  { destruct (Z.lt_trichotomy y1 y2) as [L | [L | L]]; [|exact L|]; exfalso.
    - pose proof (days_before_year_succ y1 ltac:(lia)).
      pose proof (days_before_year_mono (y1 + 1) y2 ltac:(lia)). lia.
    - pose proof (days_before_year_succ y2 ltac:(lia)).
      pose proof (days_before_year_mono (y2 + 1) y1 ltac:(lia)). lia. }
  split; [reflexivity|].
  apply (day_of_year_inj y1); [assumption | assumption | lia].
Qed.

(** The ordinal of a date leads back to the date. *)
Lemma ord2ymd_ymd2ord y m d :
  valid_date y m d = true -> ord2ymd (ymd2ord y m d) = (y, m, d).
Proof.
  intros H.
  pose proof (ymd2ord_range _ _ _ H) as R.
  destruct (ord2ymd (ymd2ord y m d)) as [[y' m'] d'] eqn:E.
  destruct (ord2ymd_spec _ _ _ _ R E) as [H' E'].
  destruct (ymd2ord_inj _ _ _ _ _ _ H' H E') as (-> & -> & ->).
  reflexivity.
Qed.

End CalendarRoundTrip.

(** ** The helpers of the record factories *)

Section HelperShapes.

Context {G U : Type} `{RandomG : Random G} `{UuidU : UuidSource U}.

Local Abbreviation triple := (@triple (Rand G U) _) (only parsing).

Lemma str_int_digit d :
  0 <= d <= 9 -> str_int d = String (digit_char d) EmptyString.
Proof.
  intros H. unfold str_int.
  replace (d <? 0) with false by (symmetry; apply Z.ltb_ge; lia).
  unfold zfill_int. cbn [Nat.add digits_fuel Nat.pred Nat.eqb].
  rewrite Z.mod_small, Z.div_small by lia. reflexivity.
Qed.

Lemma all_chars_append p s t :
  all_chars p (s +++ t) = all_chars p s && all_chars p t.
Proof.
  unfold all_chars. induction s as [|c s IH]; cbn; [reflexivity|].
  rewrite IH. apply andb_assoc.
Qed.

(** Joining one-character strings with the empty separator. *)
Lemma join_one_chars p xs :
  Forall (one_char p) xs ->
  String.length (join EmptyString xs) = length xs
  /\ all_chars p (join EmptyString xs) = true.
Proof.
  induction 1 as [|x xs (c & -> & Hc) Hxs [IHl IHp]].
  - split; reflexivity.
  - destruct xs as [|y ys].
    + cbn. unfold all_chars. cbn. rewrite Hc. split; reflexivity.
    + change (join EmptyString (String c EmptyString :: y :: ys))
        with (String c (join EmptyString (y :: ys))).
      split.
      * cbn [String.length length] in *. rewrite IHl. reflexivity.
      * unfold all_chars in *. cbn [list_ascii_of_string forallb].
        rewrite Hc, IHp. reflexivity.
Qed.

Lemma triple_random_digit_shape E :
  triple E random_digit (one_char is_digit).
Proof.
  unfold random_digit.
  eapply triple_bind; [apply triple_randint; lia|]. intros d Hd.
  cbv beta in Hd. apply triple_ret. exists (digit_char d).
  split; [apply str_int_digit, Hd | apply is_digit_char, Hd].
Qed.

(** [n] characters drawn one by one and joined. *)
Lemma triple_join_chars E p n (m : Gen G U string) :
  triple E m (one_char p) ->
  triple E (bind (replicateM n m) (fun xs => ret (join EmptyString xs)))
    (fun s => String.length s = n /\ all_chars p s = true).
Proof.
  intros Hm.
  eapply triple_bind; [apply triple_replicateM; exact Hm|].
  intros xs [Hl Hxs]. apply triple_ret.
  destruct (join_one_chars p xs Hxs) as [H1 H2]. split; congruence.
Qed.

Lemma triple_nine_digits_shape E :
  triple E nine_digits
    (fun s => String.length s = 9%nat /\ all_chars is_digit s = true).
Proof. apply triple_join_chars, triple_random_digit_shape. Qed.

Lemma triple_pan_last4_shape E :
  triple E pan_last4
    (fun s => String.length s = 4%nat /\ all_chars is_digit s = true).
Proof. apply triple_join_chars, triple_random_digit_shape. Qed.

Lemma triple_choice_char E (alphabet : string) p :
  alphabet <> EmptyString ->
  all_chars p alphabet = true ->
  triple E (choice (chars alphabet)) (one_char p).
Proof.
  intros Hne Hp.
  eapply triple_weaken.
  - apply triple_choice. destruct alphabet; [congruence | discriminate].
  - intros x Hx. unfold chars in Hx. apply in_map_iff in Hx.
    destruct Hx as (c & <- & Hc). exists c. split; [reflexivity|].
    unfold all_chars in Hp. rewrite forallb_forall in Hp. apply Hp, Hc.
Qed.

Lemma triple_swift_bic_shape E :
  triple E swift_bic
    (fun bic =>
       exists bank country branch,
         bic = bank +++ country +++ branch
         /\ String.length bank = 4%nat /\ all_chars is_upper bank = true
         /\ In country ["US"; "GB"; "DE"; "FR"; "CA"; "IN"; "AU"; "SG"]
         /\ String.length branch = 2%nat
         /\ all_chars is_upper_or_digit branch = true).
Proof.
  unfold swift_bic.
  eapply triple_bind.
  { apply triple_replicateM.
    apply (triple_choice_char E UPPER is_upper); [discriminate | reflexivity]. }
  intros bank [Hbl Hb].
  eapply triple_bind; [apply triple_choice; discriminate|].
  intros country Hc. cbv beta in Hc.
  eapply triple_bind.
  { apply triple_replicateM.
    apply (triple_choice_char E UPPER_DIGITS is_upper_or_digit);
      [discriminate | reflexivity]. }
  intros branch [Hrl Hr]. apply triple_ret.
  destruct (join_one_chars _ _ Hb) as [B1 B2].
  destruct (join_one_chars _ _ Hr) as [R1 R2].
  exists (join EmptyString bank), country, (join EmptyString branch).
  repeat split; try assumption; congruence.
Qed.

Lemma triple_mask_iban_shape E :
  triple E mask_iban
    (fun iban =>
       exists tail,
         iban = "****" +++ tail
         /\ String.length tail = 10%nat
         /\ all_chars is_upper_or_digit tail = true).
Proof.
  unfold mask_iban.
  eapply triple_bind.
  { apply triple_replicateM.
    apply (triple_choice_char E UPPER_DIGITS is_upper_or_digit);
      [discriminate | reflexivity]. }
  intros cs [Hl Hc]. apply triple_ret.
  destruct (join_one_chars _ _ Hc) as [C1 C2].
  exists (join EmptyString cs). repeat split; try assumption; congruence.
Qed.

End HelperShapes.

(** ** Amounts *)

Section Rounding.

(** [round_half_even num den] is an integer nearest to [num/den], and the
    even one of the two when [num/den] lies half way. *)
Lemma round_half_even_nearest num den :
  0 < den ->
  let r := round_half_even num den in
  2 * num - den <= 2 * den * r <= 2 * num + den
  /\ (2 * den * r = 2 * num + den -> Z.even r = true)
  /\ (2 * den * r = 2 * num - den -> Z.even r = true).
Proof.
  intros Hden. cbv zeta. unfold round_half_even.
  pose proof (Z.div_mod num den ltac:(lia)) as Hdm.
  pose proof (Z.mod_pos_bound num den Hden) as Hr.
  set (q := num / den) in *. set (m := num mod den) in *.
  destruct (2 * m <? den) eqn:E1; [apply Z.ltb_lt in E1 | apply Z.ltb_ge in E1].
  { repeat split; nia. }
  destruct (den <? 2 * m) eqn:E2; [apply Z.ltb_lt in E2 | apply Z.ltb_ge in E2].
  { repeat split; nia. }
  assert (Hm : 2 * m = den) by lia.
  destruct (Z.even q) eqn:Eq.
  - repeat split; try nia; intros _; exact Eq.
  - repeat split; try nia.
    intros _. rewrite Z.even_add, Eq. reflexivity.
Qed.

(** Rounding to the nearest keeps the order, also across denominators. *)
Lemma round_half_even_mono a b c d :
  0 < b -> 0 < d -> a * d <= c * b ->
  round_half_even a b <= round_half_even c d.
Proof.
  intros Hb Hd Hle.
  pose proof (round_half_even_nearest a b Hb) as (H1 & T1 & _).
  pose proof (round_half_even_nearest c d Hd) as (H2 & _ & T2).
  cbv zeta in *.
  set (r1 := round_half_even a b) in *. set (r2 := round_half_even c d) in *.
  destruct (Z_le_gt_dec r1 r2) as [L | L]; [exact L | exfalso].
  assert (Hbd : 0 < b * d) by nia.
  assert (U1 : 2 * (b * d) * r1 <= 2 * (c * b) + b * d) by nia.
  assert (L2 : 2 * (c * b) - b * d <= 2 * (b * d) * r2) by nia.
  assert (Er : r1 = r2 + 1) by nia.
  assert (E1 : 2 * b * r1 = 2 * a + b) by nia.
  assert (E2 : 2 * d * r2 = 2 * c - d) by nia.
  specialize (T1 E1). specialize (T2 E2).
  rewrite Er, Z.even_add, T2 in T1. discriminate.
Qed.

Lemma round2_mono x y : (x <= y)%Q -> (round2 x <= round2 y)%Q.
Proof.
  intros H. unfold round2, Qle in *. cbn [Qnum Qden] in *.
  assert (round_half_even (Qnum x * 100) (Z.pos (Qden x))
          <= round_half_even (Qnum y * 100) (Z.pos (Qden y))).
  { apply round_half_even_mono; lia. }
  lia.
Qed.

(** An amount in whole hundredths is left as it is. *)
Lemma round2_hundredths (c : Z) : round2 (c # 100) = c # 100.
Proof.
  unfold round2. cbn [Qnum Qden].
  rewrite round_half_even_exact by (try apply Z_mod_mult; lia).
  rewrite Z.div_mul by lia. reflexivity.
Qed.

Lemma round2_integer (n : Z) : (round2 (inject_Z n) == inject_Z n)%Q.
Proof.
  unfold round2, inject_Z, Qeq. cbn [Qnum Qden].
  rewrite round_half_even_exact by (try apply Z.mod_1_r; lia).
  rewrite Z.div_1_r. lia.
Qed.

End Rounding.

Section AmountRanges.

Context {G U : Type} `{RandomG : Random G} `{UuidU : UuidSource U}.

Local Abbreviation triple := (@triple (Rand G U) _) (only parsing).

Lemma triple_uniform_range E a b :
  (a <= b)%Q -> triple E (uniform a b) (fun x => (a <= x /\ x <= b)%Q).
Proof.
  intros Hab. unfold uniform.
  eapply triple_bind; [apply triple_py_random|]. intros u [Hu0 Hu1].
  apply triple_ret.
  assert (Hd : (0 <= b - a)%Q).
  { unfold Qminus. rewrite <- (Qplus_opp_r a).
    apply Qplus_le_compat; [exact Hab | apply Qle_refl]. }
  split.
  - rewrite <- (Qplus_0_r a) at 1.
    apply Qplus_le_compat; [apply Qle_refl|].
    apply Qmult_le_0_compat; assumption.
  - assert (Hm : ((b - a) * u <= (b - a) * 1)%Q).
    { rewrite !(Qmult_comm (b - a)).
      apply Qmult_le_compat_r; [apply Qlt_le_weak, Hu1 | exact Hd]. }
    apply Qle_trans with (a + (b - a) * 1)%Q.
    + apply Qplus_le_compat; [apply Qle_refl | exact Hm].
    + apply Qle_lteq. right. ring.
Qed.

(** [rand_amount(lo, hi)] lies between [round(lo, 2)] and [round(hi, 2)],
    and is a whole number of hundredths. *)
Lemma triple_rand_amount_range E lo hi :
  (lo <= hi)%Q ->
  triple E (rand_amount lo hi false)
    (fun amt => (round2 lo <= amt /\ amt <= round2 hi)%Q
                /\ exists cents, amt = cents # 100).
Proof.
  intros Hab. unfold rand_amount.
  eapply triple_bind; [apply triple_uniform_range; exact Hab|].
  intros x [Hx1 Hx2]. apply triple_ret.
  split; [split; apply round2_mono; assumption|].
  eexists. reflexivity.
Qed.

(** The same between two whole numbers. *)
Lemma triple_rand_amount_int E (lo hi : Z) :
  lo <= hi ->
  triple E (rand_amount (inject_Z lo) (inject_Z hi) false)
    (fun amt => (inject_Z lo <= amt /\ amt <= inject_Z hi)%Q
                /\ round2 amt = amt).
Proof.
  intros Hab. eapply triple_weaken.
  - apply triple_rand_amount_range. rewrite <- Zle_Qle. exact Hab.
  - intros amt [[H1 H2] [cents ->]]. cbv beta.
    rewrite round2_integer in H1, H2.
    split; [split; assumption | apply round2_hundredths].
Qed.

End AmountRanges.

(** ** What the factories put in a record *)

Section FactoryFields.

Context {G U : Type} `{RandomG : Random G} `{UuidU : UuidSource U}.

Local Abbreviation triple := (@triple (Rand G U) _) (only parsing).

(** Adding the seconds of a time of day to midnight stays on the date. *)
Lemma dt_add_seconds_on_day s day_str t :
  strptime day_str = Ok t -> 0 <= s <= 86399 ->
  exists ts, dt_add t 0 s = Ok ts /\ on_day t ts
             /\ hour ts * 3600 + minute ts * 60 + second ts = s.
Proof.
  intros Ht Hs.
  pose proof (strptime_valid _ _ Ht) as (Hv & Hh & Hm & Hsec).
  pose proof (toordinal_range t (strptime_wf _ _ Ht)) as Hord.
  unfold dt_add. rewrite Hh, Hm, Hsec. cbn [Z.mul Z.add].
  rewrite (Z.div_small s 86400), (Z.mod_small s 86400) by lia.
  rewrite !Z.add_0_r.
  replace ((0 <? toordinal t) && (toordinal t <=? MAXORDINAL)) with true
    by (symmetry; apply andb_true_intro; split;
        [apply Z.ltb_lt | apply Z.leb_le]; lia).
  unfold toordinal. rewrite (ord2ymd_ymd2ord _ _ _ Hv).
  eexists. split; [reflexivity|]. unfold on_day. cbn [year month day hour minute second].
  repeat split; try reflexivity; Z.div_mod_to_equations; lia.
Qed.

Lemma triple_rand_ts_day E day_str :
  E \/ parses day_str ->
  triple E (rand_ts_for_day day_str)
    (fun ts => exists t, strptime day_str = Ok t /\ on_day t ts).
Proof.
  intros Hday. unfold rand_ts_for_day.
  eapply triple_bind.
  - apply triple_lift with (Q := fun t => strptime day_str = Ok t).
    + intros t Ht. exact Ht.
    + intros e He. destruct Hday as [HE | [t Ht]]; [exact HE | congruence].
  - intros t Ht. cbv beta in Ht.
    eapply triple_bind; [apply triple_randint; lia|].
    intros s Hs. cbv beta in Hs.
    destruct (dt_add_seconds_on_day s day_str t Ht Hs) as (ts & -> & Hon & _).
    apply triple_lift_ok. eauto.
Qed.

Lemma triple_base_fields E day_str source :
  E \/ parses day_str ->
  triple E (base_record day_str source) (base_fields day_str source).
Proof.
  intros Hday. unfold base_record.
  eapply triple_bind; [apply triple_rand_ts_day; exact Hday|].
  intros ts (t & Ht & Hon).
  eapply triple_bind; [apply triple_uuid4_str|]. intros event_id _.
  eapply triple_bind; [apply triple_randint; lia|]. intros user_id Hu.
  cbv beta in Hu.
  eapply triple_bind; [apply triple_choice; discriminate|].
  intros currency Hc. cbv beta in Hc.
  destruct Hc as [<- | []].
  apply triple_ret. exists t, ts, event_id, user_id. auto.
Qed.

Lemma triple_merchant_fields E : triple E merchant merchant_fields.
Proof.
  unfold merchant.
  eapply triple_bind; [apply triple_choice; discriminate|].
  intros m Hm. cbv beta in Hm.
  eapply triple_bind; [apply triple_uuid4_str|]. intros merchant_id _.
  eapply triple_bind; [apply triple_choice; discriminate|].
  intros merchant_name Hn. cbv beta in Hn.
  eapply triple_bind; [apply triple_choice; discriminate|].
  intros merchant_country Hc. cbv beta in Hc.
  assert (Hshape : exists mcc category,
             m = [("mcc", mcc); ("category", category)]).
  { unfold MCCS in Hm. cbn [In] in Hm.
    repeat (destruct Hm as [<- | Hm]); try contradiction; eauto. }
  destruct Hshape as (mcc & category & ->).
  cbn [dict_item dict_get String.eqb Ascii.eqb Bool.eqb bind ret].
  intros s. cbn.
  exists merchant_id, merchant_name, merchant_country, mcc, category. auto.
Qed.

(** One turn of a factory: bind a library call or a helper, keep what it
    guarantees. *)
Ltac fstep :=
  eapply triple_bind;
  [ lazymatch goal with
    | |- triple _ (choice _) _ => apply triple_choice; discriminate
    | |- triple _ (randint _ _) _ => apply triple_randint; lia
    | |- triple _ (choices1 _ _) _ => apply triple_choices1; reflexivity
    | |- triple _ uuid4_str _ => apply triple_uuid4_str
    | |- triple _ pan_last4 _ => apply triple_pan_last4_shape
    | |- triple _ nine_digits _ => apply triple_nine_digits_shape
    | |- triple _ swift_bic _ => apply triple_swift_bic_shape
    | |- triple _ mask_iban _ => apply triple_mask_iban_shape
    | |- triple _ merchant _ => apply triple_merchant_fields
    | |- triple _ (rand_amount _ _ true) _ => apply triple_rand_amount_purchase
    | |- triple _ (rand_amount _ _ false) _ =>
        apply triple_rand_amount_int; lia
    end
  | cbv beta ].

Lemma round2_between (c1 c2 : Z) x :
  (c1 # 100 <= x /\ x <= c2 # 100)%Q ->
  (c1 # 100 <= round2 x /\ round2 x <= c2 # 100)%Q.
Proof.
  intros [H1 H2]. apply round2_mono in H1, H2.
  rewrite round2_hundredths in H1, H2. split; assumption.
Qed.

Lemma wire_fees_range amt :
  (100 <= amt /\ amt <= 10000)%Q ->
  ((3 # 10) <= round2 (amt * (3 # 1000)) /\ round2 (amt * (3 # 1000)) <= 30)%Q.
Proof.
  intros [H1 H2].
  destruct (round2_between 30 3000 (amt * (3 # 1000))%Q) as [L R].
  { unfold Qle, Qmult in *. cbn [Qnum Qden] in *.
    rewrite Pos2Z.inj_mul. split; lia. }
  split.
  - eapply Qle_trans; [|exact L]. unfold Qle. cbn. lia.
  - eapply Qle_trans; [exact R|]. unfold Qle. cbn. lia.
Qed.

Lemma orb_eqb_cases a x y :
  String.eqb a x || String.eqb a y = true -> a = x \/ a = y.
Proof.
  intros H. apply orb_prop in H.
  destruct H as [H | H]; apply String.eqb_eq in H; auto.
Qed.

Lemma gen_payments_fields E day_str :
  E \/ parses day_str ->
  triple E (gen_payments day_str) (payments_fields day_str).
Proof.
  intros Hday. unfold gen_payments.
  eapply triple_bind; [apply triple_base_fields; exact Hday|].
  intros base Hb. pose proof Hb as Hb'.
  destruct Hb' as (t0 & ts0 & event_id & user_id & _ & _ & _ & ->).
  fstep. intros channel Hch. fstep. intros status Hst.
  change (In status payment_statuses) in Hst.
  destruct (String.eqb channel "card_auth"
            || String.eqb channel "card_settlement") eqn:Ecard.
  { (* card *)
    fstep. intros m Hm. pose proof Hm as Hm'.
    destruct Hm' as (mu & mname & mcountry & mcc & category & -> & _).
    fstep. intros amt _. fstep. intros card_network Hnet.
    fstep. intros pan Hpan. fstep. intros card_present _.
    fstep. intros pos_entry_mode Hpos.
    eapply triple_bind
      with (Q := fun ac =>
                   (status = "failed" /\ ac = VNull)
                   \/ (status <> "failed"
                       /\ exists u, ac = VStr (prefix_slice 6 u))).
    { destruct (String.eqb status "failed") eqn:Est; cbn [negb].
      - apply triple_ret. apply String.eqb_eq in Est. auto.
      - fstep. intros u _. apply triple_ret.
        apply String.eqb_neq in Est. right. eauto. }
    intros approval_code Hac.
    eapply triple_bind
      with (Q := fun dr =>
                   (status = "failed"
                    /\ exists reason,
                         dr = VStr reason
                         /\ In reason ["insufficient_funds"; "suspected_fraud";
                                       "do_not_honor"])
                   \/ (status <> "failed" /\ dr = VNull)).
    { destruct (String.eqb status "failed") eqn:Est; cbn [negb].
      - fstep. intros reason Hr. apply triple_ret.
        apply String.eqb_eq in Est. left. eauto.
      - apply triple_ret. apply String.eqb_neq in Est. auto. }
    intros decline_reason Hdr.
    apply triple_ret. left. unfold card_fields.
    match type of Hb with base_fields _ _ ?b =>
      match type of Hm with merchant_fields ?m =>
        exists b, channel, amt, card_network, pan, card_present,
          pos_entry_mode, m, approval_code, decline_reason, status
      end
    end.
    split; [reflexivity|].
    split; [exact Hb|].
    split.
    { apply orb_eqb_cases in Ecard. destruct Ecard as [-> | ->]; cbn; auto. }
    repeat (split; [assumption|]).
    destruct Hac as [[Hs ->] | [Hs Hu]], Hdr as [[Hs' Hr] | [Hs' ->]];
      try contradiction; [left | right]; auto. }
  destruct (String.eqb channel "ach_credit"
            || String.eqb channel "ach_debit") eqn:Each.
  { (* ACH *)
    fstep. intros amt [Hamt _]. fstep. intros routing_number Hrn.
    fstep. intros account_last4 Hal. fstep. intros counterparty_name Hcn.
    fstep. intros trace _.
    apply triple_ret. right. left. unfold ach_fields.
    match type of Hb with base_fields _ _ ?b =>
      eexists b, channel, _, amt, routing_number, account_last4,
        counterparty_name, trace, status
    end.
    split; [reflexivity|].
    split; [exact Hb|]. split; [exact Hamt|].
    split.
    { apply orb_eqb_cases in Each. destruct Each as [-> | ->]; cbn; auto. }
    auto. }
  destruct (String.eqb channel "wire_transfer") eqn:Ewire.
  { (* wire *)
    fstep. intros amt [Hamt _]. fstep. intros amount Ham.
    fstep. intros bic Hbic. fstep. intros iban Hiban.
    fstep. intros is_international _.
    apply triple_ret. right. right. left. unfold wire_fields.
    match type of Hb with base_fields _ _ ?b =>
      eexists b, amount, bic, iban, is_international, _, status
    end.
    split; [reflexivity|].
    split; [exact Hb|].
    split.
    { exists amt. split; [exact Hamt|].
    destruct Ham as [<- | [<- | []]]; auto. }
    split; [exact Hbic|]. split; [exact Hiban|].
    split; [apply wire_fees_range, Hamt | exact Hst]. }
  (* zelle or fallback *)
  fstep. intros amt [Hamt _]. fstep. intros amount Ham.
  fstep. intros alias Hal.
  apply triple_ret. right. right. right. unfold zelle_fields.
  match type of Hb with base_fields _ _ ?b =>
    exists b, amount, alias, status
  end.
  split; [reflexivity|].
  split; [exact Hb|].
  split.
  { exists amt. split; [exact Hamt|].
    destruct Ham as [<- | [<- | []]]; auto. }
  auto.
Qed.

(** Adding whole days keeps the time of the day. *)
Lemma dt_add_days issued days :
  wf_datetime issued ->
  1 <= toordinal issued + days <= MAXORDINAL ->
  exists due,
    dt_add issued days 0 = Ok due /\ wf_datetime due
    /\ toordinal due = toordinal issued + days
    /\ hour due = hour issued /\ minute due = minute issued
    /\ second due = second issued.
Proof.
  intros Hwf Hr. pose proof Hwf as (_ & Hh & Hm & Hs).
  assert (Hsecs : 0 <= hour issued * 3600 + minute issued * 60
                       + second issued < 86400) by lia.
  destruct (dt_add_spec issued days 0) as (due & Edue & Hwf' & Hord).
  { cbv zeta. rewrite Z.add_0_r, Z.div_small by lia. lia. }
  cbv zeta in Hord. rewrite Z.add_0_r, Z.div_small in Hord by lia.
  exists due. split; [exact Edue|]. split; [exact Hwf'|].
  split; [lia|].
  unfold dt_add in Edue. rewrite Z.add_0_r in Edue.
  rewrite (Z.mod_small _ 86400) in Edue by lia.
  destruct ((0 <? _) && (_ <=? MAXORDINAL)); [|discriminate].
  destruct (ord2ymd _) as [[y m] d]. injection Edue as <-.
  cbn [hour minute second].
  repeat split; Z.div_mod_to_equations; lia.
Qed.

Lemma on_day_wf day_str t ts :
  strptime day_str = Ok t -> on_day t ts -> wf_datetime ts.
Proof.
  intros Ht (Hy & Hm & Hd & Hh & Hmi & Hs).
  pose proof (strptime_valid _ _ Ht) as (Hv & _).
  unfold wf_datetime. rewrite Hy, Hm, Hd. auto.
Qed.

Lemma on_day_toordinal t ts : on_day t ts -> toordinal ts = toordinal t.
Proof.
  intros (Hy & Hm & Hd & _). unfold toordinal. congruence.
Qed.

Lemma max_zero_range amt paid :
  (0 <= paid /\ paid <= amt)%Q ->
  (0 <= max_zero (amt - paid) /\ max_zero (amt - paid) <= amt)%Q.
Proof.
  intros [H0 H1]. unfold max_zero.
  destruct (Qle_bool (amt - paid) 0) eqn:Eb.
  - split; [apply Qle_refl | eapply Qle_trans; eassumption].
  - assert (Hn : ~ (amt - paid <= 0)%Q).
    { intros H. apply Qle_bool_iff in H. congruence. }
    apply Qnot_le_lt in Hn. split; [apply Qlt_le_weak, Hn|].
    unfold Qle, Qminus, Qplus, Qopp in *. cbn [Qnum Qden] in *.
    rewrite ?Pos2Z.inj_mul. nia.
Qed.

Lemma max_zero_paid amt : max_zero (amt - amt) = 0%Q.
Proof.
  unfold max_zero.
  replace (Qle_bool (amt - amt) 0) with true; [reflexivity|].
  symmetry. apply Qle_bool_iff. apply Qle_lteq. right. ring.
Qed.

Lemma part_paid_range amt f :
  (0 <= amt)%Q -> round2 amt = amt -> In f [0; 1 # 4; 1 # 2; 3 # 4]%Q ->
  (0 <= round2 (amt * f) /\ round2 (amt * f) <= amt)%Q.
Proof.
  intros H0 Hr Hf.
  assert (Hf' : (0 <= f /\ f <= 1)%Q).
  { cbn [In] in Hf.
    destruct Hf as [<- | [<- | [<- | [<- | []]]]]; split; unfold Qle; cbn; lia. }
  destruct Hf' as [F0 F1]. split.
  - apply round2_nonneg, Qmult_le_0_compat; assumption.
  - rewrite <- Hr at 2. apply round2_mono.
    apply Qle_trans with (amt * 1)%Q.
    + rewrite !(Qmult_comm amt). apply Qmult_le_compat_r; assumption.
    + apply Qle_lteq. right. ring.
Qed.

Lemma gen_billing_fields E day_str :
  E \/ day_ok day_str ->
  triple E (gen_billing day_str) (billing_fields day_str).
Proof.
  intros Hday.
  assert (Hp : E \/ parses day_str).
  { destruct Hday as [HE | (t & Ht & _)]; [left; exact HE | right].
    exists t. exact Ht. }
  unfold gen_billing.
  eapply triple_bind; [apply triple_base_fields; exact Hp|].
  intros base Hb. pose proof Hb as Hb'.
  destruct Hb' as (t0 & ts0 & event_id & user_id & _ & _ & _ & ->).
  fstep. intros status Hst. change (In status billing_statuses) in Hst.
  fstep. intros u _.
  eapply triple_bind; [apply triple_rand_ts_day; exact Hp|].
  intros issued (t & Ht & Hon).
  fstep. intros term Hterm.
  pose proof (on_day_wf _ _ _ Ht Hon) as Hwf.
  pose proof (on_day_toordinal _ _ Hon) as Hord.
  eapply triple_bind
    with (Q := fun due =>
                 wf_datetime due /\ toordinal due = toordinal issued + term
                 /\ hour due = hour issued /\ minute due = minute issued
                 /\ second due = second issued).
  { destruct Hday as [HE | (t' & Ht' & Hmax)].
    - apply triple_lift; [|intros; exact HE].
      intros due Edue.
      destruct (Z_le_gt_dec (toordinal issued + term) MAXORDINAL) as [L | L].
      + pose proof (toordinal_range issued Hwf) as Hr.
        destruct (dt_add_days issued term Hwf) as (due' & Edue' & Hdue).
        { cbn [In] in Hterm. destruct Hterm as [<- | [<- | [<- | []]]]; lia. }
        assert (due' = due) by congruence. subst due'. exact Hdue.
      + rewrite dt_add_overflow in Edue; [discriminate|].
        cbv zeta. pose proof Hwf as (_ & Hh & Hm & Hs).
        rewrite Z.add_0_r, Z.div_small by lia. lia.
    - assert (t' = t) by congruence. subst t'.
      pose proof (toordinal_range issued Hwf) as Hr.
      destruct (dt_add_days issued term Hwf) as (due' & -> & Hdue).
      { cbn [In] in Hterm. destruct Hterm as [<- | [<- | [<- | []]]]; lia. }
      apply triple_lift_ok. exact Hdue. }
  intros due Hdue. fstep. intros amt [Hamt Hround].
  assert (Hamt0 : (0 <= amt)%Q).
  { eapply Qle_trans; [|apply Hamt]. unfold Qle. cbn. lia. }
  eapply triple_bind
    with (Q := fun paid =>
                 (0 <= paid /\ paid <= amt)%Q
                 /\ (status = "paid" \/ status = "refunded" -> paid = amt)).
  { destruct (String.eqb status "paid" || String.eqb status "refunded")
      eqn:Est.
    - apply triple_ret. split; [|reflexivity].
      split; [exact Hamt0 | apply Qle_refl].
    - fstep. intros f Hf. apply triple_ret.
      apply orb_false_elim in Est. destruct Est as [E1 E2].
      apply String.eqb_neq in E1, E2.
      split; [apply part_paid_range; assumption|].
      intros [? | ?]; contradiction. }
  intros paid [Hpaid Hfull]. fstep. intros event_type Het.
  fstep. intros tax_rate Htax. fstep. intros line_count Hlc.
  apply triple_ret. unfold billing_fields.
  match type of Hb with base_fields _ _ ?b =>
    exists b, t, issued, due, term, u, event_type, status, amt, paid,
      (max_zero (amt - paid)), tax_rate, line_count
  end.
  split; [reflexivity|].
  split; [exact Hb|]. split; [exact Het|].
  split; [exact Ht|]. split; [exact Hon|]. split; [exact Hterm|].
  destruct Hdue as (D1 & D2 & D3 & D4 & D5).
  repeat (split; [assumption|]).
  split; [apply max_zero_range, Hpaid|].
  split.
  { intros Hs. rewrite (Hfull Hs). apply max_zero_paid. }
  auto.
Qed.

Lemma gen_crm_fields E day_str :
  E \/ parses day_str ->
  triple E (gen_crm day_str) (crm_fields day_str).
Proof.
  intros Hday. unfold gen_crm.
  eapply triple_bind; [apply triple_base_fields; exact Hday|].
  intros base Hb. pose proof Hb as Hb'.
  destruct Hb' as (t0 & ts0 & event_id & user_id & _ & _ & _ & ->).
  fstep. intros event_type Het. fstep. intros risk Hrisk.
  fstep. intros kyc_status Hkyc. fstep. intros pep_flag _.
  fstep. intros ip3 Hip3. fstep. intros ip4 Hip4.
  fstep. intros country Hc.
  apply triple_ret. unfold crm_fields.
  match type of Hb with base_fields _ _ ?b =>
    exists b, event_type, kyc_status, risk, pep_flag, ip3, ip4, country
  end.
  split; [reflexivity|]. auto 10.
Qed.

Lemma gen_erp_fields E day_str :
  E \/ parses day_str ->
  triple E (gen_erp day_str) (erp_fields day_str).
Proof.
  intros Hday. unfold gen_erp.
  eapply triple_bind; [apply triple_base_fields; exact Hday|].
  intros base Hb. pose proof Hb as Hb'.
  destruct Hb' as (t0 & ts0 & event_id & user_id & _ & _ & _ & ->).
  fstep. intros journal Hj. fstep. intros acct Ha.
  fstep. intros amt [Hamt _]. fstep. intros side Hside.
  fstep. intros entity He. fstep. intros posted_by Hpb.
  apply triple_ret. unfold erp_fields.
  match type of Hb with base_fields _ _ ?b =>
    eexists b, journal, acct, amt, _, _, entity, posted_by
  end.
  split; [reflexivity|].
  split; [exact Hb|]. split; [exact Hj|]. split; [exact Ha|].
  split; [exact Hamt|].
  split; [|auto].
  cbn [In] in Hside. destruct Hside as [<- | [<- | []]]; cbn; auto.
Qed.

Lemma gen_support_fields E day_str :
  E \/ parses day_str ->
  triple E (gen_support day_str) (support_fields day_str).
Proof.
  intros Hday. unfold gen_support.
  eapply triple_bind; [apply triple_base_fields; exact Hday|].
  intros base Hb. pose proof Hb as Hb'.
  destruct Hb' as (t0 & ts0 & event_id & user_id & _ & _ & _ & ->).
  fstep. intros cat Hcat. fstep. intros pri Hpri.
  fstep. intros status Hst. fstep. intros u _.
  fstep. intros channel Hch.
  apply triple_ret. unfold support_fields.
  match type of Hb with base_fields _ _ ?b =>
    eexists b, _, u, cat, pri, status, channel
  end.
  split; [reflexivity|].
  split; [exact Hb|].
  split; [|auto].
  cbn [In] in Hst.
  destruct Hst as [<- | [<- | [<- | [<- | []]]]]; cbn; auto.
Qed.

End FactoryFields.

(** ** Timestamps *)

Section Timestamps.

Lemma string_length_zfill2 z :
  0 <= z <= 99 -> String.length (zfill_int 2 z) = 2%nat.
Proof. intros H. rewrite zfill2_digits by exact H. reflexivity. Qed.

Lemma string_length_zfill4 z :
  0 <= z <= 9999 -> String.length (zfill_int 4 z) = 4%nat.
Proof. intros H. rewrite zfill4_digits by exact H. reflexivity. Qed.

Lemma strftime_length t :
  valid_date (year t) (month t) (day t) = true ->
  String.length (strftime t) = 10%nat.
Proof.
  intros Hv. apply valid_date_bounds in Hv. unfold strftime.
  rewrite !string_length_append, string_length_zfill4, !string_length_zfill2
    by lia.
  reflexivity.
Qed.

Lemma string_append_assoc a b c : (a +++ b) +++ c = a +++ b +++ c.
Proof. induction a as [|x a IH]; cbn; [reflexivity | rewrite IH; reflexivity]. Qed.

Lemma prefix_slice_append s rest :
  prefix_slice (String.length s) (s +++ rest) = s.
Proof.
  unfold prefix_slice. induction s as [|c s IH]; cbn.
  - destruct rest; reflexivity.
  - rewrite IH. reflexivity.
Qed.

(** The text of a timestamp: twenty characters, of which the first ten are
    the day. *)
Lemma timestamp_shape t ts :
  valid_date (year t) (month t) (day t) = true -> on_day t ts ->
  String.length (isoformat ts +++ "Z") = 20%nat
  /\ prefix_slice 10 (isoformat ts +++ "Z") = iso_date t.
Proof.
  intros Hv (Hy & Hm & Hd & Hh & Hmi & Hs).
  change (iso_date t) with (strftime t).
  assert (Es : strftime ts = strftime t).
  { unfold strftime. rewrite Hy, Hm, Hd. reflexivity. }
  pose proof (strftime_length t Hv) as Hl.
  unfold isoformat. rewrite Es. split.
  - rewrite !string_length_append, Hl, !string_length_zfill2 by lia.
    reflexivity.
  - rewrite <- Hl at 1.
    rewrite string_append_assoc. apply prefix_slice_append.
Qed.

End Timestamps.

(** ** The helpers, from any state of the random sources *)

Section HelperTheorems.

Context {G U : Type} `{RandomG : Random G} `{UuidU : UuidSource U}.

Local Abbreviation triple := (@triple (Rand G U) _) (only parsing).

(** X1.  For every day string [strptime] accepts, up to 9999-12-31,
    [rand_ts_for_day] returns a datetime on that date, at a time of the day
    from 00:00:00 to 23:59:59: adding the random seconds never reaches the
    next day, nor the end of the calendar. *)
Theorem rand_ts_stays_on_day day_str t (r : Rand G U) :
  strptime day_str = Ok t ->
  exists ts r', rand_ts_for_day day_str r = Ok (ts, r') /\ on_day t ts.
Proof.
  intros Ht.
  destruct (triple_total _ _
              (triple_rand_ts_day False day_str
                 (or_intror (ex_intro _ t Ht))) r)
    as (ts & r' & E & t' & Ht' & Hon).
  assert (t' = t) by congruence. subst t'. eauto.
Qed.

(** X2.  For every day string [strptime] accepts, [base_record] returns
    exactly the five common fields, in this order: [event_id], [user_id]
    between 1000 and 500000, [currency] USD, [source_system] as given, and
    a [timestamp] of twenty characters, the day as YYYY-MM-DD, a [T], a
    time of that day and a [Z]. *)
Theorem base_record_fields day_str source t (r : Rand G U) :
  strptime day_str = Ok t ->
  exists event_id user_id ts r',
    base_record day_str source r
    = Ok ([ ("event_id", VStr event_id);
            ("user_id", VInt user_id);
            ("currency", VStr "USD");
            ("source_system", VStr source);
            ("timestamp", VStr (isoformat ts +++ "Z")) ], r')
    /\ 1000 <= user_id <= 500000
    /\ on_day t ts
    /\ String.length (isoformat ts +++ "Z") = 20%nat
    /\ prefix_slice 10 (isoformat ts +++ "Z") = iso_date t.
Proof.
  intros Ht.
  destruct (triple_total _ _
              (triple_base_fields False day_str source
                 (or_intror (ex_intro _ t Ht))) r)
    as (b & r' & E & t' & ts & event_id & user_id & Ht' & Hon & Hu & ->).
  assert (t' = t) by congruence. subst t'.
  pose proof (strptime_valid _ _ Ht) as (Hv & _).
  destruct (timestamp_shape t ts Hv Hon) as [Hl Hp].
  exists event_id, user_id, ts, r'. auto.
Qed.

(** X3.  For whole numbers [0 <= lo <= hi <= 10000], which covers the five
    calls of the generator, [rand_amount(lo, hi)] returns an amount between
    [lo] and [hi]: rounding to two decimals does not leave the range. *)
Theorem rand_amount_between (lo hi : Z) (r : Rand G U) :
  0 <= lo <= hi -> hi <= 10000 ->
  exists amt r',
    rand_amount (inject_Z lo) (inject_Z hi) false r = Ok (amt, r')
    /\ (inject_Z lo <= amt /\ amt <= inject_Z hi)%Q.
Proof.
  intros Hlo Hhi.
  destruct (triple_total _ _
              (triple_rand_amount_int False lo hi ltac:(lia)) r)
    as (amt & r' & E & Hr & _). eauto.
Qed.

(** X4.  [nine_digits] returns a string of exactly nine decimal digits and
    [pan_last4] a string of exactly four, whatever the state of the
    generator. *)
Theorem digit_strings (r : Rand G U) :
  (exists s r', nine_digits r = Ok (s, r') /\ digits_of_length 9 s)
  /\ (exists s r', pan_last4 r = Ok (s, r') /\ digits_of_length 4 s).
Proof.
  split.
  - apply (triple_total nine_digits), triple_nine_digits_shape.
  - apply (triple_total pan_last4), triple_pan_last4_shape.
Qed.

(** X5.  [swift_bic] returns eight characters: four capital letters, one
    of the eight country codes, and two capital letters or digits. *)
Theorem swift_bic_has_shape (r : Rand G U) :
  exists bic r',
    swift_bic r = Ok (bic, r') /\ bic_shape bic
    /\ String.length bic = 8%nat.
Proof.
  destruct (triple_total _ _ (triple_swift_bic_shape False) r)
    as (bic & r' & E & Hs).
  exists bic, r'. split; [exact E|]. split; [exact Hs|].
  destruct Hs as (bank & country & branch & -> & Hb & _ & Hc & Hr & _).
  rewrite !string_length_append, Hb, Hr.
  cbn [In] in Hc.
  repeat (destruct Hc as [<- | Hc]); try contradiction; reflexivity.
Qed.

(** X6.  [mask_iban] returns fourteen characters: four asterisks and ten
    capital letters or digits. *)
Theorem mask_iban_has_shape (r : Rand G U) :
  exists iban r',
    mask_iban r = Ok (iban, r') /\ iban_shape iban
    /\ String.length iban = 14%nat.
Proof.
  destruct (triple_total _ _ (triple_mask_iban_shape False) r)
    as (iban & r' & E & Hs).
  exists iban, r'. split; [exact E|]. split; [exact Hs|].
  destruct Hs as (tail & -> & Hl & _).
  rewrite string_length_append, Hl. reflexivity.
Qed.

(** X7.  [merchant] always returns (the two lookups in the entry of [MCCS]
    never raise KeyError), with the five merchant fields in order; the
    [mcc] and the [category] are those of one and the same entry of
    [MCCS], and the [merchant_id] is a string cut to its first eight
    characters. *)
Theorem merchant_returns_fields (r : Rand G U) :
  exists m r', merchant r = Ok (m, r') /\ merchant_fields m.
Proof. apply (triple_total merchant), triple_merchant_fields. Qed.

End HelperTheorems.

(** ** Exceptions *)

Section Raising.

Context {S : Type}.

(** A computation that stops with an exception after steps that return. *)
Lemma raises_after {A B : Type} (m : M S A) (f : A -> M S B)
    (Q : A -> Prop) e :
  triple False m Q -> (forall a, Q a -> forall s, f a s = Err e) ->
  forall s, bind m f s = Err e.
Proof.
  intros Hm Hf s. unfold bind.
  destruct (triple_total m Q Hm s) as (a & s' & -> & Ha). apply Hf, Ha.
Qed.

Lemma raises_first {A B : Type} (m : M S A) (f : A -> M S B) e s :
  m s = Err e -> bind m f s = Err e.
Proof. intros H. unfold bind. rewrite H. reflexivity. Qed.

End Raising.

(** [strptime] raises nothing but ValueError. *)
Lemma strptime_raises s e : strptime s = Err e -> e = ValueError.
Proof.
  unfold strptime.
  repeat match goal with
         | |- context [match ?x with _ => _ end] => destruct x
         end; congruence.
Qed.

(** ** The records of the five factories *)

Section RecordTheorems.

Context {G U : Type} `{RandomG : Random G} `{UuidU : UuidSource U}.

Local Abbreviation triple := (@triple (Rand G U) _) (only parsing).

Ltac open_base H :=
  let t := fresh "t" in
  let ts := fresh "ts" in
  let event_id := fresh "event_id" in
  let user_id := fresh "user_id" in
  destruct H as (t & ts & event_id & user_id & _ & _ & _ & ->).

Ltac get_field :=
  cbn [app dict_get String.eqb Ascii.eqb Bool.eqb]; reflexivity.

(** The event type tells the kind of a payments record. *)
Lemma payments_kind day_str rec :
  payments_fields day_str rec ->
  (card_fields day_str rec
   /\ (dict_get "event_type" rec = Some (VStr "card_auth")
       \/ dict_get "event_type" rec = Some (VStr "card_settlement")))
  \/ (ach_fields day_str rec
      /\ (dict_get "event_type" rec = Some (VStr "ach_credit")
          \/ dict_get "event_type" rec = Some (VStr "ach_debit")))
  \/ (wire_fields day_str rec
      /\ dict_get "event_type" rec = Some (VStr "wire_transfer"))
  \/ (zelle_fields day_str rec
      /\ dict_get "event_type" rec = Some (VStr "zelle_payment")).
Proof.
  intros [H | [H | [H | H]]].
  - left. split; [exact H|].
    destruct H as (b & event_type & amt & card_network & pan & card_present
                   & pos_entry_mode & m & approval_code & decline_reason
                   & status & -> & Hb & Het & _).
    open_base Hb. cbn [In] in Het.
    destruct Het as [<- | [<- | []]]; [left | right]; get_field.
  - right. left. split; [exact H|].
    destruct H as (b & event_type & amount & amt & routing_number
                   & account_last4 & counterparty_name & u & status & -> & Hb
                   & _ & Het & _).
    open_base Hb.
    destruct Het as [[-> _] | [-> _]]; [left | right]; get_field.
  - right. right. left. split; [exact H|].
    destruct H as (b & amount & bic & iban & is_international & fees & status
                   & -> & Hb & _).
    open_base Hb. get_field.
  - right. right. right. split; [exact H|].
    destruct H as (b & amount & alias & status & -> & Hb & _).
    open_base Hb. get_field.
Qed.

Lemma payments_status day_str rec :
  payments_fields day_str rec ->
  exists status,
    dict_get "status" rec = Some (VStr status) /\ In status payment_statuses
    /\ dict_get "source_system" rec = Some (VStr "payments").
Proof.
  intros [H | [H | [H | H]]].
  - destruct H as (b & event_type & amt & card_network & pan & card_present
                   & pos_entry_mode & m & approval_code & decline_reason
                   & status & -> & Hb & _ & _ & _ & _ & Hm & Hst & _).
    open_base Hb.
    destruct Hm as (mu & mname & mcountry & mcc & category & -> & _).
    exists status. split; [get_field|]. split; [exact Hst | get_field].
  - destruct H as (b & event_type & amount & amt & routing_number
                   & account_last4 & counterparty_name & u & status & -> & Hb
                   & _ & _ & _ & _ & _ & Hst).
    open_base Hb. exists status.
    split; [get_field|]. split; [exact Hst | get_field].
  - destruct H as (b & amount & bic & iban & is_international & fees & status
                   & -> & Hb & _ & _ & _ & _ & Hst).
    open_base Hb. exists status.
    split; [get_field|]. split; [exact Hst | get_field].
  - destruct H as (b & amount & alias & status & -> & Hb & _ & _ & Hst).
    open_base Hb. exists status.
    split; [get_field|]. split; [exact Hst | get_field].
Qed.

(** X8.  For every day string [strptime] accepts, [gen_payments] returns a
    record whose [event_type] is one of [card_auth], [card_settlement],
    [ach_credit], [ach_debit], [wire_transfer] and [zelle_payment] (the
    channel [zelle] is written [zelle_payment]), whose [status] is
    [posted], [pending] or [failed], and whose [source_system] is
    [payments]. *)
Theorem gen_payments_event_types day_str t (r : Rand G U) :
  strptime day_str = Ok t ->
  exists rec r' event_type status,
    gen_payments day_str r = Ok (rec, r')
    /\ dict_get "event_type" rec = Some (VStr event_type)
    /\ In event_type ["card_auth"; "card_settlement"; "ach_credit";
                      "ach_debit"; "wire_transfer"; "zelle_payment"]
    /\ dict_get "status" rec = Some (VStr status)
    /\ In status payment_statuses
    /\ dict_get "source_system" rec = Some (VStr "payments").
Proof.
  intros Ht.
  destruct (triple_total _ _
              (gen_payments_fields False day_str
                 (or_intror (ex_intro _ t Ht))) r)
    as (rec & r' & E & Hf).
  destruct (payments_status _ _ Hf) as (status & Hs & Hin & Hsrc).
  apply payments_kind in Hf.
  destruct Hf as [[_ [K | K]] | [[_ [K | K]] | [[_ K] | [_ K]]]];
    eexists rec, r', _, status;
    (split; [exact E|]); (split; [exact K|]); cbn [In]; tauto.
Qed.

(** X9.  Every card record of [gen_payments] ([card_auth] or
    [card_settlement]) is the common fields, then the event type, the
    amount, a card network of [CARD_NETWORKS], four digits of card number,
    the card-present flag and an entry mode of [POS_ENTRY_MODES], then the
    five merchant fields, then the approval code, the decline reason (one
    of three, only when the status is [failed]) and the status. *)
Theorem card_record_fields day_str (r : Rand G U) rec r' :
  gen_payments day_str r = Ok (rec, r') ->
  dict_get "event_type" rec = Some (VStr "card_auth")
  \/ dict_get "event_type" rec = Some (VStr "card_settlement") ->
  card_fields day_str rec.
Proof.
  intros E Het.
  pose proof (triple_partial _ _ _ _ _
                (gen_payments_fields True day_str (or_introl I)) E) as Hf.
  apply payments_kind in Hf.
  destruct Hf as [[H _] | [[_ [K | K]] | [[_ K] | [_ K]]]];
    [exact H | | | |]; destruct Het as [Het | Het]; congruence.
Qed.

(** X10.  Every ACH record of [gen_payments] is the common fields, then
    the event type, an amount of magnitude between 5 and 2000 (positive
    for [ach_credit], negated for [ach_debit]), nine digits of routing
    number, four digits of account number, one of four counterparty names,
    a trace number of at most twelve characters, and the status. *)
Theorem ach_record_fields day_str (r : Rand G U) rec r' :
  gen_payments day_str r = Ok (rec, r') ->
  dict_get "event_type" rec = Some (VStr "ach_credit")
  \/ dict_get "event_type" rec = Some (VStr "ach_debit") ->
  ach_fields day_str rec.
Proof.
  intros E Het.
  pose proof (triple_partial _ _ _ _ _
                (gen_payments_fields True day_str (or_introl I)) E) as Hf.
  apply payments_kind in Hf.
  destruct Hf as [[_ [K | K]] | [[H _] | [[_ K] | [_ K]]]];
    [ | | exact H | |]; destruct Het as [Het | Het]; congruence.
Qed.

(** X11.  Every wire record of [gen_payments] is the common fields, then
    the event type, an amount of magnitude between 100 and 10000 of either
    sign, a BIC of the shape [swift_bic] gives, a masked IBAN of the shape
    [mask_iban] gives, the international flag, fees between 0.30 and 30.00
    (never negative, also on an outgoing wire), and the status. *)
Theorem wire_record_fields day_str (r : Rand G U) rec r' :
  gen_payments day_str r = Ok (rec, r') ->
  dict_get "event_type" rec = Some (VStr "wire_transfer") ->
  wire_fields day_str rec.
Proof.
  intros E Het.
  pose proof (triple_partial _ _ _ _ _
                (gen_payments_fields True day_str (or_introl I)) E) as Hf.
  apply payments_kind in Hf.
  destruct Hf as [[_ [K | K]] | [[_ [K | K]] | [[H _] | [_ K]]]];
    [ | | | | exact H |]; congruence.
Qed.

(** X12.  Every Zelle record of [gen_payments] is the common fields, then
    the event type [zelle_payment], an amount of magnitude between 5 and
    500 of either sign, one of three counterparty aliases, and the
    status. *)
Theorem zelle_record_fields day_str (r : Rand G U) rec r' :
  gen_payments day_str r = Ok (rec, r') ->
  dict_get "event_type" rec = Some (VStr "zelle_payment") ->
  zelle_fields day_str rec.
Proof.
  intros E Het.
  pose proof (triple_partial _ _ _ _ _
                (gen_payments_fields True day_str (or_introl I)) E) as Hf.
  apply payments_kind in Hf.
  destruct Hf as [[_ [K | K]] | [[_ [K | K]] | [[_ K] | [H _]]]];
    [ | | | | | exact H]; congruence.
Qed.

(** X13.  For every day up to 9999-12-01, [gen_billing] returns a record
    whose [invoice_date] is a time of the requested day and whose
    [due_date] is 7, 14 or 30 days later, at the same time of the day. *)
Theorem gen_billing_due_date day_str t (r : Rand G U) :
  strptime day_str = Ok t -> toordinal t + 30 <= MAXORDINAL ->
  exists rec r' issued due term,
    gen_billing day_str r = Ok (rec, r')
    /\ dict_get "invoice_date" rec = Some (VStr (isoformat issued +++ "Z"))
    /\ dict_get "due_date" rec = Some (VStr (isoformat due +++ "Z"))
    /\ on_day t issued
    /\ In term [7; 14; 30]
    /\ wf_datetime due /\ toordinal due = toordinal t + term
    /\ hour due = hour issued /\ minute due = minute issued
    /\ second due = second issued.
Proof.
  intros Ht Hmax.
  destruct (triple_total _ _
              (gen_billing_fields False day_str
                 (or_intror (ex_intro _ t (conj Ht Hmax)))) r)
    as (rec & r' & E & Hf).
  destruct Hf as (b & t' & issued & due & term & u & event_type & status
                  & amt & paid & amount_due & tax_rate & line_count & ->
                  & Hb & _ & Ht' & Hon & Hterm & Hwf & Hord & Hh & Hm & Hs
                  & _).
  assert (t' = t) by congruence. subst t'.
  rewrite (on_day_toordinal _ _ Hon) in Hord.
  open_base Hb.
  eexists _, r', issued, due, term.
  split; [exact E|]. split; [get_field|]. split; [get_field|]. auto 10.
Qed.

(** X14.  On every record of [gen_billing], with [total] the invoiced
    amount between 20 and 2000: [amount_paid] lies between 0 and [total],
    [amount_due] between 0 and [total]; on an invoice with status [paid]
    or [refunded], [amount_paid] is [total] and [amount_due] is zero; the
    [amount] is [total], or the negated [amount_paid] on a
    [refund_issued]; the tax rate is 0, 0.05, 0.07 or 0.1 and the line
    count between 1 and 5. *)
Theorem gen_billing_amounts day_str (r : Rand G U) rec r' :
  gen_billing day_str r = Ok (rec, r') ->
  exists event_type status total paid due amount tax_rate line_count,
    dict_get "event_type" rec = Some (VStr event_type)
    /\ In event_type ["invoice_issued"; "invoice_paid"; "refund_issued"]
    /\ dict_get "status" rec = Some (VStr status)
    /\ In status billing_statuses
    /\ dict_get "amount_paid" rec = Some (VFloat paid)
    /\ dict_get "amount_due" rec = Some (VFloat due)
    /\ dict_get "amount" rec = Some (VFloat amount)
    /\ dict_get "tax_rate" rec = Some (VFloat tax_rate)
    /\ dict_get "line_count" rec = Some (VInt line_count)
    /\ (20 <= total /\ total <= 2000)%Q
    /\ (0 <= paid /\ paid <= total)%Q
    /\ (0 <= due /\ due <= total)%Q
    /\ (status = "paid" \/ status = "refunded" -> paid = total /\ due = 0%Q)
    /\ amount = (if String.eqb event_type "refund_issued"
                 then (- paid)%Q else total)
    /\ In tax_rate [0; 5 # 100; 7 # 100; 1 # 10]%Q
    /\ 1 <= line_count <= 5.
Proof.
  intros E.
  pose proof (triple_partial _ _ _ _ _
                (gen_billing_fields True day_str (or_introl I)) E) as Hf.
  destruct Hf as (b & t & issued & due & term & u & event_type & status
                  & amt & paid & amount_due & tax_rate & line_count & ->
                  & Hb & Het & _ & _ & _ & _ & _ & _ & _ & _ & Hst & Hamt
                  & Hpaid & Hfull & Hdue & Hzero & Htax & Hlc).
  open_base Hb.
  exists event_type, status, amt, paid, amount_due,
    (if String.eqb event_type "refund_issued" then (- paid)%Q else amt),
    tax_rate, line_count.
  split; [get_field|]. split; [exact Het|].
  split; [get_field|]. split; [exact Hst|].
  split; [get_field|]. split; [get_field|].
  split.
  { cbn [app dict_get String.eqb Ascii.eqb Bool.eqb].
    destruct (String.eqb event_type "refund_issued"); reflexivity. }
  split; [get_field|]. split; [get_field|].
  auto 10.
Qed.

(** X15.  On the last seven days of the calendar (from 9999-12-25 on) the
    due date of an invoice falls after 9999-12-31 whatever the term drawn,
    and [gen_billing] raises OverflowError, for every state of the random
    sources. *)
Theorem gen_billing_overflows day_str t (r : Rand G U) :
  strptime day_str = Ok t -> MAXORDINAL < toordinal t + 7 ->
  gen_billing day_str r = Err OverflowError.
Proof.
  intros Ht Hmax. revert r.
  assert (Hp : False \/ parses day_str) by (right; exists t; exact Ht).
  unfold gen_billing.
  eapply raises_after; [apply triple_base_fields; exact Hp|].
  intros base _.
  eapply raises_after; [apply triple_choices1; reflexivity|].
  intros status _.
  eapply raises_after; [apply triple_uuid4_str|]. intros u _.
  eapply raises_after; [apply triple_rand_ts_day; exact Hp|].
  intros issued (t' & Ht' & Hon).
  assert (t' = t) by congruence. subst t'.
  eapply raises_after; [apply triple_choice; discriminate|].
  intros term Hterm. cbv beta in Hterm. intros s.
  apply raises_first. unfold lift.
  rewrite dt_add_overflow; [reflexivity|].
  cbv zeta. pose proof Hon as (_ & _ & _ & Hh & Hm & Hs).
  rewrite (on_day_toordinal _ _ Hon).
  rewrite Z.add_0_r, Z.div_small by lia.
  cbn [In] in Hterm. destruct Hterm as [<- | [<- | [<- | []]]]; lia.
Qed.

(** X16.  For every day string [strptime] accepts, [gen_crm] returns the
    common fields followed by seven fields in order: an event type of
    [CRM_EVENTS], the amount 0.0, one of four KYC statuses, a risk score
    between 1 and 99, the PEP flag, an address [192.168.a.b] with [a] and
    [b] between 0 and 255, and a country of [COUNTRIES]. *)
Theorem gen_crm_record_fields day_str t (r : Rand G U) :
  strptime day_str = Ok t ->
  exists rec r', gen_crm day_str r = Ok (rec, r') /\ crm_fields day_str rec.
Proof.
  intros Ht. apply (triple_total (gen_crm day_str)), gen_crm_fields.
  right. exists t. exact Ht.
Qed.

(** X17.  For every day string [strptime] accepts, [gen_erp] returns the
    common fields followed by eight fields in order: the event type
    [gl_posting], a journal of [ERP_JOURNALS], an account of
    [GL_ACCOUNTS], the debit, the credit, an amount between 5 and 5000
    carried by one of the two sides, one of four entities and one of three
    posters. *)
Theorem gen_erp_record_fields day_str t (r : Rand G U) :
  strptime day_str = Ok t ->
  exists rec r', gen_erp day_str r = Ok (rec, r') /\ erp_fields day_str rec.
Proof.
  intros Ht. apply (triple_total (gen_erp day_str)), gen_erp_fields.
  right. exists t. exact Ht.
Qed.

(** X18.  For every day string [strptime] accepts, [gen_support] returns
    the common fields followed by seven fields in order; the event type is
    [ticket_closed] when the status is [resolved] or [closed] and
    [ticket_opened] when it is [open] or [in_progress], the amount is 0.0
    and the ticket id is [TCK-] and at most eight characters. *)
Theorem gen_support_record_fields day_str t (r : Rand G U) :
  strptime day_str = Ok t ->
  exists rec r',
    gen_support day_str r = Ok (rec, r') /\ support_fields day_str rec.
Proof.
  intros Ht. apply (triple_total (gen_support day_str)), gen_support_fields.
  right. exists t. exact Ht.
Qed.

Lemma factory_raises_on_bad_day source gen day_str (r : Rand G U) :
  GEN_BY_SOURCE source = Some gen ->
  (forall t, strptime day_str <> Ok t) ->
  gen day_str r = Err ValueError.
Proof.
  intros Hgen Hbad.
  assert (Hts : rand_ts_for_day day_str r = Err ValueError).
  { unfold rand_ts_for_day. apply raises_first. unfold lift.
    destruct (strptime day_str) as [t | e] eqn:Es.
    - destruct (Hbad t). reflexivity.
    - rewrite (strptime_raises _ _ Es). reflexivity. }
  assert (Hbase : forall src, base_record day_str src r = Err ValueError).
  { intros src. unfold base_record. apply raises_first, Hts. }
  revert Hgen. unfold GEN_BY_SOURCE.
  repeat match goal with
         | |- (if ?c then _ else _) = _ -> _ => destruct c
         end;
    intros [= <-]; apply raises_first, Hbase.
Qed.

(** X19.  On a day string [strptime] rejects, every factory of
    [GEN_BY_SOURCE] raises ValueError, for every state of the random
    sources. *)
Theorem factories_reject_bad_day source gen day_str (r : Rand G U) :
  GEN_BY_SOURCE source = Some gen ->
  (forall t, strptime day_str <> Ok t) ->
  gen day_str r = Err ValueError.
Proof. apply factory_raises_on_bad_day. Qed.

End RecordTheorems.

(** ** The partition writer *)

Section Backfill.

Lemma dict_set_missing k v d :
  dict_mem k d = false -> dict_set k v d = d ++ [(k, v)].
Proof.
  unfold dict_mem. induction d as [|[k' v'] d IH]; cbn; [reflexivity|].
  destruct (String.eqb k k'); [discriminate|].
  intros H. rewrite IH by exact H. reflexivity.
Qed.

Lemma dict_get_app k d1 d2 :
  dict_get k (d1 ++ d2)
  = match dict_get k d1 with Some v => Some v | None => dict_get k d2 end.
Proof.
  induction d1 as [|[k' v'] d1 IH]; cbn; [reflexivity|].
  destruct (String.eqb k k'); [reflexivity | exact IH].
Qed.

Lemma dict_mem_app k d1 d2 :
  dict_mem k (d1 ++ d2) = dict_mem k d1 || dict_mem k d2.
Proof.
  unfold dict_mem. rewrite dict_get_app.
  destruct (dict_get k d1); reflexivity.
Qed.

(** X20.  The two backfills of the writer never change or reorder a field
    the factory gave: they only append, at the end of the record,
    [amount] 0.0 if the record has no [amount], and then [event_type]
    ["event"] if it has no [event_type]. *)
Theorem ensure_common_fields_appends rec :
  ensure_common_fields rec
  = rec
    ++ (if dict_mem "amount" rec then [] else [("amount", VFloat 0)])
    ++ (if dict_mem "event_type" rec then []
        else [("event_type", VStr "event")]).
Proof.
  unfold ensure_common_fields.
  destruct (dict_mem "amount" rec) eqn:Ea; cbn [negb app].
  - destruct (dict_mem "event_type" rec) eqn:Et; cbn [negb].
    + rewrite app_nil_r. reflexivity.
    + apply dict_set_missing, Et.
  - rewrite (dict_set_missing _ _ _ Ea).
    rewrite dict_mem_app.
    destruct (dict_mem "event_type" rec) eqn:Et; cbn [negb orb].
    + change (dict_mem "event_type" [("amount", VFloat 0)]) with false.
      cbn [negb]. reflexivity.
    + change (dict_mem "event_type" [("amount", VFloat 0)]) with false.
      cbn [negb]. rewrite dict_set_missing.
      * rewrite <- app_assoc. reflexivity.
      * rewrite dict_mem_app, Et. reflexivity.
Qed.

(** A record with both fields passes as it is. *)
Lemma ensure_common_fields_id rec :
  dict_mem "amount" rec = true -> dict_mem "event_type" rec = true ->
  ensure_common_fields rec = rec.
Proof.
  intros Ha Ht. unfold ensure_common_fields. rewrite Ha. cbn [negb].
  rewrite Ht. reflexivity.
Qed.

End Backfill.

Section WrittenLines.

Context {G U : Type} `{RandomG : Random G} `{UuidU : UuidSource U}.

Local Abbreviation triple := (@triple (Rand G U) _) (only parsing).

Ltac open_base_day H :=
  let t := fresh "t" in
  let ts := fresh "ts" in
  let event_id := fresh "event_id" in
  let user_id := fresh "user_id" in
  let Ht := fresh "Ht" in
  let Hon := fresh "Hon" in
  destruct H as (t & ts & event_id & user_id & Ht & Hon & _ & ->);
  pose proof (strptime_valid _ _ Ht) as [?Hv _];
  pose proof (timestamp_shape _ _ ltac:(eassumption) Hon) as [_ ?Hpre].

Ltac common_tac :=
  split; [reflexivity|]; split; [reflexivity|];
  do 2 eexists; split; [eassumption|]; split; [eassumption|];
  split; [reflexivity|]; split; [reflexivity | assumption].

Lemma payments_common day_str rec :
  payments_fields day_str rec -> has_common day_str "payments" rec.
Proof.
  intros [H | [H | [H | H]]].
  - destruct H as (b & event_type & amt & card_network & pan & card_present
                   & pos_entry_mode & m & approval_code & decline_reason
                   & status & -> & Hb & _ & _ & _ & _ & Hm & _).
    open_base_day Hb.
    destruct Hm as (mu & mname & mcountry & mcc & category & -> & _).
    common_tac.
  - destruct H as (b & event_type & amount & amt & routing_number
                   & account_last4 & counterparty_name & u & status & -> & Hb
                   & _).
    open_base_day Hb. common_tac.
  - destruct H as (b & amount & bic & iban & is_international & fees & status
                   & -> & Hb & _).
    open_base_day Hb. common_tac.
  - destruct H as (b & amount & alias & status & -> & Hb & _).
    open_base_day Hb. common_tac.
Qed.

Lemma billing_common day_str rec :
  billing_fields day_str rec -> has_common day_str "billing" rec.
Proof.
  intros (b & t & issued & due & term & u & event_type & status
          & amt & paid & amount_due & tax_rate & line_count & -> & Hb & _).
  open_base_day Hb. common_tac.
Qed.

Lemma crm_common day_str rec :
  crm_fields day_str rec -> has_common day_str "crm" rec.
Proof.
  intros (b & event_type & kyc_status & risk & pep_flag & ip3 & ip4 & country
          & -> & Hb & _).
  open_base_day Hb. common_tac.
Qed.

Lemma erp_common day_str rec :
  erp_fields day_str rec -> has_common day_str "erp" rec.
Proof.
  intros (b & journal & acct & amt & debit & credit & entity & posted_by
          & -> & Hb & _).
  open_base_day Hb. common_tac.
Qed.

Lemma support_common day_str rec :
  support_fields day_str rec -> has_common day_str "support" rec.
Proof.
  intros (b & event_type & u & cat & pri & status & channel & -> & Hb & _).
  open_base_day Hb. common_tac.
Qed.

Lemma factory_records_common source gen day_str (r : Rand G U) rec r' :
  GEN_BY_SOURCE source = Some gen -> gen day_str r = Ok (rec, r') ->
  has_common day_str source rec.
Proof.
  unfold GEN_BY_SOURCE. intros Hgen Hrun.
  destruct (String.eqb source "payments") eqn:E1.
  { apply String.eqb_eq in E1. subst source. injection Hgen as <-.
    apply payments_common.
    exact (triple_partial _ _ _ _ _
             (gen_payments_fields True day_str (or_introl I)) Hrun). }
  destruct (String.eqb source "billing") eqn:E2.
  { apply String.eqb_eq in E2. subst source. injection Hgen as <-.
    apply billing_common.
    exact (triple_partial _ _ _ _ _
             (gen_billing_fields True day_str (or_introl I)) Hrun). }
  destruct (String.eqb source "crm") eqn:E3.
  { apply String.eqb_eq in E3. subst source. injection Hgen as <-.
    apply crm_common.
    exact (triple_partial _ _ _ _ _
             (gen_crm_fields True day_str (or_introl I)) Hrun). }
  destruct (String.eqb source "erp") eqn:E4.
  { apply String.eqb_eq in E4. subst source. injection Hgen as <-.
    apply erp_common.
    exact (triple_partial _ _ _ _ _
             (gen_erp_fields True day_str (or_introl I)) Hrun). }
  destruct (String.eqb source "support") eqn:E5; [|discriminate].
  apply String.eqb_eq in E5. subst source. injection Hgen as <-.
  apply support_common.
  exact (triple_partial _ _ _ _ _
           (gen_support_fields True day_str (or_introl I)) Hrun).
Qed.

(** X21.  The table of factories and the list of sources agree:
    [GEN_BY_SOURCE] has a factory for a name exactly when the name is one
    of the five of [SOURCES]; and every record of the factory filed under
    a name carries that name as [source_system], and an [amount] and an
    [event_type] of its own. *)
Theorem factory_table_matches_sources source :
  (In source SOURCES
   <-> exists gen, GEN_BY_SOURCE (G := G) (U := U) source = Some gen)
  /\ forall gen day_str (r : Rand G U) rec r',
       GEN_BY_SOURCE source = Some gen -> gen day_str r = Ok (rec, r') ->
       dict_get "source_system" rec = Some (VStr source)
       /\ dict_mem "amount" rec = true
       /\ dict_mem "event_type" rec = true.
Proof.
  split.
  - split; [apply GEN_BY_SOURCE_known|].
    intros (gen & Hgen). revert Hgen. unfold GEN_BY_SOURCE, SOURCES.
    repeat match goal with
           | |- (if String.eqb ?a ?b then _ else _) = _ -> _ =>
               let E := fresh "E" in
               destruct (String.eqb a b) eqn:E;
               [apply String.eqb_eq in E; subst; intros _; cbn; auto 10|]
           end.
    discriminate.
  - intros gen day_str r rec r' Hgen Hrun.
    destruct (factory_records_common _ _ _ _ _ _ Hgen Hrun)
      as (Ha & He & t & ts & _ & _ & Hs & _).
    auto.
Qed.

(** X22.  Every line the writer puts in a file of a partition is a record
    of the factory of the source exactly as the factory returned it (the
    five factories always give [amount] and [event_type], so the backfills
    never apply); its [source_system] is the source of the partition, and
    its [timestamp] is a time of the day of the partition, starting with
    that day written YYYY-MM-DD. *)
Theorem written_lines_match_partition day_str source out_dir count
    events_per_file (w : World G U) base w' :
  write_partition day_str source out_dir count events_per_file w
  = Ok (base, w') ->
  forall p lines,
    fs_read p (files w') = Some lines ->
    fs_read p (files w) = Some lines
    \/ Forall
         (fun line =>
            (exists gen r r',
                GEN_BY_SOURCE source = Some gen
                /\ gen day_str r = Ok (line, r'))
            /\ stamped day_str source line)
         lines.
Proof.
  intros Hrun p lines Hread.
  apply write_partition_with_ok in Hrun.
  destruct Hrun as (_ & q & contents & _ & _ & Hall & Hf & _).
  rewrite Hf in Hread.
  match type of Hread with fs_read p (fs_write_all ?ws ?fs) = _ =>
    destruct (fs_read_write_all p ws fs) as [Heq | (c & Hin & Hc)]
  end.
  - left. rewrite <- Heq. exact Hread.
  - right. rewrite Hc in Hread. injection Hread as <-.
    apply in_combine_r in Hin.
    rewrite Forall_forall in Hall. specialize (Hall c Hin).
    eapply Forall_impl; [|exact Hall].
    intros line (gen & rec & r & r' & Hg & Hgen & ->).
    destruct (factory_records_common _ _ _ _ _ _ Hg Hgen) as (Ha & He & Hs).
    rewrite (ensure_common_fields_id _ Ha He). split; [|exact Hs].
    exists gen, r, r'. auto.
Qed.

End WrittenLines.

(** ** The quotient [n_events / events_per_file] *)

Section Quotient.

Lemma true_div_pos_mant a b x :
  0 < a -> 0 < b -> true_div_pos a b = Ok x -> 0 <= mant x.
Proof.
  intros Ha Hb. unfold true_div_pos. cbv zeta.
  set (k := Z.max (quot_exponent a b - 52) (-1074)).
  destruct (0 <=? k) eqn:Ek.
  - apply Z.leb_le in Ek.
    assert (Hden : 0 < b * 2 ^ k) by (apply Z.mul_pos_pos; lia).
    pose proof (round_half_even_bounds a (b * 2 ^ k) Hden ltac:(lia))
      as [Hlo _].
    pose proof (Z.div_pos a (b * 2 ^ k) ltac:(lia) Hden).
    cbn [andb].
    destruct (2 ^ 1024 <=? _); [discriminate|].
    intros [= <-]. cbn [mant]. lia.
  - apply Z.leb_gt in Ek. cbn [andb].
    assert (Hp : 0 < 2 ^ (- k)) by (apply Z.pow_pos_nonneg; lia).
    pose proof (round_half_even_bounds (a * 2 ^ (- k)) b Hb ltac:(nia))
      as [Hlo _].
    pose proof (Z.div_pos (a * 2 ^ (- k)) b ltac:(nia) Hb).
    intros [= <-]. cbn [mant]. lia.
Qed.

Lemma math_ceil_nonpos m e : m <= 0 -> math_ceil (F64 m e) <= 0.
Proof.
  intros Hm. unfold math_ceil. cbn [mant expo].
  destruct (0 <=? e) eqn:Ee.
  - apply Z.leb_le in Ee.
    assert (0 <= 2 ^ e) by (apply Z.pow_nonneg; lia). nia.
  - apply Z.leb_gt in Ee.
    assert (0 < 2 ^ (- e)) by (apply Z.pow_pos_nonneg; lia).
    assert (0 <= - m / 2 ^ (- e)) by (apply Z.div_pos; lia). lia.
Qed.

(** A quotient that is not positive asks for no file, so for one. *)
Lemma n_files_nonpositive n e :
  - 2 ^ 53 < n < 2 ^ 53 ->
  (n <= 0 /\ 1 <= e) \/ (0 <= n /\ e < 0) ->
  exists q, true_div n e = Ok q /\ Z.max 1 (math_ceil q) = 1.
Proof.
  intros Hn Hsign. unfold true_div.
  replace (e =? 0) with false by (symmetry; apply Z.eqb_neq; lia).
  destruct (n =? 0) eqn:En.
  { eexists. split; [reflexivity|]. reflexivity. }
  apply Z.eqb_neq in En.
  destruct (true_div_ceil_small (Z.abs n) (Z.abs e) ltac:(lia) ltac:(lia))
    as (x' & Hx' & _).
  unfold true_div in Hx'.
  replace (Z.abs e =? 0) with false in Hx'
    by (symmetry; apply Z.eqb_neq; lia).
  replace (Z.abs n =? 0) with false in Hx'
    by (symmetry; apply Z.eqb_neq; lia).
  rewrite !Z.abs_idemp in Hx'.
  destruct (true_div_pos (Z.abs n) (Z.abs e)) as [x | err] eqn:Epos;
    [|discriminate].
  pose proof (true_div_pos_mant (Z.abs n) (Z.abs e) x ltac:(lia) ltac:(lia)
                Epos) as Hm.
  eexists. split; [reflexivity|].
  assert (Hs : Z.sgn n * Z.sgn e = -1).
  { destruct Hsign as [[? ?] | [? ?]].
    - rewrite (Z.sgn_neg n), (Z.sgn_pos e) by lia. reflexivity.
    - rewrite (Z.sgn_pos n), (Z.sgn_neg e) by lia. reflexivity. }
  rewrite Hs.
  pose proof (math_ceil_nonpos (-1 * mant x) (expo x) ltac:(lia)). lia.
Qed.

End Quotient.

(** ** Reading back what a run wrote *)

Section ReadBack.

Lemma fs_read_write_all_other p ws (fs : FS) :
  ~ In p (map fst ws) -> fs_read p (fs_write_all ws fs) = fs_read p fs.
Proof.
  revert fs. induction ws as [|[q c] ws IH]; intros fs Hnot;
    cbn [fs_write_all fold_left fst snd]; [reflexivity|].
  fold (fs_write_all ws (fs_write q c fs)).
  cbn [map fst In] in Hnot.
  rewrite IH by tauto. apply fs_read_write_other. tauto.
Qed.

Lemma fs_read_write_all_in p c ws (fs : FS) :
  NoDup (map fst ws) -> In (p, c) ws ->
  fs_read p (fs_write_all ws fs) = Some c.
Proof.
  revert fs. induction ws as [|[q c'] ws IH]; intros fs Hnd Hin;
    [contradiction|].
  cbn [fs_write_all fold_left fst snd].
  fold (fs_write_all ws (fs_write q c' fs)).
  cbn [map fst] in Hnd. inversion Hnd as [|? ? Hnot Hnd']. subst.
  destruct Hin as [[= -> ->] | Hin].
  - rewrite fs_read_write_all_other by exact Hnot.
    apply fs_read_write_same.
  - apply IH; assumption.
Qed.

Lemma nth_error_combine {A B : Type} (xs : list A) (ys : list B) i x y :
  nth_error xs i = Some x -> nth_error ys i = Some y ->
  In (x, y) (combine xs ys).
Proof.
  revert ys i. induction xs as [|a xs IH]; intros [|b ys] [|i] Hx Hy;
    try discriminate.
  - injection Hx as ->. injection Hy as ->. left. reflexivity.
  - right. eapply IH; eassumption.
Qed.

Lemma nth_error_range k i :
  0 <= i < k -> nth_error (range k) (Z.to_nat i) = Some i.
Proof.
  intros H. unfold range.
  rewrite nth_error_map, nth_error_seq.
  replace (Z.to_nat i <? Z.to_nat k)%nat with true
    by (symmetry; apply Nat.ltb_lt; lia).
  cbn. f_equal. lia.
Qed.

End ReadBack.

(** ** Runs of the writer *)

Section WriterRuns.

Context {G U : Type} `{RandomG : Random G} `{UuidU : UuidSource U}.

Local Abbreviation World := (World G U) (only parsing).
Local Abbreviation factories := (factories G U) (only parsing).

Lemma range_cons k : 1 <= k -> exists rest, range k = 0 :: rest.
Proof.
  intros H. unfold range.
  destruct (Z.to_nat k) as [|m] eqn:E; [lia|].
  cbn [seq map]. eexists. reflexivity.
Qed.

(** An exception of the factory on the first record is the exception of
    the writer. *)
Lemma write_partition_with_first_raises (gens : factories) day_str source
    out_dir n events_per_file e :
  1 <= n < 2 ^ 53 -> 1 <= events_per_file ->
  (forall w : World, gen_line gens source day_str w = Err e) ->
  forall w : World,
    write_partition_with gens day_str source out_dir n events_per_file w
    = Err e.
Proof.
  intros Hn Hepf Hline w.
  destruct (n_files_small n events_per_file ltac:(lia) Hepf) as (q & Eq & Hq).
  unfold write_partition_with.
  unfold bind at 1. cbn [mkdir_p].
  unfold bind at 1. unfold lift at 1. rewrite Eq.
  destruct (range_cons (Z.max 1 (math_ceil q)) ltac:(lia)) as (rest & ->).
  apply raises_first. cbn [for_fold]. apply raises_first.
  unfold write_part. apply raises_first.
  destruct (Z.to_nat (Z.min events_per_file n)) as [|m] eqn:Em; [lia|].
  cbn [replicateM]. apply raises_first. apply Hline.
Qed.

(** X23.  The exceptions of the writer.  With [events_per_file = 0] it
    raises ZeroDivisionError, whatever the other arguments.  With at least
    one event to write ([1 <= n < 2^53], [events_per_file >= 1]) it raises
    KeyError for a source that [GEN_BY_SOURCE] does not know, and
    ValueError for a known source and a day string [strptime] rejects. *)
Theorem write_partition_raises day_str source out_dir n events_per_file
    (w : World) :
  write_partition day_str source out_dir n 0 w = Err ZeroDivisionError
  /\ (1 <= n < 2 ^ 53 -> 1 <= events_per_file ->
      GEN_BY_SOURCE (G := G) (U := U) source = None ->
      write_partition day_str source out_dir n events_per_file w
      = Err KeyError)
  /\ (1 <= n < 2 ^ 53 -> 1 <= events_per_file ->
      In source SOURCES -> (forall t, strptime day_str <> Ok t) ->
      write_partition day_str source out_dir n events_per_file w
      = Err ValueError).
Proof.
  split; [|split].
  - unfold write_partition, write_partition_with.
    unfold bind at 1. cbn [mkdir_p].
    apply raises_first. reflexivity.
  - intros Hn Hepf Hnone.
    apply write_partition_with_first_raises; try assumption.
    intros w0. unfold gen_line. rewrite Hnone. reflexivity.
  - intros Hn Hepf Hsrc Hbad.
    apply write_partition_with_first_raises; try assumption.
    intros w0. unfold gen_line.
    destruct (GEN_BY_SOURCE_known source Hsrc) as (gen & Hgen).
    rewrite Hgen. apply raises_first. unfold run_gen.
    rewrite (factory_raises_on_bad_day source gen day_str (rand w0) Hgen Hbad).
    reflexivity.
Qed.

(** X24.  When there is nothing to write ([n <= 0] with
    [events_per_file >= 1]) or the size of a file is negative ([n >= 0]
    with [events_per_file < 0]), the writer calls no factory, so it
    returns for any source and day string: it writes the one empty file
    [part-00000.json], leaves the random sources as they are, and prints
    the one line [Wrote <min(events_per_file, n)> events -> <path>]. *)
Theorem write_partition_nothing_to_write (gens : factories) day_str source
    out_dir n events_per_file (w : World) :
  - 2 ^ 53 < n < 2 ^ 53 ->
  (n <= 0 /\ 1 <= events_per_file) \/ (0 <= n /\ events_per_file < 0) ->
  exists base w',
    write_partition_with gens day_str source out_dir n events_per_file w
    = Ok (base, w')
    /\ base = out_dir // ("day=" +++ day_str) // ("source=" +++ source)
    /\ files w' = fs_write (base // part_name 0) [] (files w)
    /\ rand w' = rand w
    /\ stdout w'
       = stdout w ++ [wrote_line base 0 (Z.min events_per_file n)].
Proof.
  intros Hn Hsign.
  destruct (n_files_nonpositive n events_per_file Hn Hsign) as (q & Eq & Hq).
  unfold write_partition_with.
  unfold bind at 1. cbn [mkdir_p].
  unfold bind at 1. unfold lift at 1. rewrite Eq, Hq.
  change (range 1) with [0]. cbn [for_fold]. unfold write_part.
  replace (Z.to_nat (Z.min events_per_file n)) with 0%nat by lia.
  cbn [replicateM]. do 2 eexists. split; [reflexivity|].
  cbn [files rand stdout]. auto.
Qed.

Lemma write_part_stdout (gens : factories) day_str source base
    events_per_file i remaining (w : World) remaining' w' :
  write_part gens day_str source base events_per_file i remaining w
  = Ok (remaining', w') ->
  stdout w'
  = stdout w ++ [wrote_line base i (Z.min events_per_file remaining)].
Proof.
  unfold write_part. intros H.
  apply bind_ok in H. destruct H as (lines & w1 & Hgen & H).
  apply replicate_gen_line_ok in Hgen.
  destruct Hgen as (_ & _ & _ & _ & Hs).
  apply bind_ok in H. destruct H as ([] & w2 & Hw & H).
  apply bind_ok in H. destruct H as ([] & w3 & Hp & H).
  injection Hw as <-. injection Hp as <-. injection H as <- <-.
  cbn [stdout]. rewrite Hs. reflexivity.
Qed.

Lemma write_loop_stdout (gens : factories) day_str source base
    events_per_file :
  forall idxs remaining (w : World) remaining' w',
    for_fold idxs (write_part gens day_str source base events_per_file)
      remaining w = Ok (remaining', w') ->
    stdout w'
    = stdout w
      ++ map (fun x => wrote_line base (fst x) (snd x))
           (combine idxs
              (part_counts (length idxs) events_per_file remaining)).
Proof.
  induction idxs as [|i idxs IH]; intros remaining w remaining' w' H;
    cbn [for_fold] in H.
  - injection H as <- <-. cbn. rewrite app_nil_r. reflexivity.
  - apply bind_ok in H. destruct H as (rem1 & w1 & Hpart & H).
    pose proof (write_part_stdout _ _ _ _ _ _ _ _ _ _ Hpart) as Hs1.
    apply write_part_ok in Hpart.
    destruct Hpart as (lines & _ & _ & -> & _ & _).
    apply IH in H. rewrite H, Hs1.
    cbn [length part_counts combine map fst snd].
    rewrite <- app_assoc. reflexivity.
Qed.

Lemma write_partition_with_stdout (gens : factories) day_str source out_dir
    n events_per_file (w : World) base w' q :
  write_partition_with gens day_str source out_dir n events_per_file w
  = Ok (base, w') ->
  true_div n events_per_file = Ok q ->
  stdout w'
  = stdout w
    ++ map (fun x => wrote_line base (fst x) (snd x))
         (combine (range (Z.max 1 (math_ceil q)))
            (part_counts (Z.to_nat (Z.max 1 (math_ceil q))) events_per_file
               n)).
Proof.
  unfold write_partition_with. intros H Eq.
  apply bind_ok in H. destruct H as ([] & w1 & Hmk & H).
  injection Hmk as <-.
  apply bind_ok in H. destruct H as (q' & w2 & Hq & H).
  unfold lift in Hq. rewrite Eq in Hq. injection Hq as <- <-.
  apply bind_ok in H. destruct H as (rem & w3 & Hloop & H).
  injection H as <- <-.
  apply write_loop_stdout in Hloop. rewrite range_length in Hloop.
  exact Hloop.
Qed.

(** The files and the console after a run below [2^53] events. *)
Lemma write_partition_small_run day_str source out_dir n events_per_file
    (w : World) :
  day_ok day_str -> In source SOURCES ->
  0 <= n < 2 ^ 53 -> 1 <= events_per_file ->
  let k := Z.max 1 (ceil_div n events_per_file) in
  let counts :=
    repeat events_per_file (Z.to_nat (k - 1))
    ++ [n - (k - 1) * events_per_file] in
  exists base w' contents,
    write_partition day_str source out_dir n events_per_file w
    = Ok (base, w')
    /\ base = out_dir // ("day=" +++ day_str) // ("source=" +++ source)
    /\ map (fun lines => Z.of_nat (length lines)) contents = counts
    /\ files w'
       = fs_write_all
           (combine (map (fun i => base // part_name i) (range k)) contents)
           (files w)
    /\ stdout w'
       = stdout w
         ++ map (fun x => wrote_line base (fst x) (snd x))
              (combine (range k) counts).
Proof.
  intros Hday Hsrc Hn Hepf k counts.
  destruct (n_files_small n events_per_file Hn Hepf) as (q & Eq & Hq).
  destruct (write_partition_total day_str source out_dir n events_per_file
              q w Hday Hsrc Eq) as (base & w' & Hrun).
  unfold write_partition in Hrun.
  pose proof (write_partition_with_stdout _ _ _ _ _ _ _ _ _ _ Hrun Eq) as Hout.
  pose proof Hrun as Hrun'.
  apply write_partition_with_ok in Hrun'.
  destruct Hrun' as (Hbase & q' & contents & Eq' & Hc & _ & Hf & _).
  assert (q' = q) by congruence. subst q'.
  rewrite Hq in *. fold k in Hc, Hf, Hout.
  pose proof (n_files_bounds n events_per_file ltac:(lia) Hepf) as Hk.
  cbv zeta in Hk. fold k in Hk.
  assert (Hk1 : 1 <= k) by (unfold k; lia).
  assert (Ek : Z.to_nat k = S (Z.to_nat (k - 1))) by lia.
  assert (Hshape : part_counts (Z.to_nat k) events_per_file n = counts).
  { rewrite Ek, part_counts_shape by (rewrite ?Nat2Z.inj_succ, ?Z2Nat.id; lia).
    rewrite Z2Nat.id by lia. reflexivity. }
  rewrite Hshape in Hc, Hout.
  exists base, w', contents.
  split; [exact Hrun|]. split; [exact Hbase|].
  split; [|split; assumption].
  apply Forall2_lengths; [exact Hc|].
  unfold counts. apply Forall_app. split.
  - apply Forall_forall. intros c Hin. apply repeat_spec in Hin. lia.
  - constructor; [lia | constructor].
Qed.

(** X25.  A run of the writer ([0 <= n < 2^53], [events_per_file >= 1])
    replaces the files it names and touches no other: with
    [k = max(1, ceil(n / events_per_file))], each file [part-<i>.json],
    [i < k], then holds exactly its share of lines ([events_per_file], the
    rest for the last), whatever it held before, and every other file,
    also a [part-<i>.json] with [i >= k] left in the directory by an
    earlier run, is as it was. *)
Theorem write_partition_overwrites day_str source out_dir n events_per_file
    (w : World) :
  day_ok day_str -> In source SOURCES ->
  0 <= n < 2 ^ 53 -> 1 <= events_per_file ->
  exists base w',
    write_partition day_str source out_dir n events_per_file w
    = Ok (base, w')
    /\ let k := Z.max 1 (ceil_div n events_per_file) in
       (forall i, 0 <= i < k ->
          exists lines,
            fs_read (base // part_name i) (files w') = Some lines
            /\ Z.of_nat (length lines)
               = (if i <? k - 1 then events_per_file
                  else n - (k - 1) * events_per_file))
       /\ (forall p, (forall i, 0 <= i < k -> p <> base // part_name i) ->
                     fs_read p (files w') = fs_read p (files w)).
Proof.
  intros Hday Hsrc Hn Hepf.
  destruct (write_partition_small_run day_str source out_dir n
              events_per_file w Hday Hsrc Hn Hepf)
    as (base & w' & contents & Hrun & _ & Hlen & Hf & _).
  cbv zeta in *.
  set (k := Z.max 1 (ceil_div n events_per_file)) in *.
  assert (Hk1 : 1 <= k) by (unfold k; lia).
  exists base, w'. split; [exact Hrun|]. split.
  - intros i Hi.
    assert (Hclen : length contents = Z.to_nat k).
    { apply (f_equal (@length Z)) in Hlen.
      rewrite length_map, length_app, repeat_length in Hlen.
      cbn [length] in Hlen. lia. }
    destruct (nth_error contents (Z.to_nat i)) as [lines|] eqn:En.
    2:{ apply nth_error_None in En. lia. }
    exists lines. split.
    + rewrite Hf. apply fs_read_write_all_in.
      * rewrite map_fst_combine
          by (rewrite length_map, range_length; lia).
        apply part_paths_NoDup.
      * eapply nth_error_combine; [|exact En].
        rewrite nth_error_map, nth_error_range by exact Hi. reflexivity.
    + apply (f_equal (fun l => nth_error l (Z.to_nat i))) in Hlen.
      rewrite nth_error_map, En in Hlen. cbn [option_map] in Hlen.
      destruct (i <? k - 1) eqn:Ei.
      * apply Z.ltb_lt in Ei.
        rewrite nth_error_app1 in Hlen by (rewrite repeat_length; lia).
        destruct (nth_error (repeat events_per_file (Z.to_nat (k - 1)))
                    (Z.to_nat i)) as [c|] eqn:Ec; [|discriminate].
        apply nth_error_In, repeat_spec in Ec. congruence.
      * apply Z.ltb_ge in Ei.
        rewrite nth_error_app2 in Hlen by (rewrite repeat_length; lia).
        rewrite repeat_length in Hlen.
        replace (Z.to_nat i - Z.to_nat (k - 1))%nat with 0%nat in Hlen by lia.
        cbn in Hlen. congruence.
  - intros p Hp. rewrite Hf. apply fs_read_write_all_other.
    intros Hin. apply in_map_iff in Hin. destruct Hin as ([p' c] & <- & Hin).
    apply in_combine_l in Hin. apply in_map_iff in Hin.
    destruct Hin as (i & <- & Hi). apply in_range_iff in Hi.
    exact (Hp i Hi eq_refl).
Qed.

(** X26.  A run of the writer ([0 <= n < 2^53], [events_per_file >= 1])
    prints one line per file, in the order of the files:
    [Wrote <count> events -> <path of part-<i>.json>], with
    [events_per_file] for count on every file but the last and the rest on
    the last. *)
Theorem write_partition_console day_str source out_dir n events_per_file
    (w : World) :
  day_ok day_str -> In source SOURCES ->
  0 <= n < 2 ^ 53 -> 1 <= events_per_file ->
  exists base w',
    write_partition day_str source out_dir n events_per_file w
    = Ok (base, w')
    /\ let k := Z.max 1 (ceil_div n events_per_file) in
       stdout w'
       = stdout w
         ++ map (fun x => wrote_line base (fst x) (snd x))
              (combine (range k)
                 (repeat events_per_file (Z.to_nat (k - 1))
                  ++ [n - (k - 1) * events_per_file])).
Proof.
  intros Hday Hsrc Hn Hepf.
  destruct (write_partition_small_run day_str source out_dir n
              events_per_file w Hday Hsrc Hn Hepf)
    as (base & w' & contents & Hrun & _ & _ & _ & Hout).
  exists base, w'. split; [exact Hrun | exact Hout].
Qed.

End WriterRuns.

(** ** The driver *)

Section DriverDayStrings.

Lemma datetime_eta t :
  hour t = 0 -> minute t = 0 -> second t = 0 ->
  DT (year t) (month t) (day t) 0 0 0 = t.
Proof. destruct t. cbn. intros -> -> ->. reflexivity. Qed.

Lemma strptime_strftime_same day t :
  strptime day = Ok t -> strptime (strftime t) = Ok t.
Proof.
  intros Ht. destruct (strptime_valid _ _ Ht) as (Hv & Hh & Hm & Hs).
  rewrite (strptime_strftime t Hv). f_equal. apply datetime_eta; assumption.
Qed.

Lemma day_string_toordinal day t :
  strptime day = Ok t -> day_string (toordinal t) = strftime t.
Proof.
  intros Ht. destruct (strptime_valid _ _ Ht) as (Hv & Hh & Hm & Hs).
  unfold day_string, toordinal. rewrite (ord2ymd_ymd2ord _ _ _ Hv).
  unfold strftime. reflexivity.
Qed.

(** X27.  The day strings of the driver.  For an end day [strptime]
    accepts, the day string of the turn [d] of the loop is [strftime] of
    the date [d] days earlier; at [d = 0] it is the end day written anew
    (2024-1-3 gives 2024-01-03).  For a date from the year 1000 on, where
    [%Y] gives four digits on every platform, it has ten characters and
    parses back to that date.  A date before 0001-01-01 raises
    OverflowError. *)
Theorem driver_day_strings day t d :
  strptime day = Ok t ->
  day_back day 0 = Ok (strftime t)
  /\ (1 <= toordinal t - d <= MAXORDINAL ->
      exists t',
        day_back day d = Ok (strftime t')
        /\ wf_datetime t'
        /\ toordinal t' = toordinal t - d
        /\ (1000 <= year t' ->
            String.length (strftime t') = 10%nat
            /\ strptime (strftime t') = Ok t'))
  /\ (toordinal t - d < 1 -> day_back day d = Err OverflowError).
Proof.
  intros Ht.
  pose proof (toordinal_range t (strptime_wf _ _ Ht)) as Hr.
  split; [|split].
  - rewrite (day_back_ok day t 0 Ht) by lia.
    rewrite Z.sub_0_r. f_equal. apply (day_string_toordinal day), Ht.
  - intros Hd. rewrite (day_back_ok day t d Ht Hd).
    destruct (strptime_day_string (toordinal t - d) Hd) as (t' & Ht' & Ho).
    exists t'. rewrite <- Ho at 1.
    rewrite (day_string_toordinal _ t' Ht').
    destruct (strptime_valid _ _ Ht') as (Hv & _).
    split; [reflexivity|].
    split; [apply (strptime_wf _ _ Ht')|].
    split; [exact Ho|]. intros _.
    split; [apply strftime_length, Hv|].
    apply (strptime_strftime_same _ _ Ht').
  - intros Hd. unfold day_back. rewrite Ht.
    rewrite dt_add_overflow; [reflexivity|].
    cbv zeta. destruct (strptime_valid _ _ Ht) as (_ & Hh & Hm & Hs).
    rewrite Hh, Hm, Hs. change ((0 * 3600 + 0 * 60 + 0 + 0) / 86400) with 0.
    lia.
Qed.

End DriverDayStrings.

Section DriverRuns.

Context {G U : Type} `{RandomG : Random G} `{UuidU : UuidSource U}.

Local Abbreviation World := (World G U) (only parsing).

Lemma range_nonpositive n : n <= 0 -> range n = [].
Proof.
  intros H. unfold range. replace (Z.to_nat n) with 0%nat by lia. reflexivity.
Qed.

(** X28.  With [--days] zero or negative the driver makes the output
    directory and nothing else: it returns, also for an end day that does
    not parse or [--events-per-file 0], with the files, the console and
    the random sources as they were. *)
Theorem main_without_days args (w : World) :
  arg_days args <= 0 ->
  exists w',
    main args w = Ok (tt, w')
    /\ In (path_of_string (arg_out args)) (dirs w')
    /\ files w' = files w /\ stdout w' = stdout w /\ rand w' = rand w.
Proof.
  intros Hd. unfold main. rewrite (range_nonpositive _ Hd).
  cbn [for_each]. unfold bind, mkdir_p, ret. eexists. split; [reflexivity|].
  cbn [dirs files stdout rand].
  split; [|auto].
  destruct (in_dec _ _ _) as [Hin | Hnot]; [exact Hin|].
  apply in_or_app. right. left. reflexivity.
Qed.

(** X29.  With [--days] at least 1, the driver raises ValueError for an
    end day [strptime] rejects, and ZeroDivisionError for an end day that
    parses and [--events-per-file 0]. *)
Theorem main_raises args (w : World) :
  1 <= arg_days args ->
  ((forall t, strptime (arg_day args) <> Ok t) ->
   main args w = Err ValueError)
  /\ (forall t, strptime (arg_day args) = Ok t ->
                arg_events_per_file args = 0 ->
                main args w = Err ZeroDivisionError).
Proof.
  intros Hd.
  destruct (range_cons (arg_days args) Hd) as (rest & Hrange).
  split.
  - intros Hbad. unfold main. rewrite Hrange.
    unfold bind at 1. cbn [mkdir_p for_each].
    apply raises_first, raises_first. unfold lift, day_back.
    destruct (strptime (arg_day args)) as [t | e] eqn:Es.
    + destruct (Hbad t). reflexivity.
    + rewrite (strptime_raises _ _ Es). reflexivity.
  - intros t Ht Hzero. unfold main. rewrite Hrange, Hzero.
    unfold bind at 1. cbn [mkdir_p for_each].
    apply raises_first.
    pose proof (toordinal_range t (strptime_wf _ _ Ht)) as Hr.
    unfold bind at 1. unfold lift at 1.
    rewrite (day_back_ok _ t 0 Ht) by lia.
    apply raises_first.
    change (enumerate SOURCES)
      with [(0, "payments"); (1, "billing"); (2, "crm"); (3, "erp");
            (4, "support")].
    cbn [for_each]. apply raises_first, raises_first.
    unfold write_partition, write_partition_with.
    unfold bind at 1. cbn [mkdir_p].
    apply raises_first. reflexivity.
Qed.

End DriverRuns.

(** ** The events of a day *)

Section Frames.

Lemma files_in_fs_write_other dir p c (fs : FS) :
  parent p <> dir -> files_in dir (fs_write p c fs) = files_in dir fs.
Proof.
  intros Hne. induction fs as [|[q c'] fs IH]; cbn [fs_write].
  - unfold files_in. cbn [filter fst].
    destruct (path_eq_dec (parent p) dir); [contradiction | reflexivity].
  - destruct (list_eq_dec string_dec p q) as [<- | Hpq].
    + unfold files_in. cbn [filter fst].
      destruct (path_eq_dec (parent p) dir); [contradiction | reflexivity].
    + unfold files_in in *. cbn [filter fst]. rewrite IH. reflexivity.
Qed.

Lemma files_in_fs_write_all_other dir ws (fs : FS) :
  (forall p, In p (map fst ws) -> parent p <> dir) ->
  files_in dir (fs_write_all ws fs) = files_in dir fs.
Proof.
  revert fs. induction ws as [|[q c] ws IH]; intros fs Hne;
    cbn [fs_write_all fold_left fst snd]; [reflexivity|].
  fold (fs_write_all ws (fs_write q c fs)).
  rewrite IH by (intros p Hp; apply Hne; right; exact Hp).
  apply files_in_fs_write_other. apply Hne. left. reflexivity.
Qed.

Lemma day_string_inj n1 n2 :
  1 <= n1 <= MAXORDINAL -> 1 <= n2 <= MAXORDINAL ->
  day_string n1 = day_string n2 -> n1 = n2.
Proof.
  intros H1 H2 E.
  destruct (strptime_day_string n1 H1) as (t1 & Ht1 & <-).
  destruct (strptime_day_string n2 H2) as (t2 & Ht2 & <-).
  rewrite E in Ht1. congruence.
Qed.

Lemma partition_dir_inj out_dir n d1 s1 d2 s2 :
  1 <= n - d1 <= MAXORDINAL -> 1 <= n - d2 <= MAXORDINAL ->
  partition_dir out_dir n d1 s1 = partition_dir out_dir n d2 s2 ->
  d1 = d2 /\ s1 = s2.
Proof.
  intros H1 H2 E. unfold partition_dir in E.
  apply app_inv_head in E. injection E as Ed Es.
  apply day_string_inj in Ed; try assumption. split; [lia | exact Es].
Qed.

Lemma source_index_unique idx1 idx2 source :
  In (idx1, source) (enumerate SOURCES) ->
  In (idx2, source) (enumerate SOURCES) -> idx1 = idx2.
Proof.
  change (enumerate SOURCES)
    with [(0, "payments"); (1, "billing"); (2, "crm"); (3, "erp");
          (4, "support")].
  cbn [In]. intros H1 H2.
  repeat (destruct H1 as [[= <- <-] | H1]); try contradiction;
    repeat (destruct H2 as [[= <-] | H2]); try contradiction;
    try reflexivity; try discriminate.
Qed.

Lemma enumerated_source idx source :
  In (idx, source) (enumerate SOURCES) -> In source SOURCES.
Proof. intros H. apply in_combine_r in H. exact H. Qed.

Lemma source_no_slash source :
  In source SOURCES -> contains_char "/" source = false.
Proof.
  unfold SOURCES. cbn [In].
  intros [<- | [<- | [<- | [<- | [<- | []]]]]]; reflexivity.
Qed.

Lemma allocation_sum T :
  allocation T 0 + (allocation T 1 + (allocation T 2 + (allocation T 3
    + (allocation T 4 + 0)))) = T.
Proof.
  unfold allocation, remainder, per_source.
  change (Z.of_nat (length SOURCES)) with 5.
  pose proof (Z.div_mod T 5 ltac:(lia)) as Hdm.
  pose proof (Z.mod_pos_bound T 5 ltac:(lia)) as Hm.
  repeat match goal with
         | |- context [?a <? ?b] => destruct (Z.ltb_spec a b)
         end; lia.
Qed.

(** A loop whose turns keep an invariant of the turns done so far. *)
Lemma for_each_invariant {S A : Type} (xs : list A) (body : A -> M S unit)
    (Inv : list A -> S -> Prop) :
  (forall done x rest s,
      xs = done ++ x :: rest -> Inv done s ->
      exists s', body x s = Ok (tt, s') /\ Inv (done ++ [x]) s') ->
  forall s, Inv [] s -> exists s', for_each xs body s = Ok (tt, s') /\ Inv xs s'.
Proof.
  intros Hstep.
  assert (H : forall rest done s,
             xs = done ++ rest -> Inv done s ->
             exists s', for_each rest body s = Ok (tt, s') /\ Inv xs s').
  { induction rest as [|x rest IH]; intros done s Exs Hinv.
    - rewrite app_nil_r in Exs. subst done. exists s. split; [reflexivity | exact Hinv].
    - destruct (Hstep done x rest s Exs Hinv) as (s1 & Hx & Hinv1).
      destruct (IH (done ++ [x]) s1) as (s2 & Hrest & Hinv2).
      + rewrite <- app_assoc. exact Exs.
      + exact Hinv1.
      + exists s2. split; [|exact Hinv2].
        cbn [for_each]. unfold bind. rewrite Hx. exact Hrest. }
  intros s Hinv. apply (H xs [] s); [reflexivity | exact Hinv].
Qed.

End Frames.

Section DayTotals.

Context {G U : Type} `{RandomG : Random G} `{UuidU : UuidSource U}.

Local Abbreviation World := (World G U) (only parsing).

Lemma partitions_hold_ext out_dir n N T (f g : Z -> string -> Prop) fs :
  (forall d source, 0 <= d < N -> In source SOURCES ->
                    (f d source <-> g d source)) ->
  partitions_hold out_dir n N T f fs -> partitions_hold out_dir n N T g fs.
Proof.
  intros Hext H d idx source Hd Hin.
  destruct (H d idx source Hd Hin) as [H1 H2].
  pose proof (Hext d source Hd (enumerated_source _ _ Hin)) as Hiff.
  split; intros Hg; [apply H1 | apply H2]; tauto.
Qed.

Lemma range_NoDup k : NoDup (range k).
Proof.
  unfold range. generalize 0%nat as a.
  induction (Z.to_nat k) as [|m IH]; intros a; cbn [seq map]; constructor.
  - intros Hin. apply in_map_iff in Hin. destruct Hin as (x & Ex & Hx).
    apply in_seq in Hx. lia.
  - apply IH.
Qed.

(** One call of the writer on a partition not yet written. *)
Lemma write_cell out_dir n N T events_per_file
    (written : Z -> string -> Prop) d idx source (w : World) :
  0 <= N <= n -> n + 30 <= MAXORDINAL ->
  0 <= T < 2 ^ 53 -> 1 <= events_per_file ->
  partitions_hold out_dir n N T written (files w) ->
  0 <= d < N -> In (idx, source) (enumerate SOURCES) ->
  ~ written d source ->
  exists base w',
    write_partition (day_string (n - d)) source out_dir (allocation T idx)
      events_per_file w = Ok (base, w')
    /\ partitions_hold out_dir n N T
         (fun d' s' => written d' s' \/ (d' = d /\ s' = source)) (files w').
Proof.
  intros HN Hmax HT Hepf Hinv Hd Hin Hnot.
  pose proof (enumerated_source _ _ Hin) as Hsrc.
  assert (Hday : day_ok (day_string (n - d))) by (apply day_string_ok; lia).
  assert (Hdir : out_dir // ("day=" +++ day_string (n - d))
                         // ("source=" +++ source)
                 = partition_dir out_dir n d source).
  { apply partition_dir_parts;
      [apply day_string_no_slash | apply source_no_slash, Hsrc]. }
  destruct (Hinv d idx source Hd Hin) as [_ Hempty].
  specialize (Hempty Hnot). rewrite <- Hdir in Hempty.
  destruct (write_partition_line_counts (day_string (n - d)) source out_dir
              (allocation T idx) events_per_file w Hday Hsrc
              (allocation_small T idx HT) Hepf Hempty)
    as (base & w' & Hrun & _ & Hlines).
  exists base, w'. split; [exact Hrun|].
  unfold write_partition in Hrun. apply write_partition_with_ok in Hrun.
  destruct Hrun as (Hbase & q & contents & _ & _ & _ & Hf & _).
  rewrite Hdir in Hbase.
  assert (Hframe : forall dir, dir <> base ->
                     files_in dir (files w') = files_in dir (files w)).
  { intros dir Hne. rewrite Hf. apply files_in_fs_write_all_other.
    intros p Hp. apply in_map_iff in Hp. destruct Hp as ([p' c] & <- & Hp).
    apply in_combine_l in Hp. apply in_map_iff in Hp.
    destruct Hp as (i & <- & _). cbn [fst].
    rewrite parent_join_part. congruence. }
  intros d' idx' s' Hd' Hin'.
  destruct (path_eq_dec (partition_dir out_dir n d' s') base) as [Heq | Hne].
  - rewrite Hbase in Heq.
    apply partition_dir_inj in Heq; [|unfold MAXORDINAL in *; lia..].
    destruct Heq as [-> ->].
    rewrite (source_index_unique idx' idx source Hin' Hin).
    rewrite <- Hbase. split; [intros _; exact Hlines|].
    intros Hn. exfalso. apply Hn. right. auto.
  - destruct (Hinv d' idx' s' Hd' Hin') as [H1 H2].
    unfold lines_in in *. rewrite (Hframe _ Hne). split.
    + intros [Hw | [-> ->]]; [exact (H1 Hw)|].
      exfalso. apply Hne. symmetry. exact Hbase.
    + intros Hn. apply H2. intros Hw. apply Hn. left. exact Hw.
Qed.

(** The five partitions of one day. *)
Lemma write_day out_dir n N T events_per_file (days_done : list Z) d
    (w : World) :
  0 <= N <= n -> n + 30 <= MAXORDINAL ->
  0 <= T < 2 ^ 53 -> 1 <= events_per_file ->
  partitions_hold out_dir n N T (fun d' _ => In d' days_done) (files w) ->
  0 <= d < N -> ~ In d days_done ->
  exists w',
    for_each (enumerate SOURCES)
      (fun '(idx, source) =>
         _ <- write_partition (day_string (n - d)) source out_dir
                (allocation T idx) events_per_file ;;
         ret tt) w = Ok (tt, w')
    /\ partitions_hold out_dir n N T (fun d' _ => In d' (days_done ++ [d]))
         (files w').
Proof.
  intros HN Hmax HT Hepf Hinv Hd Hnot.
  destruct (for_each_invariant (enumerate SOURCES)
              (fun '(idx, source) =>
                 _ <- write_partition (day_string (n - d)) source out_dir
                        (allocation T idx) events_per_file ;;
                 ret tt)
              (fun done (w0 : World) =>
                 partitions_hold out_dir n N T
                   (fun d' s' => In d' days_done
                                 \/ (d' = d /\ In s' (map snd done)))
                   (files w0))) with (s := w) as (w' & Hrun & Hinv').
  - intros done [idx source] rest w0 Exs Hinv0.
    assert (Hin : In (idx, source) (enumerate SOURCES)).
    { rewrite Exs. apply in_or_app. right. left. reflexivity. }
    assert (Hfresh : ~ In source (map snd done)).
    { assert (Hnd : NoDup (map snd (enumerate SOURCES)))
        by (repeat constructor; cbn; intuition discriminate).
      rewrite Exs, map_app in Hnd. cbn [map snd] in Hnd.
      apply NoDup_remove_2 in Hnd. intros Hs. apply Hnd.
      apply in_or_app. left. exact Hs. }
    destruct (write_cell out_dir n N T events_per_file _ d idx source w0
                HN Hmax HT Hepf Hinv0 Hd Hin) as (base & w1 & Hw & Hinv1).
    { intros [Hdone | [_ Hs]]; [exact (Hnot Hdone) | exact (Hfresh Hs)]. }
    exists w1. split; [unfold bind; rewrite Hw; reflexivity|].
    eapply partitions_hold_ext; [|exact Hinv1].
    intros d' s' _ _. rewrite map_app, in_app_iff. cbn [map snd In].
    intuition (subst; auto).
  - eapply partitions_hold_ext; [|exact Hinv].
    intros d' s' _ _. cbn [map In]. tauto.
  - exists w'. split; [exact Hrun|].
    eapply partitions_hold_ext; [|exact Hinv'].
    intros d' s' _ Hs. rewrite in_app_iff. cbn [In].
    change (map snd (enumerate SOURCES)) with SOURCES.
    intuition (subst; auto).
Qed.

(** X30.  For an end day that parses, [N >= 0] days that stay in the
    years from 1000 on (where [%Y] gives four digits on every platform) and
    end by 9999-12-01, a total [0 <= T < 2^53] and
    [events_per_file >= 1], the driver returns, and from an empty file
    system each partition of each of the [N] days then holds exactly the
    share of its source, so that the five partitions of a day hold [T]
    lines together: the events of a day are [T] exactly, not about
    [T]. *)
Theorem main_writes_total_per_day args (w : World) t :
  strptime (arg_day args) = Ok t ->
  0 <= arg_days args <= toordinal t - ymd2ord 999 12 31 ->
  toordinal t + 30 <= MAXORDINAL ->
  0 <= arg_total_events args < 2 ^ 53 ->
  1 <= arg_events_per_file args ->
  files w = [] ->
  exists w',
    main args w = Ok (tt, w')
    /\ forall d,
         0 <= d < arg_days args ->
         let dir := partition_dir (path_of_string (arg_out args))
                      (toordinal t) d in
         (forall idx source,
             In (idx, source) (enumerate SOURCES) ->
             lines_in (dir source) (files w')
             = allocation (arg_total_events args) idx)
         /\ sum_Z (map (fun source => lines_in (dir source) (files w'))
                     SOURCES)
            = arg_total_events args.
Proof.
  intros Ht HN' Hmax HT Hepf Hempty.
  assert (HN : 0 <= arg_days args <= toordinal t).
  { assert (0 <= ymd2ord 999 12 31) by (vm_compute; discriminate). lia. }
  clear HN'.
  set (out_dir := path_of_string (arg_out args)).
  set (n := toordinal t) in *.
  set (N := arg_days args) in *.
  set (T := arg_total_events args) in *.
  unfold main. fold out_dir N T.
  unfold bind at 1. cbn [mkdir_p].
  match goal with
  | |- exists w', for_each _ ?body ?w1 = _ /\ _ =>
      destruct (for_each_invariant (range N) body
                  (fun done (w0 : World) =>
                     partitions_hold out_dir n N T
                       (fun d' _ => In d' done) (files w0)))
        with (s := w1) as (w' & Hrun & Hinv)
  end.
  - intros done d rest w0 Exs Hinv0.
    assert (Hd : 0 <= d < N).
    { apply in_range_iff. rewrite Exs. apply in_or_app. right. left.
      reflexivity. }
    assert (Hfresh : ~ In d done).
    { pose proof (range_NoDup N) as Hnd. rewrite Exs in Hnd.
      apply NoDup_remove_2 in Hnd. intros Hin. apply Hnd.
      apply in_or_app. left. exact Hin. }
    unfold bind at 1. unfold lift at 1.
    rewrite (day_back_ok (arg_day args) t d Ht)
      by (fold n; unfold MAXORDINAL in *; lia).
    fold n.
    destruct (write_day out_dir n N T (arg_events_per_file args) done d w0
                HN Hmax HT Hepf Hinv0 Hd Hfresh) as (w1 & Hday & Hinv1).
    unfold bind at 1. rewrite Hday.
    eexists. split; [reflexivity|]. cbn [files]. exact Hinv1.
  - cbn [files]. rewrite Hempty. intros d idx source _ _.
    split; [intros [] | intros _; reflexivity].
  - exists w'. split; [exact Hrun|]. intros d Hd. cbv zeta.
    assert (Hall : forall idx source,
               In (idx, source) (enumerate SOURCES) ->
               lines_in (partition_dir out_dir n d source) (files w')
               = allocation T idx).
    { intros idx source Hin.
      destruct (Hinv d idx source Hd Hin) as [H1 _]. apply H1.
      apply in_range_iff. exact Hd. }
    split; [exact Hall|].
    unfold SOURCES. cbn [map sum_Z fold_right].
    rewrite (Hall 0 "payments"), (Hall 1 "billing"), (Hall 2 "crm"),
      (Hall 3 "erp"), (Hall 4 "support")
      by (vm_compute; auto 10).
    apply allocation_sum.
Qed.

End DayTotals.

(** ** The further properties at concrete inputs *)

Section MoreConcreteRuns.

Import Scripted Inputs Runs.

(** The last day of the calendar. *)
Lemma rand_ts_stays_on_day_witness :
  exists ts r',
    rand_ts_for_day "9999-12-31" some_draws = Ok (ts, r')
    /\ on_day (DT 9999 12 31 0 0 0) ts.
Proof.
  apply (rand_ts_stays_on_day "9999-12-31" (DT 9999 12 31 0 0 0) some_draws).
  reflexivity.
Defined.

Lemma base_record_fields_witness :
  exists event_id user_id ts r',
    base_record "2024-01-01" "crm" some_draws
    = Ok ([ ("event_id", VStr event_id);
            ("user_id", VInt user_id);
            ("currency", VStr "USD");
            ("source_system", VStr "crm");
            ("timestamp", VStr (isoformat ts +++ "Z")) ], r')
    /\ 1000 <= user_id <= 500000
    /\ on_day (DT 2024 1 1 0 0 0) ts
    /\ String.length (isoformat ts +++ "Z") = 20%nat
    /\ prefix_slice 10 (isoformat ts +++ "Z") = iso_date (DT 2024 1 1 0 0 0).
Proof.
  apply (base_record_fields "2024-01-01" "crm" (DT 2024 1 1 0 0 0) some_draws).
  reflexivity.
Defined.

Lemma rand_amount_between_witness :
  exists amt r',
    rand_amount (inject_Z 5) (inject_Z 2000) false some_draws = Ok (amt, r')
    /\ (inject_Z 5 <= amt /\ amt <= inject_Z 2000)%Q.
Proof.
  apply (rand_amount_between 5 2000 some_draws).
  - vm_compute. split; discriminate.
  - vm_compute. discriminate.
Defined.

Lemma gen_payments_event_types_witness :
  exists rec r' event_type status,
    gen_payments "2024-01-01" zelle_draws = Ok (rec, r')
    /\ dict_get "event_type" rec = Some (VStr event_type)
    /\ In event_type ["card_auth"; "card_settlement"; "ach_credit";
                      "ach_debit"; "wire_transfer"; "zelle_payment"]
    /\ dict_get "status" rec = Some (VStr status)
    /\ In status payment_statuses
    /\ dict_get "source_system" rec = Some (VStr "payments").
Proof.
  apply (gen_payments_event_types "2024-01-01" (DT 2024 1 1 0 0 0)
           zelle_draws).
  reflexivity.
Defined.

Lemma card_record_fields_witness :
  exists rec r',
    gen_payments "2024-01-01" failed_card_draws = Ok (rec, r')
    /\ card_fields "2024-01-01" rec.
Proof.
  eexists. eexists. split; [vm_compute; reflexivity|].
  eapply (card_record_fields "2024-01-01" failed_card_draws);
    [vm_compute; reflexivity | left; reflexivity].
Defined.

Lemma ach_record_fields_witness :
  exists rec r',
    gen_payments "2024-01-01" ach_debit_draws = Ok (rec, r')
    /\ ach_fields "2024-01-01" rec.
Proof.
  eexists. eexists. split; [vm_compute; reflexivity|].
  eapply (ach_record_fields "2024-01-01" ach_debit_draws);
    [vm_compute; reflexivity | right; reflexivity].
Defined.

Lemma wire_record_fields_witness :
  exists rec r',
    gen_payments "2024-01-01" wire_draws = Ok (rec, r')
    /\ wire_fields "2024-01-01" rec.
Proof.
  eexists. eexists. split; [vm_compute; reflexivity|].
  eapply (wire_record_fields "2024-01-01" wire_draws);
    [vm_compute; reflexivity | reflexivity].
Defined.

Lemma zelle_record_fields_witness :
  exists rec r',
    gen_payments "2024-01-01" zelle_draws = Ok (rec, r')
    /\ zelle_fields "2024-01-01" rec.
Proof.
  eexists. eexists. split; [vm_compute; reflexivity|].
  eapply (zelle_record_fields "2024-01-01" zelle_draws);
    [vm_compute; reflexivity | reflexivity].
Defined.

(** An invoice of the first of December 9999, the last day on which every
    term fits the calendar. *)
Lemma gen_billing_due_date_witness :
  exists rec r' issued due term,
    gen_billing "9999-12-01" paid_refund_draws = Ok (rec, r')
    /\ dict_get "invoice_date" rec = Some (VStr (isoformat issued +++ "Z"))
    /\ dict_get "due_date" rec = Some (VStr (isoformat due +++ "Z"))
    /\ on_day (DT 9999 12 1 0 0 0) issued
    /\ In term [7; 14; 30]
    /\ wf_datetime due
    /\ toordinal due = toordinal (DT 9999 12 1 0 0 0) + term
    /\ hour due = hour issued /\ minute due = minute issued
    /\ second due = second issued.
Proof.
  apply (gen_billing_due_date "9999-12-01" (DT 9999 12 1 0 0 0)
           paid_refund_draws).
  - reflexivity.
  - vm_compute. discriminate.
Defined.

Lemma gen_billing_amounts_witness :
  exists rec r' event_type status total paid due amount tax_rate line_count,
    gen_billing "2024-01-01" unpaid_refund_draws = Ok (rec, r')
    /\ dict_get "event_type" rec = Some (VStr event_type)
    /\ In event_type ["invoice_issued"; "invoice_paid"; "refund_issued"]
    /\ dict_get "status" rec = Some (VStr status)
    /\ In status billing_statuses
    /\ dict_get "amount_paid" rec = Some (VFloat paid)
    /\ dict_get "amount_due" rec = Some (VFloat due)
    /\ dict_get "amount" rec = Some (VFloat amount)
    /\ dict_get "tax_rate" rec = Some (VFloat tax_rate)
    /\ dict_get "line_count" rec = Some (VInt line_count)
    /\ (20 <= total /\ total <= 2000)%Q
    /\ (0 <= paid /\ paid <= total)%Q
    /\ (0 <= due /\ due <= total)%Q
    /\ (status = "paid" \/ status = "refunded" -> paid = total /\ due = 0%Q)
    /\ amount = (if String.eqb event_type "refund_issued"
                 then (- paid)%Q else total)
    /\ In tax_rate [0; 5 # 100; 7 # 100; 1 # 10]%Q
    /\ 1 <= line_count <= 5.
Proof.
  destruct (gen_billing "2024-01-01" unpaid_refund_draws)
    as [[rec r'] | e] eqn:Hrun; [|vm_compute in Hrun; discriminate].
  destruct (gen_billing_amounts "2024-01-01" unpaid_refund_draws rec r' Hrun)
    as (event_type & status & total & paid & due & amount & tax_rate
        & line_count & H).
  exists rec, r', event_type, status, total, paid, due, amount, tax_rate,
    line_count.
  split; [reflexivity | exact H].
Defined.

(** An invoice of the twenty-fifth of December 9999. *)
Lemma gen_billing_overflows_witness :
  gen_billing "9999-12-25" some_draws = Err OverflowError.
Proof.
  apply (gen_billing_overflows "9999-12-25" (DT 9999 12 25 0 0 0) some_draws).
  - reflexivity.
  - vm_compute. reflexivity.
Defined.

Lemma gen_crm_record_fields_witness :
  exists rec r',
    gen_crm "2024-01-01" some_draws = Ok (rec, r')
    /\ crm_fields "2024-01-01" rec.
Proof.
  apply (gen_crm_record_fields "2024-01-01" (DT 2024 1 1 0 0 0) some_draws).
  reflexivity.
Defined.

Lemma gen_erp_record_fields_witness :
  exists rec r',
    gen_erp "2024-01-01" erp_draws = Ok (rec, r')
    /\ erp_fields "2024-01-01" rec.
Proof.
  apply (gen_erp_record_fields "2024-01-01" (DT 2024 1 1 0 0 0) erp_draws).
  reflexivity.
Defined.

Lemma gen_support_record_fields_witness :
  exists rec r',
    gen_support "2024-01-01" some_draws = Ok (rec, r')
    /\ support_fields "2024-01-01" rec.
Proof.
  apply (gen_support_record_fields "2024-01-01" (DT 2024 1 1 0 0 0)
           some_draws).
  reflexivity.
Defined.

(** The thirtieth of February. *)
Lemma factories_reject_bad_day_witness :
  gen_billing "2024-02-30" some_draws = Err ValueError.
Proof.
  apply (factories_reject_bad_day "billing" gen_billing "2024-02-30"
           some_draws).
  - reflexivity.
  - intros t. vm_compute. discriminate.
Defined.

Lemma factory_table_matches_sources_witness :
  (In "erp" SOURCES
   <-> exists gen,
         GEN_BY_SOURCE (G := list Z) (U := list string) "erp" = Some gen)
  /\ exists rec r',
       gen_erp "2024-01-01" erp_draws = Ok (rec, r')
       /\ dict_get "source_system" rec = Some (VStr "erp")
       /\ dict_mem "amount" rec = true
       /\ dict_mem "event_type" rec = true.
Proof.
  destruct (factory_table_matches_sources (G := list Z) (U := list string)
              "erp") as [Hiff Hrec].
  split; [exact Hiff|].
  eexists. eexists. split; [vm_compute; reflexivity|].
  eapply (Hrec gen_erp "2024-01-01" erp_draws);
    [reflexivity | vm_compute; reflexivity].
Defined.

Lemma written_lines_match_partition_witness :
  exists base w' lines,
    write_partition "2024-01-01" "crm" ["data"; "raw"] 3 2 (world [] [])
    = Ok (base, w')
    /\ fs_read ["data"; "raw"; "day=2024-01-01"; "source=crm";
                "part-00001.json"] (files w') = Some lines
    /\ (fs_read ["data"; "raw"; "day=2024-01-01"; "source=crm";
                 "part-00001.json"] (files (world [] [])) = Some lines
        \/ Forall
             (fun line =>
                (exists gen r r',
                    GEN_BY_SOURCE "crm" = Some gen
                    /\ gen "2024-01-01" r = Ok (line, r'))
                /\ stamped "2024-01-01" "crm" line)
             lines).
Proof.
  do 3 eexists. split; [vm_compute; reflexivity|].
  split; [vm_compute; reflexivity|].
  eapply (written_lines_match_partition "2024-01-01" "crm" ["data"; "raw"] 3
            2 (world [] []));
    vm_compute; reflexivity.
Defined.

Lemma write_partition_raises_witness :
  write_partition "2024-01-01" "crm" ["out"] 5 0 (world [] [])
  = Err ZeroDivisionError
  /\ write_partition "2024-01-01" "audit" ["out"] 5 2 (world [] [])
     = Err KeyError
  /\ write_partition "2024-02-30" "crm" ["out"] 5 2 (world [] [])
     = Err ValueError.
Proof.
  split; [|split].
  - apply (write_partition_raises "2024-01-01" "crm" ["out"] 5 2
             (world [] [])).
  - apply (write_partition_raises "2024-01-01" "audit" ["out"] 5 2
             (world [] [])).
    + vm_compute. split; [discriminate | reflexivity].
    + vm_compute. discriminate.
    + reflexivity.
  - apply (write_partition_raises "2024-02-30" "crm" ["out"] 5 2
             (world [] [])).
    + vm_compute. split; [discriminate | reflexivity].
    + vm_compute. discriminate.
    + cbn. auto.
    + intros t. vm_compute. discriminate.
Defined.

(** An unknown source, a day that does not parse, and a negative size of
    file: one empty file and no exception. *)
Lemma write_partition_nothing_to_write_witness :
  exists base w',
    write_partition "someday" "audit" ["out"] 5 (-1) (world [7] [])
    = Ok (base, w')
    /\ base = ["out"] // ("day=" +++ "someday") // ("source=" +++ "audit")
    /\ files w'
       = fs_write (base // part_name 0) [] (files (world [7] []))
    /\ rand w' = rand (world [7] [])
    /\ stdout w'
       = stdout (world [7] []) ++ [wrote_line base 0 (Z.min (-1) 5)].
Proof.
  apply (write_partition_nothing_to_write GEN_BY_SOURCE "someday" "audit"
           ["out"] 5 (-1) (world [7] [])).
  - vm_compute. split; reflexivity.
  - right. vm_compute. split; [discriminate | reflexivity].
Defined.

Lemma write_partition_overwrites_witness :
  exists base w',
    write_partition "2024-01-01" "crm" ["data"; "raw"] 3 2 (world [] [])
    = Ok (base, w')
    /\ let k := Z.max 1 (ceil_div 3 2) in
       (forall i, 0 <= i < k ->
          exists lines,
            fs_read (base // part_name i) (files w') = Some lines
            /\ Z.of_nat (length lines)
               = (if i <? k - 1 then 2 else 3 - (k - 1) * 2))
       /\ (forall p, (forall i, 0 <= i < k -> p <> base // part_name i) ->
                     fs_read p (files w') = fs_read p (files (world [] []))).
Proof.
  apply (write_partition_overwrites "2024-01-01" "crm" ["data"; "raw"] 3 2
           (world [] [])).
  - apply day_ok_2024_01_01.
  - apply crm_is_a_source.
  - vm_compute. split; [discriminate | reflexivity].
  - vm_compute. discriminate.
Defined.

Lemma write_partition_console_witness :
  exists base w',
    write_partition "2024-01-01" "crm" ["data"; "raw"] 3 2 (world [] [])
    = Ok (base, w')
    /\ let k := Z.max 1 (ceil_div 3 2) in
       stdout w'
       = stdout (world [] [])
         ++ map (fun x => wrote_line base (fst x) (snd x))
              (combine (range k)
                 (repeat 2 (Z.to_nat (k - 1)) ++ [3 - (k - 1) * 2])).
Proof.
  apply (write_partition_console "2024-01-01" "crm" ["data"; "raw"] 3 2
           (world [] [])).
  - apply day_ok_2024_01_01.
  - apply crm_is_a_source.
  - vm_compute. split; [discriminate | reflexivity].
  - vm_compute. discriminate.
Defined.

(** An end day given as 2024-1-3. *)
Lemma driver_day_strings_witness :
  day_back "2024-1-3" 0 = Ok "2024-01-03"
  /\ (exists t',
         day_back "2024-1-3" 3 = Ok (strftime t')
         /\ wf_datetime t'
         /\ toordinal t' = toordinal (DT 2024 1 3 0 0 0) - 3
         /\ (1000 <= year t' ->
             String.length (strftime t') = 10%nat
             /\ strptime (strftime t') = Ok t'))
  /\ day_back "0001-01-02" 2 = Err OverflowError.
Proof.
  destruct (driver_day_strings "2024-1-3" (DT 2024 1 3 0 0 0) 3 eq_refl)
    as (H0 & H2 & _).
  destruct (driver_day_strings "0001-01-02" (DT 1 1 2 0 0 0) 2 eq_refl)
    as (_ & _ & H3).
  split; [exact H0|].
  split; [apply H2; vm_compute; split; discriminate|].
  apply H3. reflexivity.
Defined.

Lemma main_without_days_witness :
  exists w',
    main no_days_args (world [1; 2] []) = Ok (tt, w')
    /\ In (path_of_string (arg_out no_days_args)) (dirs w')
    /\ files w' = files (world [1; 2] [])
    /\ stdout w' = stdout (world [1; 2] [])
    /\ rand w' = rand (world [1; 2] []).
Proof.
  apply (main_without_days no_days_args (world [1; 2] [])).
  vm_compute. discriminate.
Defined.

Lemma main_raises_witness :
  main bad_day_args (world [] []) = Err ValueError
  /\ main zero_per_file_args (world [] []) = Err ZeroDivisionError.
Proof.
  split.
  - apply (main_raises bad_day_args (world [] [])).
    + vm_compute. discriminate.
    + intros t. vm_compute. discriminate.
  - apply (main_raises zero_per_file_args (world [] []))
      with (t := DT 2024 1 3 0 0 0).
    + vm_compute. discriminate.
    + reflexivity.
    + reflexivity.
Defined.

(** Twelve events a day: 3, 3, 2, 2 and 2 for the five sources, in files of
    at most two lines. *)
Lemma main_writes_total_per_day_witness :
  exists w',
    main small_files_args (world [] []) = Ok (tt, w')
    /\ forall d,
         0 <= d < arg_days small_files_args ->
         let dir := partition_dir (path_of_string (arg_out small_files_args))
                      (toordinal (DT 2024 3 1 0 0 0)) d in
         (forall idx source,
             In (idx, source) (enumerate SOURCES) ->
             lines_in (dir source) (files w')
             = allocation (arg_total_events small_files_args) idx)
         /\ sum_Z (map (fun source => lines_in (dir source) (files w'))
                     SOURCES)
            = arg_total_events small_files_args.
Proof.
  apply (main_writes_total_per_day small_files_args (world [] [])
           (DT 2024 3 1 0 0 0)).
  - reflexivity.
  - vm_compute. split; discriminate.
  - vm_compute. discriminate.
  - vm_compute. split; [discriminate | reflexivity].
  - vm_compute. discriminate.
  - reflexivity.
Defined.

End MoreConcreteRuns.
